(** * Browser-Agent: the in-page automation core, embedded and verified

    A shallow embedding of the extension's JavaScript sources:
    - [Text]:         the string primitives the sources rely on
    - [Registry]:     extension/utils/uid-generator.js
    - [Extractor]:    extension/content/dom-extractor.js
    - [Executor]:     extension/content/content-script.js
    - [Orchestrator]: the side panel script (startAutomationLoop, handleStop)

    Strings are modelled over ASCII: [toLowerCase] folds A-Z only and the
    whitespace class of the regular expression [\s] is its ASCII part. *)

From Stdlib Require Import ZArith QArith Ascii String List Bool Lia.
From Stdlib Require Import DecimalString DecimalNat.
From stdpp Require Import base option list gmap strings.

Local Open Scope string_scope.

(* ===================================================================== *)
(** ** String primitives *)
(* ===================================================================== *)

Module Text.

(** ASCII members of the class [\s]: TAB, LF, VT, FF, CR and SPACE. *)
Definition isSpace (c : ascii) : bool :=
  let n := nat_of_ascii c in
  ((9 <=? n)%nat && (n <=? 13)%nat) || (n =? 32)%nat.

Definition lowerChar (c : ascii) : ascii :=
  let n := nat_of_ascii c in
  if ((65 <=? n)%nat && (n <=? 90)%nat) then ascii_of_nat (n + 32) else c.

(** [s.toLowerCase()] *)
Fixpoint toLowerCase (s : string) : string :=
  match s with
  | EmptyString => EmptyString
  | String c r => String (lowerChar c) (toLowerCase r)
  end.

Fixpoint trimStart (s : string) : string :=
  match s with
  | EmptyString => EmptyString
  | String c r => if isSpace c then trimStart r else s
  end.

Fixpoint trimEnd (s : string) : string :=
  match s with
  | EmptyString => EmptyString
  | String c r =>
      match trimEnd r with
      | EmptyString => if isSpace c then EmptyString else String c EmptyString
      | r' => String c r'
      end
  end.

(** [s.trim()] *)
Definition trim (s : string) : string := trimEnd (trimStart s).

(** [s.replace(/\s+/g, " ")]: every maximal run of whitespace becomes one
    space; [inRun] says that the previous character was whitespace. *)
Fixpoint collapseFrom (inRun : bool) (s : string) : string :=
  match s with
  | EmptyString => EmptyString
  | String c r =>
      if isSpace c
      then if inRun then collapseFrom true r
           else String " "%char (collapseFrom true r)
      else String c (collapseFrom false r)
  end.

Definition collapseSpaces (s : string) : string := collapseFrom false s.

(** [hay.includes(needle)] *)
Fixpoint includes (hay needle : string) : bool :=
  String.prefix needle hay ||
  match hay with
  | EmptyString => false
  | String _ r => includes r needle
  end.

(** JavaScript truthiness of a string. *)
Definition truthy (s : string) : bool :=
  match s with EmptyString => false | String _ _ => true end.

(** The one-character string holding a double quote. *)
Definition dquote : string := String (ascii_of_nat 34) EmptyString.

(** [a || b] on strings. *)
Definition orElse (a b : string) : string := if truthy a then a else b.

End Text.

(* ===================================================================== *)
(** ** extension/utils/uid-generator.js *)
(* ===================================================================== *)

Module Registry.
Import Text.

(** What a DOM query gives back: a value, or a thrown exception (a
    malformed selector or path raises a SyntaxError). *)
Inductive Query (A : Type) : Type :=
  | Ok (a : A)
  | Throws (message : string).
Arguments Ok {A} a.
Arguments Throws {A} message.

(** The part of a live element that the resolver reads. [node] is the
    identity of the DOM node. *)
Record Element := mkElement {
  node : nat;
  isConnected : bool;
  display : string;       (* getComputedStyle(element).display *)
  visibility : string;    (* getComputedStyle(element).visibility *)
  textContent : string;
}.

(** The document, as the three queries the resolver issues against it. *)
Record Document := mkDocument {
  querySelector : string -> Query (option Element);
  querySelectorAll : string -> Query (list Element);
  evaluate : string -> Query (option Element);  (* singleNodeValue *)
}.

(** The [selectors] object handed to [registerUID] by the extractor. The
    attribute object keeps its insertion order. *)
Record Selectors := mkSelectors {
  sel_selector : string;
  sel_xpath : string;
  sel_attributes : list (string * string);
  sel_text : string;
  sel_tag : string;
}.

Record RegistryEntry := mkEntry {
  selector : string;
  xpath : string;
  attributes : list (string * string);
  text : string;
  tag : string;
  timestamp : Z;
  accessCount : N;
}.

(** [uidRegistry], a Map from uid to entry. *)
Abbreviation UidRegistry := (gmap string RegistryEntry).

Definition registerUID (now : Z) (uid : string) (s : Selectors)
    (reg : UidRegistry) : UidRegistry :=
  <[uid := {| selector := sel_selector s; xpath := sel_xpath s;
              attributes := sel_attributes s; text := sel_text s;
              tag := sel_tag s; timestamp := now; accessCount := 0 |}]> reg.

Definition isElementValid (element : Element) : bool :=
  if negb (isConnected element) then false
  else if String.eqb (display element) "none"
          || String.eqb (visibility element) "hidden" then false
  else true.

(** [attributes[attr]]: the value stored under a key, if any. *)
Fixpoint getAttr (attributes : list (string * string)) (key : string)
    : option string :=
  match attributes with
  | [] => None
  | (k, v) :: rest => if String.eqb k key then Some v else getAttr rest key
  end.

Definition stableAttrs : list string :=
  ["id"; "name"; "data-testid"; "data-test-id"].

Definition attrSelector (prefix key value : string) : string :=
  prefix ++ "[" ++ key ++ "=" ++ dquote ++ value ++ dquote ++ "]".

(** First loop of [findByAttributes]. [Some r]: the function returned [r]
    from inside the loop; [None]: the loop ran to its end. *)
Fixpoint stableLoop (doc : Document) (attributes : list (string * string))
    (attrs : list string) (selector : string) : option (option Element) :=
  match attrs with
  | [] => None
  | attr :: rest =>
      match getAttr attributes attr with
      | Some v =>
          if truthy v then
            let selector' := attrSelector selector attr v in
            match querySelector doc selector' with
            | Ok r => Some r
            | Throws _ => stableLoop doc attributes rest selector'
            end
          else stableLoop doc attributes rest selector
      | None => stableLoop doc attributes rest selector
      end
  end.

Definition isStable (key : string) : bool :=
  existsb (String.eqb key) stableAttrs.

(** Second loop of [findByAttributes], over [Object.entries(attributes)]. *)
Fixpoint otherLoop (doc : Document) (tag : string)
    (entries : list (string * string)) : option Element :=
  match entries with
  | [] => None
  | (key, value) :: rest =>
      if negb (isStable key) && truthy value then
        match querySelectorAll doc (attrSelector tag key value) with
        | Ok [e] => Some e
        | _ => otherLoop doc tag rest
        end
      else otherLoop doc tag rest
  end.

Definition findByAttributes (doc : Document)
    (attributes : list (string * string)) (tag : string) : option Element :=
  match stableLoop doc attributes stableAttrs (orElse tag "*") with
  | Some r => r
  | None => otherLoop doc tag attributes
  end.

(** [text.trim().toLowerCase().replace(/\s+/g, " ")] *)
Definition cleanText (s : string) : string :=
  collapseSpaces (toLowerCase (trim s)).

Fixpoint exactLoop (clean : string) (elements : list Element)
    : option Element :=
  match elements with
  | [] => None
  | element :: rest =>
      if String.eqb (cleanText (textContent element)) clean
      then Some element else exactLoop clean rest
  end.

Fixpoint partialLoop (clean : string) (elements : list Element)
    : option Element :=
  match elements with
  | [] => None
  | element :: rest =>
      let elementText := cleanText (textContent element) in
      if includes elementText clean || includes clean elementText
      then Some element else partialLoop clean rest
  end.

Definition findByText (doc : Document) (text tag : string)
    : Query (option Element) :=
  match querySelectorAll doc tag with
  | Throws m => Throws m
  | Ok elements =>
      let clean := cleanText text in
      match exactLoop clean elements with
      | Some e => Ok (Some e)
      | None => Ok (partialLoop clean elements)
      end
  end.

(** [element && isElementValid(element)] *)
Definition accepted (candidate : option Element) : option Element :=
  match candidate with
  | Some e => if isElementValid e then Some e else None
  | None => None
  end.

(** The candidate of a strategy whose query sits in a try/catch. *)
Definition caught (q : Query (option Element)) : option Element :=
  match q with Ok r => r | Throws _ => None end.

Definition touch (entry : RegistryEntry) : RegistryEntry :=
  {| selector := selector entry; xpath := xpath entry;
     attributes := attributes entry; text := text entry; tag := tag entry;
     timestamp := timestamp entry;
     accessCount := (accessCount entry + 1)%N |}.

(** The four strategies, run on an entry whose counter is already
    incremented. The text query is the only one outside a try/catch. An
    entry written by the extractor always carries an attribute object,
    so the third strategy is always entered. *)
Definition locate (doc : Document) (entry : RegistryEntry)
    : Query (option Element) :=
  match (if truthy (selector entry)
         then accepted (caught (querySelector doc (selector entry)))
         else None) with
  | Some e => Ok (Some e)
  | None =>
  match (if truthy (xpath entry)
         then accepted (caught (evaluate doc (xpath entry)))
         else None) with
  | Some e => Ok (Some e)
  | None =>
  match accepted (findByAttributes doc (attributes entry) (tag entry)) with
  | Some e => Ok (Some e)
  | None =>
      if truthy (text entry) && truthy (tag entry) then
        match findByText doc (text entry) (tag entry) with
        | Throws m => Throws m
        | Ok r =>
            match accepted r with
            | Some e => Ok (Some e)
            | None => Ok None
            end
        end
      else Ok None
  end end end.

Definition getElementByUID (uid : string) (doc : Document)
    (reg : UidRegistry) : Query (option Element) * UidRegistry :=
  match reg !! uid with
  | None => (Ok None, reg)
  | Some entry =>
      let entry' := touch entry in
      (locate doc entry', <[uid := entry']> reg)
  end.

Definition maxAge : Z := 30 * 60 * 1000.

Definition expired (now : Z) (entry : RegistryEntry) : bool :=
  (maxAge <? now - timestamp entry)%Z && (accessCount entry =? 0)%N.

Definition cleanupRegistry (now : Z) (reg : UidRegistry) : UidRegistry :=
  filter (fun kv => expired now kv.2 = false) reg.

Definition clearRegistry (reg : UidRegistry) : UidRegistry := ∅.

End Registry.

(* ===================================================================== *)
(** ** Resolver: order of strategies, liveness, and the sweep *)
(* ===================================================================== *)

Module RegistrySpec.
Import Text Registry.

(** The text tier read literally from its description: texts compared
    after whitespace normalisation only (trimmed, runs collapsed). *)
Definition normalizeWhitespace (s : string) : string :=
  collapseSpaces (trim s).

Definition textMatchesLiterally (recorded elementText : string) : bool :=
  let r := normalizeWhitespace recorded in
  let t := normalizeWhitespace elementText in
  String.eqb t r || includes t r || includes r t.

(** Tests of the two passes of [findByText]. *)
Definition exactMatch (clean : string) (e : Element) : bool :=
  String.eqb (cleanText (textContent e)) clean.

Definition partialMatch (clean : string) (e : Element) : bool :=
  includes (cleanText (textContent e)) clean
  || includes clean (cleanText (textContent e)).

(** An attribute the fingerprint holds with a non-empty value. *)
Definition recorded (attributes : list (string * string)) (attr : string)
    : bool :=
  match getAttr attributes attr with
  | Some v => truthy v
  | None => false
  end.

(** The test of the second loop of [findByAttributes]: a non-stable,
    non-empty attribute whose tag-qualified query has exactly one match. *)
Definition uniqueMatch (doc : Document) (tag : string)
    (kv : string * string) : option Element :=
  if negb (isStable kv.1) && truthy kv.2 then
    match querySelectorAll doc (attrSelector tag kv.1 kv.2) with
    | Ok [e] => Some e
    | _ => None
    end
  else None.

Fixpoint firstSome {A B} (f : A -> option B) (l : list A) : option B :=
  match l with
  | [] => None
  | x :: r => match f x with Some y => Some y | None => firstSome f r end
  end.

(** What happens to the registry over time: look-ups, sweeps, and
    registrations by later captures. *)
Inductive RegistryOp :=
  | Lookup (uid : string) (doc : Document)
  | Sweep (now : Z)
  | Register (now : Z) (uid : string) (s : Selectors).

Definition runOp (reg : UidRegistry) (op : RegistryOp) : UidRegistry :=
  match op with
  | Lookup uid doc => (getElementByUID uid doc reg).2
  | Sweep now => cleanupRegistry now reg
  | Register now uid s => registerUID now uid s reg
  end.



(** A page with one button labelled SUBMIT and nothing else to find. *)
Definition submitButton : Element :=
  {| node := 7; isConnected := true; display := "inline-block";
     visibility := "visible"; textContent := "SUBMIT" |}.

Definition submitPage : Document :=
  {| querySelector := fun _ => Ok None;
     querySelectorAll := fun s =>
       if String.eqb s "button" then Ok [submitButton] else Ok [];
     evaluate := fun _ => Ok None |}.

Definition submitEntry : RegistryEntry :=
  {| selector := "form > button"; xpath := "//form[1]/button[1]";
     attributes := [("class", "btn primary")]; text := "Submit";
     tag := "button"; timestamp := 0; accessCount := 0 |}.


(** A page on which the recorded id is gone but the placeholder is unique. *)
Definition searchBox : Element :=
  {| node := 3; isConnected := true; display := "block";
     visibility := "visible"; textContent := EmptyString |}.

Definition searchPage : Document :=
  {| querySelector := fun _ => Ok None;
     querySelectorAll := fun s =>
       if String.eqb s (attrSelector "input" "placeholder" "Search")
       then Ok [searchBox] else Ok [];
     evaluate := fun _ => Ok None |}.

(** A pasted paragraph [<o:p>]: its tag name is no valid selector, and
    the document rejects every query that starts with it. *)
Definition pastedPage : Document :=
  {| querySelector := fun s =>
       if String.prefix "o:p" s
       then Throws "SyntaxError: 'o:p' is not a valid selector"
       else Ok None;
     querySelectorAll := fun s =>
       if String.prefix "o:p" s
       then Throws "SyntaxError: 'o:p' is not a valid selector"
       else Ok [];
     evaluate := fun _ => Ok None |}.

Definition pastedEntry : RegistryEntry :=
  {| selector := "o:p"; xpath := "//o:p[1]";
     attributes := [("class", "MsoNormal")]; text := "Total";
     tag := "o:p"; timestamp := 0; accessCount := 0 |}.

End RegistrySpec.

(* ===================================================================== *)
(** ** extension/content/dom-extractor.js *)
(* ===================================================================== *)

Module Extractor.
Import Text.

(** The computed-style properties the extractor reads. *)
Record Style := mkStyle {
  display : string;
  visibility : string;
  opacity : string;
  pointerEvents : string;
  overflowY : string;
  overflow : string;
}.

(** [getBoundingClientRect()]; [right] and [bottom] are derived. *)
Record Rect := mkRect {
  left : Q;
  top : Q;
  width : Q;
  height : Q;
}.

Definition right (r : Rect) : Q := left r + width r.
Definition bottom (r : Rect) : Q := top r + height r.

Definition Qltb (a b : Q) : bool := negb (Qle_bool b a).

(** One element: identity, attributes as written in the markup, and the
    reflected properties the extractor reads. A property that is
    undefined or null on the element is the empty string here.
    [element.value] is a string on form controls and a number on [li],
    [progress] and [meter]: [value] holds the string, and is empty when
    [element.value] is a number or undefined; [valueNumber] holds the
    number. *)
Record Elem := mkElem {
  node : nat;
  tagName : string;
  attrs : list (string * string);
  style : Style;
  rect : Rect;
  id : string;
  name : string;
  type : string;
  className : string;
  value : string;
  valueNumber : option Q;
  placeholder : string;
  textContent : string;
  alt : string;
  title : string;
  disabled : bool;
  tabIndex : Z;
  onclickIsFunction : bool;
  isBodyOrRoot : bool;       (* document.body or document.documentElement *)
  isBody : bool;
  scrollHeight : Z;
  clientHeight : Z;
  siblingIndex : nat;        (* position among the parent's children *)
  sameTagIndex : nat;        (* position among the siblings of its tag *)
  sameTagCount : nat;        (* number of siblings of its tag, itself included *)
}.

(** An element with the subtree below it. *)
#[warnings="-register-all"] Inductive DomNode :=
  | Node (props : Elem) (children : list DomNode).

Definition props (n : DomNode) : Elem := match n with Node p _ => p end.
Definition children (n : DomNode) : list DomNode :=
  match n with Node _ c => c end.

(** An element in place: its subtree and its chain of [parentElement]s,
    nearest first. *)
Record Located := mkLocated {
  self : DomNode;
  ancestors : list Elem;
}.

Definition element (l : Located) : Elem := props (self l).

(** [element.getAttribute(name)] *)
Fixpoint getAttribute (attrs : list (string * string)) (key : string)
    : option string :=
  match attrs with
  | [] => None
  | (k, v) :: rest =>
      if String.eqb k key then Some v else getAttribute rest key
  end.

Definition hasAttribute (e : Elem) (key : string) : bool :=
  match getAttribute (attrs e) key with Some _ => true | None => false end.

(** [element.getAttribute(name)], the empty string standing for null. *)
Definition attrOrEmpty (e : Elem) (key : string) : string :=
  match getAttribute (attrs e) key with Some v => v | None => EmptyString end.

Definition hidden (st : Style) : bool :=
  String.eqb (display st) "none"
  || String.eqb (visibility st) "hidden"
  || String.eqb (opacity st) "0".

(** The callback of [children.some(...)] in [isElementVisible]. *)
Definition childIsVisible (child : Elem) : bool :=
  if String.eqb (display (style child)) "none"
     || String.eqb (visibility (style child)) "hidden"
  then false
  else Qltb 1 (width (rect child)) && Qltb 1 (height (rect child)).

Definition hasVisibleChild (n : DomNode) : bool :=
  existsb (fun c => childIsVisible (props c)) (children n).

(** [/(auto|scroll|overlay)/.test(s)] *)
Definition scrollableOverflow (s : string) : bool :=
  includes s "auto" || includes s "scroll" || includes s "overlay".

Fixpoint findScrollableFrom (depth : nat) (chain : list Elem)
    : option Elem :=
  match depth, chain with
  | S d, a :: rest =>
      if scrollableOverflow (orElse (overflowY (style a)) (overflow (style a)))
         && (clientHeight a + 1 <? scrollHeight a)%Z
      then Some a
      else findScrollableFrom d rest
  | _, _ => None
  end.

Definition findScrollableAncestor (l : Located) : option Elem :=
  findScrollableFrom 6 (ancestors l).

Definition isElementVisible (l : Located) : bool :=
  let e := element l in
  if hidden (style e) then false
  else if (Qeq_bool (width (rect e)) 0 || Qeq_bool (height (rect e)) 0)
          && negb (hasVisibleChild (self l)) then false
  else if existsb (fun a => hidden (style a)) (firstn 4 (ancestors l))
  then false
  else
    match findScrollableAncestor l with
    | Some scroller =>
        if negb (isBodyOrRoot scroller) then
          let horizontallyVisible :=
            Qltb (left (rect scroller)) (right (rect e))
            && Qltb (left (rect e)) (right (rect scroller)) in
          let verticallyVisible :=
            Qltb (top (rect scroller)) (bottom (rect e))
            && Qltb (top (rect e)) (bottom (rect scroller)) in
          horizontallyVisible && verticallyVisible
        else true
    | None => true
    end.

Definition isActionableElement (l : Located) : bool :=
  let e := element l in
  if negb (isElementVisible l) then false
  else if String.eqb (pointerEvents (style e)) "none" then false
  else if disabled e || String.eqb (attrOrEmpty e "aria-disabled") "true"
  then false
  else
    let ariaHidden := toLowerCase (attrOrEmpty e "aria-hidden") in
    let hasHref := hasAttribute e "href" in
    let hasOnClick := onclickIsFunction e || hasAttribute e "onclick" in
    let role := toLowerCase (attrOrEmpty e "role") in
    let focusable := (0 <=? tabIndex e)%Z in
    if String.eqb ariaHidden "true" && negb hasHref && negb hasOnClick
       && negb focusable && negb (truthy role)
    then false
    else true.

(** *** Identifiers *)

Definition digitChar (d : N) : ascii :=
  if (d <? 10)%N then ascii_of_N (48 + d) else ascii_of_N (87 + d).

Fixpoint toRadixFuel (fuel : nat) (radix n : N) (acc : string) : string :=
  let acc' := String (digitChar (n mod radix)) acc in
  match fuel with
  | O => acc'
  | S f =>
      if (n / radix =? 0)%N then acc'
      else toRadixFuel f radix (n / radix) acc'
  end.

(** [n.toString(radix)] for a non-negative integer. *)
Definition toRadix (radix n : N) : string :=
  toRadixFuel (N.size_nat n) radix n EmptyString.

(** A non-negative integer written in decimal, as a template literal
    writes it. *)
Definition decimal (n : nat) : string :=
  NilEmpty.string_of_uint (Nat.to_uint n).

(** ToInt32 *)
Definition wrap32 (z : Z) : Z :=
  ((z + 2147483648) mod 4294967296 - 2147483648)%Z.

Fixpoint hashFrom (hash : Z) (str : string) : Z :=
  match str with
  | EmptyString => hash
  | String c r =>
      let char := Z.of_nat (nat_of_ascii c) in
      let h := (wrap32 (hash * 32) - hash + char)%Z in
      hashFrom (wrap32 h) r
  end.

Definition simpleHash (str : string) : string :=
  toRadix 36 (Z.to_N (Z.abs (hashFrom 0 str))).

Definition tokenChar (c : ascii) : bool :=
  let n := nat_of_ascii c in
  ((97 <=? n) && (n <=? 122) || (65 <=? n) && (n <=? 90)
   || (48 <=? n) && (n <=? 57) || (n =? 95) || (n =? 58) || (n =? 45)
   || (n =? 46))%nat.

Fixpoint replaceNonToken (s : string) : string :=
  match s with
  | EmptyString => EmptyString
  | String c r =>
      String (if tokenChar c then c else "_"%char) (replaceNonToken r)
  end.

(** [s.slice(0, n)] *)
Definition slice0 (n : nat) (s : string) : string := String.substring 0 n s.

Definition sanitizeToken (s : string) : string :=
  slice0 80 (replaceNonToken s).

(** [getElementText] throws on an element whose [value] is a number
    other than zero: the number is truthy, becomes [text], and has no
    [trim] method. *)
Definition getElementTextThrows (e : Elem) : bool :=
  match valueNumber e with
  | Some number => negb (Qeq_bool number 0)
  | None => false
  end.

(** What [getElementText] returns when it does not throw. *)
Definition getElementText (e : Elem) : string :=
  let text :=
    if truthy (value e) then value e
    else if truthy (placeholder e) then "[" ++ placeholder e ++ "]"
    else if truthy (textContent e) then textContent e
    else if truthy (alt e) then alt e
    else if truthy (title e) then title e
    else EmptyString in
  let text := collapseSpaces (trim text) in
  if (100 <? String.length text)%nat
  then String.substring 0 97 text ++ "..." else text.

(** [s.split(/\s+/)] *)
Fixpoint splitFrom (inRun : bool) (cur : string) (s : string)
    : list string :=
  match s with
  | EmptyString => [cur]
  | String c r =>
      if isSpace c
      then if inRun then splitFrom true cur r
           else cur :: splitFrom true EmptyString r
      else splitFrom false (cur ++ String c EmptyString) r
  end.

Definition splitSpaces (s : string) : list string :=
  splitFrom false EmptyString s.

(** [parts.join(sep)] *)
Fixpoint join (sep : string) (parts : list string) : string :=
  match parts with
  | [] => EmptyString
  | [x] => x
  | x :: rest => x ++ sep ++ join sep rest
  end.

(** The segments of [getElementPath], outermost first. The chain is the
    element followed by its ancestors. *)
Fixpoint pathSegments (chain : list Elem) : list string :=
  match chain with
  | [] => []
  | current :: rest =>
      if isBody current then []
      else
        let selector := toLowerCase (tagName current) in
        if truthy (id current) then [selector ++ "#" ++ id current]
        else
          let selector :=
            match rest with
            | [] => selector
            | _ :: _ =>
                selector ++ ":nth-child("
                  ++ decimal (siblingIndex current + 1) ++ ")"
            end in
          (pathSegments rest ++ [selector])%list
  end.

Definition getElementPath (l : Located) : string :=
  join " > " (pathSegments (element l :: ancestors l)).

(** [a || b] on attribute values, null being falsy. *)
Definition firstTruthy (candidates : list (option string)) : string :=
  match List.filter truthy (omap (fun x => x) candidates) with
  | v :: _ => v
  | [] => EmptyString
  end.

Definition generateUID (l : Located) (index : nat) : string :=
  let e := element l in
  let testId := firstTruthy [getAttribute (attrs e) "data-testid";
                             getAttribute (attrs e) "data-test-id";
                             getAttribute (attrs e) "data-test"] in
  if truthy testId then "elem_test_" ++ sanitizeToken testId
  else if truthy (id e) then "elem_id_" ++ sanitizeToken (id e)
  else if truthy (name e) then "elem_name_" ++ sanitizeToken (name e)
  else
    let tag := toLowerCase (tagName e) in
    let role := attrOrEmpty e "role" in
    let placeholderAttr := attrOrEmpty e "placeholder" in
    let ariaLabel := firstTruthy [getAttribute (attrs e) "aria-label";
                                  getAttribute (attrs e) "aria-labelledby"] in
    let cls := join "." (firstn 3 (splitSpaces (className e))) in
    let text := slice0 40 (getElementText e) in
    let path := getElementPath l in
    let fingerprint :=
      join "|" (List.filter truthy
        [tag; role; type e; placeholderAttr; ariaLabel; cls; text; path]) in
    "elem_" ++ simpleHash fingerprint ++ "_" ++ decimal index.

(** The path of [generateSelector], outermost segment first, at most
    [limit] segments long. *)
Fixpoint selectorSegments (limit : nat) (chain : list Elem) : list string :=
  match limit, chain with
  | S limit', current :: rest =>
      if isBody current then []
      else if truthy (id current) then ["#" ++ id current]
      else
        let selector := toLowerCase (tagName current) in
        let selector :=
          match rest with
          | [] => selector
          | _ :: _ =>
              if (1 <? sameTagCount current)%nat
              then selector ++ ":nth-of-type("
                     ++ decimal (sameTagIndex current + 1) ++ ")"
              else selector
          end in
        (selectorSegments limit' rest ++ [selector])%list
  | _, _ => []
  end.

Definition generateSelector (l : Located) : string :=
  let e := element l in
  if truthy (id e) then "#" ++ id e
  else if truthy (name e)
  then toLowerCase (tagName e) ++ "[name=" ++ dquote ++ name e ++ dquote ++ "]"
  else
    match getAttribute (attrs e) "data-testid" with
    | Some testId => "[data-testid=" ++ dquote ++ testId ++ dquote ++ "]"
    | None => join " > " (selectorSegments 5 (e :: ancestors l))
    end.

(** The segments of [generateXPath], outermost first, at most [limit]. *)
Fixpoint xpathSegments (limit : nat) (chain : list Elem) : list string :=
  match limit, chain with
  | S limit', current :: rest =>
      let segment :=
        toLowerCase (tagName current) ++ "["
          ++ decimal (sameTagIndex current + 1) ++ "]" in
      (xpathSegments limit' rest ++ [segment])%list
  | _, _ => []
  end.

Definition generateXPath (l : Located) : string :=
  let e := element l in
  if truthy (id e) then "//*[@id=" ++ dquote ++ id e ++ dquote ++ "]"
  else "//" ++ join "/" (xpathSegments 5 (e :: ancestors l)).

Definition relevantAttrs : list string :=
  ["id"; "name"; "class"; "type"; "href"; "src"; "placeholder"; "value";
   "aria-label"; "aria-labelledby"; "aria-describedby"; "aria-controls";
   "aria-expanded"; "aria-haspopup"; "aria-current"; "title"; "role";
   "tabindex"; "list"; "data-testid"; "data-test-id"; "data-test";
   "data-title"; "data-name"; "data-label"; "data-value"; "data-type";
   "data-role"; "data-action"; "data-command"; "data-qa"; "data-url";
   "data-href"].

Definition getRelevantAttributes (e : Elem) : list (string * string) :=
  omap (fun attr =>
          match getAttribute (attrs e) attr with
          | Some v =>
              if truthy v && (String.length v <? 200)%nat
              then Some (attr, v) else None
          | None => None
          end) relevantAttrs.

(** The fields of a serialized element that identify it and its source.
    [source] is the node the record was made from. *)
Record ElementRecord := mkRecord {
  uid : string;
  tag : string;
  text : string;
  attributes : list (string * string);
  recTabIndex : Z;
  source : nat;
}.

(** The record [serializeElement] returns; [None] is the [null] of its
    [catch], reached when [getElementText] throws. *)
Definition serializeElement (l : Located) (index : nat)
    : option ElementRecord :=
  let e := element l in
  if getElementTextThrows e then None
  else
    Some {| uid := generateUID l index;
            tag := toLowerCase (tagName e);
            text := getElementText e;
            attributes := getRelevantAttributes e;
            recTabIndex := tabIndex e;
            source := node e |}.

(** The page at capture time. [collected] is what the traversal of the
    document, its open shadow roots and same-origin frames gathers, each
    node once, before the actionability filter. *)
Record Page := mkPage {
  href : string;
  pageTitle : string;
  collected : list Located;
}.

Record Snapshot := mkSnapshot {
  url : string;
  snapTitle : string;
  snapTimestamp : Z;
  elements : list ElementRecord;
}.

(** The locators [serializeElement] hands to [registerUID]. *)
Definition selectorsOf (l : Located) : Registry.Selectors :=
  {| Registry.sel_selector := generateSelector l;
     Registry.sel_xpath := generateXPath l;
     Registry.sel_attributes := getRelevantAttributes (element l);
     Registry.sel_text := getElementText (element l);
     Registry.sel_tag := toLowerCase (tagName (element l)) |}.

Definition getInteractiveElements (page : Page) : list Located :=
  List.filter isActionableElement (collected page).

Definition captureDOM (now : Z) (page : Page) : Snapshot :=
  let interactiveElements := getInteractiveElements page in
  let serializedElements :=
    omap (fun x => x)
      (imap (fun index element => serializeElement element index)
            interactiveElements) in
  {| url := href page; snapTitle := pageTitle page; snapTimestamp := now;
     elements := serializedElements |}.

(** The call of [registerUID] inside [serializeElement]: it comes after
    [getElementText], so an element on which that throws is not
    registered. *)
Definition registerSerialized (now : Z)
    (reg : gmap string Registry.RegistryEntry) (il : nat * Located)
    : gmap string Registry.RegistryEntry :=
  if getElementTextThrows (element il.2) then reg
  else Registry.registerUID now (generateUID il.2 il.1) (selectorsOf il.2) reg.

(** What one capture does to the uid registry: every serialized
    element is registered under its uid, in order, a later element
    replacing an earlier one of the same uid. *)
Definition registerCaptured (now : Z) (page : Page)
    (reg : gmap string Registry.RegistryEntry)
    : gmap string Registry.RegistryEntry :=
  foldl (registerSerialized now)
        reg (imap (fun index element => (index, element))
                  (getInteractiveElements page)).

End Extractor.

Module ExtractorSpec.
Import Text Extractor.






(** Neither a test hook, nor an id, nor a name: the uid is the
    fingerprint with the traversal ordinal. *)
Definition fingerprinted (l : Located) : bool :=
  let e := element l in
  negb (truthy (firstTruthy [getAttribute (attrs e) "data-testid";
                             getAttribute (attrs e) "data-test-id";
                             getAttribute (attrs e) "data-test"]))
  && negb (truthy (id e)) && negb (truthy (name e)).

Fixpoint noUnderscore (s : string) : bool :=
  match s with
  | EmptyString => true
  | String c r => negb (Ascii.eqb c "_"%char) && noUnderscore r
  end.

(** *** Sample pages *)

Definition shown : Style :=
  {| display := "block"; visibility := "visible"; opacity := "1";
     pointerEvents := "auto"; overflowY := "visible";
     overflow := "visible" |}.

Definition box (w h : Q) : Rect :=
  {| left := 8; top := 8; width := w; height := h |}.

Definition plain (n : nat) (tagName : string) (attrs : list (string * string))
    (name type value text : string) (r : Rect) (sibling ofTag : nat) : Elem :=
  {| node := n; tagName := tagName; attrs := attrs; style := shown;
     rect := r; id := EmptyString; name := name; type := type;
     className := EmptyString; value := value; valueNumber := None;
     placeholder := EmptyString; textContent := text;
     alt := EmptyString; title := EmptyString; disabled := false;
     tabIndex := 0; onclickIsFunction := false; isBodyOrRoot := false;
     isBody := false; scrollHeight := 0; clientHeight := 0;
     siblingIndex := sibling; sameTagIndex := sibling;
     sameTagCount := ofTag |}.

Definition bodyElem : Elem :=
  {| node := 0; tagName := "BODY"; attrs := []; style := shown;
     rect := box 800 600; id := EmptyString; name := EmptyString;
     type := EmptyString; className := EmptyString; value := EmptyString;
     valueNumber := None;
     placeholder := EmptyString; textContent := EmptyString;
     alt := EmptyString; title := EmptyString; disabled := false;
     tabIndex := (-1); onclickIsFunction := false; isBodyOrRoot := true;
     isBody := true; scrollHeight := 600; clientHeight := 600;
     siblingIndex := 1; sameTagIndex := 0; sameTagCount := 1 |}.

(** Two radio buttons of one group: same [name], no id, no test hook. *)
Definition radio (n : nat) (v : string) (sibling : nat) : Located :=
  {| self := Node (plain n "INPUT"
                     [("type", "radio"); ("name", "color"); ("value", v)]
                     "color" "radio" v EmptyString (box 13 13) sibling 2) [];
     ancestors := [bodyElem] |}.

Definition radioPage : Page :=
  {| href := "https://shop.example/order"; pageTitle := "Order";
     collected := [radio 1 "red" 0; radio 2 "blue" 1] |}.

(** A zero-sized wrapper whose only child is zero-sized too, around an
    image of 100 by 30 pixels. *)
Definition picture : Elem :=
  plain 13 "IMG" [("src", "logo.png")] EmptyString EmptyString EmptyString
        EmptyString (box 100 30) 0 1.




(** The same link with the image as its direct child. *)
Definition directLink : Located :=
  {| self := Node (plain 21 "A" [("href", "/home")] EmptyString EmptyString
                     EmptyString EmptyString (box 0 0) 0 1)
                  [Node picture []];
     ancestors := [bodyElem] |}.

Definition directPage : Page :=
  {| href := "https://shop.example/"; pageTitle := "Home";
     collected := [directLink] |}.

(** [<li role="option" value="3">Third</li>]: [element.value] is the
    number 3. *)
Definition numberedItem : Located :=
  {| self := Node {| node := 31; tagName := "LI";
                     attrs := [("role", "option"); ("value", "3")];
                     style := shown; rect := box 200 20;
                     id := EmptyString; name := EmptyString;
                     type := EmptyString; className := EmptyString;
                     value := EmptyString; valueNumber := Some 3%Q;
                     placeholder := EmptyString; textContent := "Third";
                     alt := EmptyString; title := EmptyString;
                     disabled := false; tabIndex := (-1);
                     onclickIsFunction := false; isBodyOrRoot := false;
                     isBody := false; scrollHeight := 20;
                     clientHeight := 20; siblingIndex := 2;
                     sameTagIndex := 2; sameTagCount := 3 |} [];
     ancestors := [bodyElem] |}.

Definition listPage : Page :=
  {| href := "https://shop.example/steps"; pageTitle := "Steps";
     collected := [numberedItem; directLink] |}.

End ExtractorSpec.

(* ===================================================================== *)
(** ** extension/content/content-script.js *)
(* ===================================================================== *)

Module Executor.
Import Text.

(** *** select *)

(** An [option] of a native select: its [value] and its [text]. *)
Record OptionEl := mkOption {
  optValue : string;
  optText : string;
}.

(** What the executor does to an element, in order. *)
Inductive DomCall :=
  | DispatchEvent (type : string)            (* element.dispatchEvent(...) *)
  | SetValue (viaPrototypeSetter : bool) (v : string)
  | SetInnerText (v : string)
  | ScrollIntoView
  | Focus
  | Click
  | Sleep (ms : Z).

Record SelectEl := mkSelect {
  selTagName : string;
  options : list OptionEl;
  selectedValue : string;       (* selectEl.value *)
  selCalls : list DomCall;
}.

Fixpoint firstOption (test : OptionEl -> bool) (opts : list OptionEl)
    : option OptionEl :=
  match opts with
  | [] => None
  | opt :: rest => if test opt then Some opt else firstOption test rest
  end.

(** [selectOption(selectEl, valueOrText)]; a null or undefined request is
    [None]. *)
Definition selectOption (selectEl : SelectEl) (valueOrText : option string)
    : option OptionEl * SelectEl :=
  if negb (String.eqb (toLowerCase (selTagName selectEl)) "select")
  then (None, selectEl)
  else
    let value := trim (match valueOrText with
                       | Some v => v
                       | None => EmptyString
                       end) in
    let found :=
      firstOption (fun opt => String.eqb (optValue opt) value
                              || String.eqb (trim (optText opt)) value)
                  (options selectEl) in
    let found :=
      match found with
      | Some opt => Some opt
      | None =>
          if truthy value then
            firstOption (fun opt => includes (toLowerCase (optText opt))
                                             (toLowerCase value))
                        (options selectEl)
          else None
      end in
    match found with
    | Some opt =>
        (Some opt,
         {| selTagName := selTagName selectEl; options := options selectEl;
            selectedValue := optValue opt;
            selCalls := (selCalls selectEl
                         ++ [DispatchEvent "input"; DispatchEvent "change"])%list |})
    | None => (None, selectEl)
    end.

(** *** type *)

(** An element that text may be typed into. *)
Record Field := mkField {
  tagName : string;
  inputType : string;            (* the type of an input, lower case *)
  isContentEditable : bool;
  role : string;                 (* getAttribute("role") or empty *)
  hasAutocompleteAttr : bool;    (* aria-autocomplete or autocomplete *)
  ariaExpanded : string;
  value : string;
  innerText : string;
  calls : list DomCall;
}.

Definition record (c : list DomCall) (f : Field) : Field :=
  {| tagName := tagName f; inputType := inputType f;
     isContentEditable := isContentEditable f; role := role f;
     hasAutocompleteAttr := hasAutocompleteAttr f;
     ariaExpanded := ariaExpanded f; value := value f;
     innerText := innerText f; calls := (calls f ++ c)%list |}.

Definition dispatchEvent (type : string) (f : Field) : Field :=
  record [DispatchEvent type] f.

Fixpoint stripNewlines (s : string) : string :=
  match s with
  | EmptyString => EmptyString
  | String c r =>
      if ((nat_of_ascii c =? 10) || (nat_of_ascii c =? 13))%nat
      then stripNewlines r else String c (stripNewlines r)
  end.

Definition textLike (type : string) : bool :=
  existsb (String.eqb type) ["text"; "search"; "tel"; "password"].

(** The platform's value setter. For a text-like input the stored value
    is the new one with line breaks stripped; a file input refuses any
    non-empty value by throwing ([None]). Other controls are modelled as
    storing the value as given. *)
Definition storeValue (viaPrototypeSetter : bool) (v : string) (f : Field)
    : option Field :=
  let tag := toLowerCase (tagName f) in
  if String.eqb tag "input" && String.eqb (inputType f) "file" && truthy v
  then None
  else
    let stored :=
      if String.eqb tag "input" && textLike (inputType f)
      then stripNewlines v else v in
    Some {| tagName := tagName f; inputType := inputType f;
            isContentEditable := isContentEditable f; role := role f;
            hasAutocompleteAttr := hasAutocompleteAttr f;
            ariaExpanded := ariaExpanded f; value := stored;
            innerText := innerText f;
            calls := (calls f ++ [SetValue viaPrototypeSetter v])%list |}.

(** Whether the prototype of a tag exposes a [value] accessor with a
    setter; browsers do for input, textarea and select. *)
Record Platform := mkPlatform {
  hasValueSetter : string -> bool;
}.

Definition browser : Platform :=
  {| hasValueSetter := fun tag =>
       existsb (String.eqb tag) ["input"; "textarea"; "select"] |}.

Definition setValueReactSafe (p : Platform) (el : Field) (v : string)
    : bool * Field :=
  let tag := toLowerCase (tagName el) in
  let viaSetter :=
    existsb (String.eqb tag) ["input"; "textarea"; "select"]
    && hasValueSetter p tag in
  match storeValue viaSetter v el with
  | Some el1 => (true, dispatchEvent "change" (dispatchEvent "input" el1))
  | None =>
      (* catch *)
      match storeValue false v el with
      | Some el2 => (true, dispatchEvent "change" (dispatchEvent "input" el2))
      | None => (false, el)
      end
  end.

(** [setElementValue(element, value)]; [None] when the assignment
    throws, which the function does not catch. *)
Definition setElementValue (p : Platform) (element : Field) (v : string)
    : option Field :=
  if isContentEditable element then
    Some (dispatchEvent "change" (dispatchEvent "input"
      {| tagName := tagName element; inputType := inputType element;
         isContentEditable := isContentEditable element;
         role := role element;
         hasAutocompleteAttr := hasAutocompleteAttr element;
         ariaExpanded := ariaExpanded element; value := value element;
         innerText := v;
         calls := (calls element ++ [SetInnerText v])%list |}))
  else
    match storeValue (hasValueSetter p (toLowerCase (tagName element)))
                     v element with
    | Some el1 => Some (dispatchEvent "change" (dispatchEvent "input" el1))
    | None => None
    end.

Definition focusElement (element : Field) : Field :=
  record [ScrollIntoView; Focus] element.

Record TypeOutcome := mkTypeOutcome {
  ok : bool;
  mode : string;
}.

(** [typeIntoElement]. Its first strategy, for native controls, is
    modelled in full; [others] stands for the strategies after it
    (content-editable, rich editors, the active element). *)
Definition typeIntoElement (p : Platform)
    (others : Field -> string -> TypeOutcome * Field)
    (element : Field) (text : string) : TypeOutcome * Field :=
  let tag := toLowerCase (tagName element) in
  if String.eqb tag "input" || String.eqb tag "textarea"
     || String.eqb tag "select"
  then
    let '(ok, el) := setValueReactSafe p element text in
    ({| ok := ok; mode := tag |}, el)
  else others element text.

Definition isEditableElement (el : Field) : bool :=
  let tag := toLowerCase (tagName el) in
  String.eqb tag "input" || String.eqb tag "textarea" || isContentEditable el
  || String.eqb (toLowerCase (role el)) "textbox".

(** The [type] case of [executeAction]: the success flag and the target
    after the action. [element] is the resolved target, [active] is
    [document.activeElement], [actionValue] is [action.value] when it is
    a string. *)
Definition executeType (p : Platform)
    (others : Field -> string -> TypeOutcome * Field)
    (element active : option Field) (actionValue : option string)
    : bool * option Field :=
  let target :=
    match element with
    | Some e => Some e
    | None =>
        match active with
        | Some a => if isEditableElement a then Some a else None
        | None => None
        end
    end in
  match target with
  | None => (false, None)
  | Some element =>
      let value := match actionValue with
                   | Some v => v
                   | None => EmptyString
                   end in
      let hasAutocomplete :=
        hasAutocompleteAttr element
        || String.eqb (role element) "combobox"
        || String.eqb (role element) "searchbox" in
      let element :=
        if hasAutocomplete then
          let element := record [Sleep 100] (focusElement element) in
          if String.eqb (ariaExpanded element) "false"
          then record [Click; Sleep 150] element
          else element
        else element in
      let element := focusElement element in
      let '(outcome, element) := typeIntoElement p others element value in
      let element :=
        if hasAutocomplete && ok outcome
        then record [Sleep 200] element else element in
      (ok outcome, Some element)
  end.

(** The [type] case of the earlier [executeAction], which calls
    [setElementValue]. The outer [None] is a thrown exception. *)
Definition executeTypeBasic (p : Platform)
    (element active : option Field) (actionValue : option string)
    : option (bool * option Field) :=
  let target :=
    match element with
    | Some e => Some e
    | None =>
        match active with
        | Some a =>
            let tag := toLowerCase (tagName a) in
            if String.eqb tag "input" || String.eqb tag "textarea"
               || isContentEditable a
            then Some a else None
        | None => None
        end
    end in
  match target with
  | None => Some (false, None)
  | Some element =>
      let value := match actionValue with
                   | Some v => v
                   | None => EmptyString
                   end in
      match setElementValue p (focusElement element) value with
      | Some el => Some (true, Some el)
      | None => None
      end
  end.

(** Number of dispatches of one event type among some calls. *)
Definition dispatched (type : string) (c : list DomCall) : nat :=
  length (List.filter (fun call =>
            match call with
            | DispatchEvent t => String.eqb t type
            | _ => false
            end) c).

(** *** Resolution with retry *)



Section Retry.
Context {W : Type} `{RetryWorld W}.




End Retry.










(** *** Navigation and the reply to EXECUTE_ACTION *)

(** What [executeAction] returns, as far as the reply depends on it. *)
Record ActionResult := mkActionResult {
  resSuccess : option bool;
  resError : option string;
  resMessage : option string;
  resNavigationPending : bool;
  resTargetUrl : option string;
}.

Definition alpha (c : ascii) : bool :=
  let n := nat_of_ascii c in
  ((97 <=? n) && (n <=? 122) || (65 <=? n) && (n <=? 90))%nat.

Definition schemeChar (c : ascii) : bool :=
  let n := nat_of_ascii c in
  alpha c || ((48 <=? n) && (n <=? 57) || (n =? 43) || (n =? 46)
              || (n =? 45))%nat.

Fixpoint schemeTail (s : string) : bool :=
  match s with
  | EmptyString => false
  | String c r =>
      if (nat_of_ascii c =? 58)%nat then true
      else if schemeChar c then schemeTail r else false
  end.

(** [/^[a-zA-Z][a-zA-Z0-9+.-]*:/.test(s)] *)
Definition hasScheme (s : string) : bool :=
  match s with
  | EmptyString => false
  | String c r => alpha c && schemeTail r
  end.

(** [navigateToUrl]; [parseUrl] is [new URL(candidate, base).href], which
    throws ([None]) on an invalid address. The navigation itself is only
    scheduled. *)
Definition navigateToUrl (parseUrl : string -> option string)
    (actionValue actionUrl actionTargetUrl : string) : ActionResult :=
  let rawValue :=
    trim (orElse actionValue (orElse actionUrl actionTargetUrl)) in
  if negb (truthy rawValue) then
    {| resSuccess := Some false;
       resError := Some "No URL provided for navigation";
       resMessage := None; resNavigationPending := false;
       resTargetUrl := None |}
  else
    let candidate :=
      if negb (hasScheme rawValue) then "https://" ++ rawValue
      else rawValue in
    match parseUrl candidate with
    | None =>
        {| resSuccess := Some false;
           resError := Some ("Invalid URL: " ++ rawValue);
           resMessage := None; resNavigationPending := false;
           resTargetUrl := None |}
    | Some targetUrl =>
        {| resSuccess := Some true; resError := None;
           resMessage := Some ("Navigating to " ++ targetUrl);
           resNavigationPending := true;
           resTargetUrl := Some targetUrl |}
    end.

(** The reply sent back for EXECUTE_ACTION. *)
Record Response := mkResponse {
  success : option bool;
  error : option string;
  message : option string;
  navigated : bool;
  url : string;
  target_url : option string;
  targetUrl : option string;
  errors : list string;
  successes : list string;
  new_dom : option Extractor.Snapshot;
  navigationPending : bool;
}.

(** The page when the action has run: whether the address changed, the
    banners found, what [captureDOM()] would give, and the address. *)
Record PageAfter := mkPageAfter {
  hasNavigated : bool;
  detectedErrors : list string;
  detectedSuccesses : list string;
  capture : Registry.Query Extractor.Snapshot;
  locationHref : string;
}.

Definition errorReply (m : string) (page : PageAfter) : Response :=
  {| success := Some false; error := Some m; message := None;
     navigated := false; url := locationHref page; target_url := None;
     targetUrl := None; errors := []; successes := [];
     new_dom := match capture page with
                | Registry.Ok snap => Some snap
                | Registry.Throws _ => None
                end;
     navigationPending := false |}.

(** [handleExecuteAction], after [executeAction] has settled: the reply
    and the number of [captureDOM()] calls made for it. *)
Definition handleExecuteAction (executed : Registry.Query ActionResult)
    (page : PageAfter) : Response * nat :=
  match executed with
  | Registry.Throws m => (errorReply m page, 1)
  | Registry.Ok result =>
      let navigated := hasNavigated page || resNavigationPending result in
      let reply (newDomData : option Extractor.Snapshot) :=
        {| success := resSuccess result; error := resError result;
           message := resMessage result; navigated := navigated;
           url := locationHref page; target_url := resTargetUrl result;
           targetUrl := resTargetUrl result;
           errors := detectedErrors page;
           successes := detectedSuccesses page;
           new_dom := newDomData;
           navigationPending := resNavigationPending result |} in
      if negb (resNavigationPending result) then
        match capture page with
        | Registry.Ok snap => (reply (Some snap), 1)
        | Registry.Throws m => (errorReply m page, 2)
        end
      else (reply None, 0)
  end.

End Executor.

(* ===================================================================== *)
(** ** The side panel: startAutomationLoop and handleStop *)
(* ===================================================================== *)

(** The loop is asynchronous: between two of its [await]s the page of the
    side panel runs other handlers, the click handler of the stop button
    among them. The model gives every awaited operation one settle point
    at which a click may be delivered to [handleStop]. Writes to the
    history panel and to the status line are left out. *)
Module Orchestrator.
Import Text.
Export Executor(Response, success, error, message, navigated, url,
                target_url, targetUrl, errors, successes, new_dom,
                navigationPending).

Abbreviation Snapshot := Extractor.Snapshot.

Record Action := mkAction {
  actType : option string;        (* action.type *)
  target_uid : option string;
  actValue : option string;
  reasoning : option string;
}.

Record ActionPlan := mkPlan {
  complete : bool;
  reason : option string;
  confidence : option Q;
  next_action : option Action;
}.

(** What [requestNextAction] settles to: a thrown error, or the reply
    with its [action_plan], which may be missing. *)
Inductive PlanReply :=
  | PlanThrows (m : string)
  | PlanOk (action_plan : option ActionPlan).

(** What [captureDOMFromPage] settles to. *)
Inductive CaptureReply :=
  | CaptureThrows (m : string)
  | CaptureUndefined
  | Captured (ok : bool) (data : option Snapshot) (err : option string).

(** What [executeActionOnPage] settles to. *)
Inductive ExecReply :=
  | ExecThrows (m : string)
  | ExecUndefined
  | Executed (r : Response).

(** [buildActionResultForBackend] *)
Record BackendResult := mkBackendResult {
  br_success : bool;
  br_action : option string;
  br_target_uid : option string;
  br_value : option string;
  br_reasoning : option string;
  br_error : option string;
  br_message : option string;
  br_navigated : bool;
  br_url : option string;
  br_errors : list string;
  br_successes : list string;
  br_navigation_pending : bool;
}.

Inductive Status := StatusSuccess | StatusStopped | StatusError.

Record Outcome := mkOutcome {
  status : Status;
  outcomeMessage : string;
  outcomeConfidence : option Q;
}.

(** The operations the loop awaits, as they appear in a run. *)
Inductive Effect :=
  | Delay (ms : Z)
  | CaptureDOMFromPage
  | RequestNextAction (dom : Snapshot) (previous : option BackendResult)
  | ExecuteActionOnPage (a : Action)
  | FinalizeExecution (o : Outcome).

(** Everything outside the loop: the k-th reply of each collaborator and
    whether the stop button is clicked while the k-th await is pending. *)
Record World := mkWorld {
  planner : nat -> PlanReply;
  capturer : nat -> CaptureReply;
  executor : nat -> ExecReply;
  stopClicked : nat -> bool;
}.

(** The [state] object of the side panel and the bookkeeping of a run. *)
Record Machine := mkMachine {
  isExecuting : bool;
  stopRequested : bool;
  awaits : nat;
  captureCalls : nat;
  planCalls : nat;
  execCalls : nat;
  effects : list Effect;
}.

Definition handleStop (m : Machine) : Machine :=
  if negb (isExecuting m) || stopRequested m then m
  else {| isExecuting := isExecuting m; stopRequested := true;
          awaits := awaits m; captureCalls := captureCalls m;
          planCalls := planCalls m; execCalls := execCalls m;
          effects := effects m |}.

(** [resetUI] *)
Definition resetUI (m : Machine) : Machine :=
  {| isExecuting := false; stopRequested := false;
     awaits := awaits m; captureCalls := captureCalls m;
     planCalls := planCalls m; execCalls := execCalls m;
     effects := effects m |}.

Definition M (A : Type) : Type := World -> Machine -> A * Machine.

Definition ret {A} (a : A) : M A := fun _ m => (a, m).

Definition bind {A B} (c : M A) (k : A -> M B) : M B :=
  fun w m => let '(a, m1) := c w m in k a w m1.

Notation "x <- c ;; k" := (bind c (fun x => k))
  (at level 100, c at next level, right associativity).
Notation "c ;;; k" := (bind c (fun _ => k))
  (at level 100, right associativity).

(** A click on the stop button, if there is one, runs [handleStop]. *)
Definition deliverClick (clicked : bool) (m : Machine) : Machine :=
  if clicked then handleStop m else m.

(** One await: the effect is issued, and while it is pending a click on
    the stop button may be delivered. *)
Definition await (e : Effect) (step : Machine -> Machine) : M unit :=
  fun w m =>
    let m1 := step m in
    let m2 := {| isExecuting := isExecuting m1;
                 stopRequested := stopRequested m1;
                 awaits := awaits m1 + 1; captureCalls := captureCalls m1;
                 planCalls := planCalls m1; execCalls := execCalls m1;
                 effects := (effects m1 ++ [e])%list |} in
    (tt, deliverClick (stopClicked w (awaits m1)) m2).

Definition delay (ms : Z) : M unit := await (Delay ms) (fun m => m).

Definition captureDOMFromPage : M CaptureReply :=
  fun w m =>
    let reply := capturer w (captureCalls m) in
    let '(_, m1) :=
      await CaptureDOMFromPage
        (fun m => {| isExecuting := isExecuting m;
                     stopRequested := stopRequested m; awaits := awaits m;
                     captureCalls := captureCalls m + 1;
                     planCalls := planCalls m; execCalls := execCalls m;
                     effects := effects m |}) w m in
    (reply, m1).

Definition requestNextAction (dom : Snapshot)
    (previous : option BackendResult) : M PlanReply :=
  fun w m =>
    let reply := planner w (planCalls m) in
    let '(_, m1) :=
      await (RequestNextAction dom previous)
        (fun m => {| isExecuting := isExecuting m;
                     stopRequested := stopRequested m; awaits := awaits m;
                     captureCalls := captureCalls m;
                     planCalls := planCalls m + 1; execCalls := execCalls m;
                     effects := effects m |}) w m in
    (reply, m1).

Definition executeActionOnPage (a : Action) : M ExecReply :=
  fun w m =>
    let reply := executor w (execCalls m) in
    let '(_, m1) :=
      await (ExecuteActionOnPage a)
        (fun m => {| isExecuting := isExecuting m;
                     stopRequested := stopRequested m; awaits := awaits m;
                     captureCalls := captureCalls m;
                     planCalls := planCalls m; execCalls := execCalls m + 1;
                     effects := effects m |}) w m in
    (reply, m1).

Definition readStopRequested : M bool := fun _ m => (stopRequested m, m).

(** [a || b] where an absent or empty string is falsy. *)
Definition orString (a : option string) (b : option string)
    : option string :=
  match a with
  | Some v => if truthy v then Some v else b
  | None => b
  end.

Definition orDefault (a : option string) (d : string) : string :=
  match a with
  | Some v => if truthy v then v else d
  | None => d
  end.

Definition buildActionResultForBackend (action : Action)
    (executionResult : Response) : BackendResult :=
  {| br_success := match success executionResult with
                   | Some b => b
                   | None => false
                   end;
     br_action := actType action;
     br_target_uid := orString (target_uid action) None;
     br_value := actValue action;
     br_reasoning := reasoning action;
     br_error := error executionResult;
     br_message := message executionResult;
     br_navigated := navigated executionResult;
     br_url := orString (Some (url executionResult))
                 (orString (target_url executionResult)
                    (orString (targetUrl executionResult) None));
     br_errors := errors executionResult;
     br_successes := successes executionResult;
     br_navigation_pending := navigationPending executionResult |}.

Definition transientPatterns : list string :=
  ["element not found"; "failed to fetch"; "network"; "timeout";
   "detached"; "stale"; "not clickable"; "intercepted"].

Definition isTransient (executionResult : Response) : bool :=
  let errMsg :=
    toLowerCase (orDefault (orString (error executionResult)
                                     (message executionResult))
                           EmptyString) in
  existsb (fun p => includes errMsg p) transientPatterns.

Definition maxIterations : nat := 20.
Definition maxCaptureAttempts : nat := 3.

Definition stopped : Outcome :=
  {| status := StatusStopped; outcomeMessage := "Execution stopped by user";
     outcomeConfidence := None |}.

Definition failed (m : string) : Outcome :=
  {| status := StatusError; outcomeMessage := m; outcomeConfidence := None |}.

Definition iterationLimit : Outcome :=
  failed "Reached iteration limit without completing the task".

(** The variables of [startAutomationLoop]. *)
Record LoopVars := mkVars {
  currentDom : option Snapshot;
  previousResultForBackend : option BackendResult;
  iteration : nat;
}.

(** How one pass through the body of the [while] ends. *)
Inductive PassEnd :=
  | Break (o : Outcome)
  | NextPass (v : LoopVars)       (* [continue], or the end of the body *)
  | Throw (m : string).           (* an exception leaving the function *)

(** The [while] of the post-navigation capture. [remaining] counts the
    attempts left, [captureAttempt] is the loop variable. *)
Fixpoint captureAfterNavigation (remaining captureAttempt : nat)
    : M (option Snapshot) :=
  match remaining with
  | O => ret None
  | S remaining' =>
      let captureAttempt := captureAttempt + 1 in
      (if (1 <? captureAttempt)%nat
       then delay (800 * (Z.of_nat captureAttempt - 1))
       else ret tt) ;;;
      result <- captureDOMFromPage ;;
      match result with
      | Captured true (Some data) _ =>
          if (0 <? length (Extractor.elements data))%nat
          then ret (Some data)
          else captureAfterNavigation remaining' captureAttempt
      | _ => captureAfterNavigation remaining' captureAttempt
      end
  end.

(** The [if (executionResult.navigated)] branch: the new [currentDom]. *)
Definition recoverFromNavigation : M (option Snapshot) :=
  delay 2500 ;;;
  captureAfterNavigation maxCaptureAttempts 0.

(** [if (!currentDom) { ... }] at the top of the body. *)
Definition ensureDom (current : option Snapshot) : M (string + Snapshot) :=
  match current with
  | Some dom => ret (inr dom)
  | None =>
      delay 1000 ;;;
      domCapture <- captureDOMFromPage ;;
      ret match domCapture with
          | Captured true (Some data) _ => inr data
          | Captured _ _ err =>
              inl ("Unable to capture DOM: "
                   ++ orDefault err "Empty DOM snapshot returned")
          | CaptureUndefined =>
              inl "Unable to capture DOM: Empty DOM snapshot returned"
          | CaptureThrows m => inl ("Unable to capture DOM: " ++ m)
          end
  end.

(** The branch for a reply with a falsy [success]. *)
Definition afterFailure (v : LoopVars) (previous : option BackendResult)
    (executionResult : Response) : M PassEnd :=
  let giveUp :=
    Break (failed (orDefault (orString (error executionResult)
                                       (message executionResult))
                             "Action execution failed")) in
  if isTransient executionResult then
    match new_dom executionResult with
    | Some dom =>
        delay 150 ;;;
        ret (NextPass {| currentDom := Some dom;
                         previousResultForBackend := previous;
                         iteration := iteration v |})
    | None =>
        delay 1000 ;;;
        domCapture <- captureDOMFromPage ;;
        match domCapture with
        | Captured true (Some data) _ =>
            delay 150 ;;;
            ret (NextPass {| currentDom := Some data;
                             previousResultForBackend := previous;
                             iteration := iteration v |})
        | _ => ret giveUp
        end
    end
  else ret giveUp.

(** The rest of the body after a reply with a truthy [success]. *)
Definition afterSuccess (v : LoopVars) (previous : option BackendResult)
    (executionResult : Response) : M PassEnd :=
  dom <- (if navigated executionResult
          then recoverFromNavigation
          else ret (new_dom executionResult)) ;;
  stop <- readStopRequested ;;
  (if negb stop then delay 250 else ret tt) ;;;
  ret (NextPass {| currentDom := dom; previousResultForBackend := previous;
                   iteration := iteration v + 1 |}).

(** The body of the [while] once [currentDom] holds a snapshot: the
    planner call, the action, and what follows it. *)
Definition planAndExecute (v : LoopVars) (dom : Snapshot) : M PassEnd :=
  actionPlanData <- requestNextAction dom (previousResultForBackend v) ;;
  match actionPlanData with
  | PlanThrows m => ret (Break (failed m))
  | PlanOk None =>
      ret (Break (failed "Backend returned an empty action plan"))
  | PlanOk (Some actionPlan) =>
      if complete actionPlan then
        ret (Break {| status := StatusSuccess;
                      outcomeMessage :=
                        orDefault (reason actionPlan) "Goal achieved";
                      outcomeConfidence := confidence actionPlan |})
      else
        match next_action actionPlan with
        | None =>
            ret (Break (failed "Backend did not provide a next action"))
        | Some action =>
            match actType action with
            | None => ret (Throw "Cannot read properties of undefined")
            | Some _ =>
                executionResult <- executeActionOnPage action ;;
                match executionResult with
                | ExecThrows m => ret (Break (failed m))
                | ExecUndefined =>
                    ret (Break (failed
                      "Content script returned an unexpected response"))
                | Executed r =>
                    match success r with
                    | None =>
                        ret (Break (failed
                          "Content script returned an unexpected response"))
                    | Some ok =>
                        let v1 :=
                          {| currentDom := Some dom;
                             previousResultForBackend :=
                               previousResultForBackend v;
                             iteration := iteration v |} in
                        let previous :=
                          Some (buildActionResultForBackend action r) in
                        if ok then afterSuccess v1 previous r
                        else afterFailure v1 previous r
                    end
                end
            end
        end
  end.

(** The body of the [while], from the check of the stop flag on. *)
Definition loopPass (v : LoopVars) : M PassEnd :=
  stop <- readStopRequested ;;
  if stop then ret (Break stopped)
  else
    ensured <- ensureDom (currentDom v) ;;
    match ensured with
    | inl m => ret (Break (failed m))
    | inr dom => planAndExecute v dom
    end.

(** How a run of the loop ends. *)
Inductive LoopEnd :=
  | Finished (o : Outcome)
  | Threw (m : string).

(** The [while] loop; [fuel] bounds the number of passes the model
    follows, [None] meaning that the loop was still running. *)
Fixpoint whileLoop (fuel : nat) (v : LoopVars) : M (option LoopEnd) :=
  match fuel with
  | O => ret None
  | S fuel' =>
      if (iteration v <? maxIterations)%nat then
        pass <- loopPass v ;;
        match pass with
        | Break o => ret (Some (Finished o))
        | Throw m => ret (Some (Threw m))
        | NextPass v' => whileLoop fuel' v'
        end
      else ret (Some (Finished iterationLimit))
  end.

(** [finalizeExecution] *)
Definition finalizeExecution (o : Outcome) : M unit :=
  fun w m =>
    let '(_, m1) := await (FinalizeExecution o) (fun m => m) w m in
    (tt, resetUI m1).

Definition startAutomationLoop (fuel : nat) (initialDomData : Snapshot)
    : M (option LoopEnd) :=
  ended <- whileLoop fuel {| currentDom := Some initialDomData;
                            previousResultForBackend := None;
                            iteration := 0 |} ;;
  match ended with
  | Some (Finished o) => finalizeExecution o ;;; ret ended
  | _ => ret ended
  end.

(** The machine as [handleExecute] leaves it when the loop starts. *)
Definition started : Machine :=
  {| isExecuting := true; stopRequested := false; awaits := 0;
     captureCalls := 0; planCalls := 0; execCalls := 0; effects := [] |}.

End Orchestrator.

Module OrchestratorSpec.
Import Text Orchestrator.

(** A capture the post-navigation loop accepts: successful, with data
    and at least one element. *)
Definition usable (c : CaptureReply) : option Snapshot :=
  match c with
  | Captured true (Some data) _ =>
      if (0 <? length (Extractor.elements data))%nat then Some data
      else None
  | _ => None
  end.

(** What the recovery after a navigation is to do, given the three
    captures it may look at: the snapshot it settles on and the
    operations it awaits. *)
Definition expectedRecovery (first second third : option Snapshot)
    : option Snapshot * list Effect :=
  match first, second, third with
  | Some d, _, _ => (Some d, [Delay 2500; CaptureDOMFromPage])
  | None, Some d, _ =>
      (Some d, [Delay 2500; CaptureDOMFromPage;
                Delay 800; CaptureDOMFromPage])
  | None, None, third =>
      (third, [Delay 2500; CaptureDOMFromPage;
               Delay 800; CaptureDOMFromPage;
               Delay 1600; CaptureDOMFromPage])
  end.

(** The same world with the stop button never clicked. *)
Definition silence (w : World) : World :=
  {| planner := planner w; capturer := capturer w; executor := executor w;
     stopClicked := fun _ => false |}.

(** [m2] is [m1] as it would be had no click been delivered. *)
Definition shadows (m2 m1 : Machine) : Prop :=
  isExecuting m2 = isExecuting m1 /\ awaits m2 = awaits m1
  /\ captureCalls m2 = captureCalls m1 /\ planCalls m2 = planCalls m1
  /\ execCalls m2 = execCalls m1 /\ effects m2 = effects m1
  /\ stopRequested m2 = false.

(** As [shadows], except that the run with the click may have skipped
    the closing pause of 250 ms. *)
Definition shadowsUpToPause (m2 m1 : Machine) : Prop :=
  captureCalls m2 = captureCalls m1 /\ planCalls m2 = planCalls m1
  /\ execCalls m2 = execCalls m1
  /\ (effects m2 = effects m1
      \/ (stopRequested m1 = true
          /\ effects m2 = (effects m1 ++ [Delay 250])%list)).

(** [m'] is [m] after the effects [es], of which [captures] are
    captures and none is a planner or executor call. *)
Definition grows (m m' : Machine) (es : list Effect) (captures : nat)
    : Prop :=
  effects m' = (effects m ++ es)%list
  /\ captureCalls m' = captureCalls m + captures
  /\ planCalls m' = planCalls m /\ execCalls m' = execCalls m
  /\ isExecuting m' = isExecuting m
  /\ awaits m' = awaits m + length es.

(** A computation that leaves [isExecuting] alone, only moves the await
    counter forward, never lowers the stop flag, leaves it as it is when
    no click arrives meanwhile, and raises it when one does. *)
Definition orderly {A} (c : M A) : Prop :=
  forall w m,
    isExecuting (c w m).2 = isExecuting m
    /\ awaits m <= awaits (c w m).2
    /\ (stopRequested m = true -> stopRequested (c w m).2 = true)
    /\ ((forall k, awaits m <= k < awaits (c w m).2 ->
                   stopClicked w k = false) ->
        stopRequested (c w m).2 = stopRequested m)
    /\ (isExecuting m = true ->
        forall k, awaits m <= k < awaits (c w m).2 ->
                  stopClicked w k = true ->
        stopRequested (c w m).2 = true).

(** A computation that calls neither the planner nor the executor. *)
Definition callFree {A} (c : M A) : Prop :=
  forall w m,
    planCalls (c w m).2 = planCalls m /\ execCalls (c w m).2 = execCalls m.

(** A computation that does the same with and without clicks. *)
Definition coupledBy {A} (R : Machine -> Machine -> Prop) (c : M A)
    : Prop :=
  forall w m1 m2, shadows m2 m1 ->
    (c (silence w) m2).1 = (c w m1).1
    /\ R (c (silence w) m2).2 (c w m1).2.

(** Whether the k-th action executed successfully, and how many of the
    first [n] did. *)
Definition succeeded (w : World) (k : nat) : nat :=
  match executor w k with
  | Executed r => match success r with Some true => 1 | _ => 0 end
  | _ => 0
  end.

Fixpoint successesBefore (w : World) (n : nat) : nat :=
  match n with
  | O => 0
  | S k => successesBefore w k + succeeded w k
  end.

(** A planner that never signals completion. *)
Definition neverCompletes (w : World) : Prop :=
  forall k, match planner w k with
            | PlanOk (Some plan) => complete plan = false
            | _ => True
            end.

(** A planner that always asks for one more action. *)
Definition alwaysActs (w : World) : Prop :=
  forall k, exists plan action t,
    planner w k = PlanOk (Some plan) /\ complete plan = false
    /\ next_action plan = Some action /\ actType action = Some t.

Definition alwaysSucceeds (w : World) : Prop :=
  forall k, exists r, executor w k = Executed r /\ success r = Some true.

Definition alwaysCaptures (w : World) : Prop :=
  forall k, exists data e, capturer w k = Captured true (Some data) e.

Definition neverStopped (w : World) : Prop :=
  forall k, stopClicked w k = false.

(** *** Sample runs *)

Definition emptySnapshot : Snapshot :=
  {| Extractor.url := "https://shop.example/";
     Extractor.snapTitle := "Home"; Extractor.snapTimestamp := 0;
     Extractor.elements := [] |}.

Definition oneElement : Snapshot :=
  {| Extractor.url := "https://shop.example/";
     Extractor.snapTitle := "Home"; Extractor.snapTimestamp := 0;
     Extractor.elements :=
       [{| Extractor.uid := "elem_id_buy"; Extractor.tag := "button";
           Extractor.text := "Buy"; Extractor.attributes := [("id", "buy")];
           Extractor.recTabIndex := 0; Extractor.source := 1 |}] |}.

Definition clickBuy : Action :=
  {| actType := Some "click"; target_uid := Some "elem_id_buy";
     actValue := None; reasoning := None |}.

Definition keepGoing : ActionPlan :=
  {| complete := false; reason := None; confidence := None;
     next_action := Some clickBuy |}.

Definition done : ActionPlan :=
  {| complete := true; reason := Some "Order placed"; confidence := None;
     next_action := None |}.

Definition reply (ok : bool) (err : option string)
    (dom : option Snapshot) : Response :=
  {| success := Some ok; error := err;
     message := if ok then Some "Clicked element" else None;
     navigated := false; url := "https://shop.example/";
     target_url := None; targetUrl := None; errors := []; successes := [];
     new_dom := dom; navigationPending := false |}.

Definition tickBuy : Action :=
  {| actType := Some "check"; target_uid := Some "elem_id_buy";
     actValue := None; reasoning := None |}.

(** The planner never completes: it asks to tick what is a button, and
    the page rejects that. *)
Definition rejectingWorld : World :=
  {| planner := fun _ =>
       PlanOk (Some {| complete := false; reason := None;
                       confidence := None; next_action := Some tickBuy |});
     capturer := fun _ => Captured true (Some oneElement) None;
     executor := fun _ =>
       Executed (reply false (Some "Target is not a checkbox")
                       (Some oneElement));
     stopClicked := fun _ => false |}.

(** The planner never completes and no action finds its target, each
    failure carrying a fresh snapshot. *)
Definition staleWorld : World :=
  {| planner := fun _ => PlanOk (Some keepGoing);
     capturer := fun _ => Captured true (Some oneElement) None;
     executor := fun _ =>
       Executed (reply false (Some "Element not found for UID elem_id_buy")
                       (Some oneElement));
     stopClicked := fun _ => false |}.

(** Stop is clicked while the first planner call is pending, and the
    planner answers that the goal is reached. *)
Definition stopThenDone : World :=
  {| planner := fun _ => PlanOk (Some done);
     capturer := fun _ => Captured true (Some oneElement) None;
     executor := fun _ => Executed (reply true None (Some oneElement));
     stopClicked := fun k => (k =? 0)%nat |}.

(** Every action succeeds; stop is clicked during one given await. *)
Definition stopDuring (n : nat) : World :=
  {| planner := fun _ => PlanOk (Some keepGoing);
     capturer := fun _ => Captured true (Some oneElement) None;
     executor := fun _ => Executed (reply true None (Some oneElement));
     stopClicked := fun k => (k =? n)%nat |}.

(** The reply to [navigate] with the value shop.example, sent from a
    blank tab. *)
Definition pendingReply : Response :=
  (Executor.handleExecuteAction
     (Registry.Ok (Executor.navigateToUrl Some "shop.example"
                     EmptyString EmptyString))
     {| Executor.hasNavigated := false; Executor.detectedErrors := [];
        Executor.detectedSuccesses := [];
        Executor.capture := Registry.Ok emptySnapshot;
        Executor.locationHref := "about:blank" |}).1.

Definition fifthPass : LoopVars :=
  {| currentDom := None; previousResultForBackend := None; iteration := 4 |}.

Definition firstPass : LoopVars :=
  {| currentDom := Some oneElement; previousResultForBackend := None;
     iteration := 0 |}.

Definition secondPass : LoopVars :=
  {| currentDom := Some oneElement;
     previousResultForBackend :=
       Some (buildActionResultForBackend clickBuy
               (reply true None (Some oneElement)));
     iteration := 1 |}.

(** A navigation whose first two captures come back empty. *)
Definition slowPage : World :=
  {| planner := fun _ => PlanOk (Some keepGoing);
     capturer := fun k =>
       if (k <? 2)%nat then Captured true (Some emptySnapshot) None
       else Captured true (Some oneElement) None;
     executor := fun _ => Executed (reply true None None);
     stopClicked := fun _ => false |}.

End OrchestratorSpec.

Module ExecutorSpec.
Import Text Executor.

(** The matching of [select] read as three successive tiers: by value,
    then by trimmed text, then by case-insensitive containment. *)
Definition selectInThreeTiers (opts : list OptionEl) (request : string)
    : option OptionEl :=
  let value := trim request in
  match firstOption (fun o => String.eqb (optValue o) value) opts with
  | Some o => Some o
  | None =>
      match firstOption (fun o => String.eqb (trim (optText o)) value)
                        opts with
      | Some o => Some o
      | None =>
          firstOption (fun o => includes (toLowerCase (optText o))
                                         (toLowerCase value)) opts
      end
  end.

(** The two tests of [selectOption]. *)
Definition exactly (value : string) (o : OptionEl) : bool :=
  String.eqb (optValue o) value || String.eqb (trim (optText o)) value.

Definition loosely (value : string) (o : OptionEl) : bool :=
  includes (toLowerCase (optText o)) (toLowerCase value).

Definition requested (valueOrText : option string) : string :=
  trim (match valueOrText with Some v => v | None => EmptyString end).

(** *** Sample controls *)

Definition newYork : OptionEl := {| optValue := "ny"; optText := "New York" |}.
Definition ny : OptionEl := {| optValue := "ny2"; optText := "NY" |}.

Definition citySelect : SelectEl :=
  {| selTagName := "SELECT"; options := [newYork; ny];
     selectedValue := "ny"; selCalls := [] |}.

(** A quantity control whose option values are stock codes. *)
Definition five : OptionEl := {| optValue := "10"; optText := "5" |}.
Definition one : OptionEl := {| optValue := "5"; optText := "1" |}.

Definition quantitySelect : SelectEl :=
  {| selTagName := "SELECT"; options := [five; one];
     selectedValue := "10"; selCalls := [] |}.

Definition textInput : Field :=
  {| tagName := "INPUT"; inputType := "text"; isContentEditable := false;
     role := EmptyString; hasAutocompleteAttr := false;
     ariaExpanded := EmptyString; value := "old"; innerText := EmptyString;
     calls := [] |}.

(** No strategy after the first applies. *)
Definition noOthers (f : Field) (_ : string) : TypeOutcome * Field :=
  ({| ok := false; mode := "none" |}, f).





End ExecutorSpec.

(* ===================================================================== *)
(** ** Sample pages and locators for the registry *)
(* ===================================================================== *)

Module RegistryCases.
Import Text Registry.

(** A page whose first button has no text at all, before the one that is
    looked for. *)
Definition iconButton : Element :=
  {| node := 4; isConnected := true; display := "inline-block";
     visibility := "visible"; textContent := EmptyString |}.

Definition saveButton : Element :=
  {| node := 5; isConnected := true; display := "inline-block";
     visibility := "visible"; textContent := "Save changes" |}.

Definition toolbarPage : Document :=
  {| querySelector := fun _ => Ok None;
     querySelectorAll := fun s =>
       if String.eqb s "button" then Ok [iconButton; saveButton] else Ok [];
     evaluate := fun _ => Ok None |}.

Definition someSelectors : Selectors :=
  {| sel_selector := "#go"; sel_xpath := "//*[@id=go]";
     sel_attributes := [("id", "go")]; sel_text := "Go";
     sel_tag := "button" |}.

End RegistryCases.

(* ===================================================================== *)
(** ** Predicates on tokens and the unwrapped hash *)
(* ===================================================================== *)

Module ExtractorProps.
Import Text Extractor.

(** Every character of a string passes a test. *)
Fixpoint allChars (p : ascii -> bool) (s : string) : bool :=
  match s with
  | EmptyString => true
  | String c r => p c && allChars p r
  end.

(** The hash of [simpleHash] without the conversion to 32 bits after
    each character: the polynomial with multiplier 31. *)
Fixpoint polynomial31 (hash : Z) (str : string) : Z :=
  match str with
  | EmptyString => hash
  | String c r => polynomial31 (31 * hash + Z.of_nat (nat_of_ascii c)) r
  end.

End ExtractorProps.

(* ===================================================================== *)
(** ** dom-extractor.js: the registry of run-time listeners *)
(* ===================================================================== *)

Module Listeners.

(** [registry.list], a Set of elements, as the list of its members in
    insertion order. *)
Definition ListenerSet := list nat.

(** [set.add(x)] *)
Definition add (x : nat) (set : ListenerSet) : ListenerSet :=
  if existsb (Nat.eqb x) set then set else (set ++ [x])%list.

Definition capacity : nat := 2000.
Definition compaction : nat := 500.

(** What the patched [addEventListener] does to [registry.list] when it
    is called on [target]; [isElement] says that the target's nodeType
    is 1. The loop deletes the first 500 members of the iteration. *)
Definition addEventListener (isElement : bool) (target : nat)
    (list : ListenerSet) : ListenerSet :=
  if isElement then
    let list := add target list in
    if (capacity <? length list)%nat then skipn compaction list else list
  else list.

(** The list after a series of calls, oldest first. *)
Definition after (calls : list (bool * nat)) : ListenerSet :=
  foldl (fun list call => addEventListener call.1 call.2 list) [] calls.

End Listeners.

(* ===================================================================== *)
(** ** dom-extractor.js: queryAllBatched *)
(* ===================================================================== *)

Module Batching.
Import Text Registry.

(** The slices of the [for] loop of [queryAllBatched], from index [i]
    on: [selectors.slice(i, i + batchSize)] while [i] is below the
    length. [fuel] bounds the rounds the model follows; [None] says that
    the loop was still running. *)
Fixpoint slicesFrom (fuel : nat) (selectors : list string)
    (batchSize i : nat) : option (list (list string)) :=
  if (i <? length selectors)%nat then
    match fuel with
    | O => None
    | S fuel' =>
        match slicesFrom fuel' selectors batchSize (i + batchSize) with
        | Some rest => Some (firstn batchSize (skipn i selectors) :: rest)
        | None => None
        end
    end
  else Some [].

(** What one round of the loop adds to [out]: the matches of the joined
    selector, or, when the root rejects it, those of every selector of
    the slice that the root accepts on its own. *)
Definition queryBatch (querySelectorAll : string -> Query (list nat))
    (slice : list string) : list nat :=
  match querySelectorAll (Extractor.join ", " slice) with
  | Ok n => n
  | Throws _ =>
      flat_map (fun sel =>
                  match querySelectorAll sel with
                  | Ok n2 => n2
                  | Throws _ => []
                  end) slice
  end.

Definition queryAllBatched (fuel : nat)
    (querySelectorAll : string -> Query (list nat))
    (selectors : list string) (batchSize : nat) : option (list nat) :=
  match slicesFrom fuel selectors batchSize 0 with
  | Some slices => Some (flat_map (queryBatch querySelectorAll) slices)
  | None => None
  end.

(** A root that rejects any selector list naming the unknown pseudo
    class, and has one button and one link. *)
Definition pickyRoot (selector : string) : Query (list nat) :=
  if includes selector ":unknown" then Throws "SyntaxError"
  else if String.eqb selector "button" then Ok [1]
  else if String.eqb selector "a[href]" then Ok [2]
  else if String.eqb selector "input, select" then Ok []
  else Ok [].

End Batching.

(* ===================================================================== *)
(** ** dom-extractor.js: element types and getDOMStatistics *)
(* ===================================================================== *)

Module Statistics.
Import Text Extractor.

(** [window.innerHeight], [window.innerWidth] and the client size of the
    document element. *)
Record Viewport := mkViewport {
  innerHeight : Q;
  innerWidth : Q;
  docClientHeight : Q;
  docClientWidth : Q;
}.

(** [a || b] on numbers. *)
Definition orNumber (a b : Q) : Q := if Qeq_bool a 0 then b else a.

Definition isInViewport (vp : Viewport) (rect : Rect) : bool :=
  Qle_bool 0 (top rect) && Qle_bool 0 (left rect)
  && Qle_bool (bottom rect) (orNumber (innerHeight vp) (docClientHeight vp))
  && Qle_bool (right rect) (orNumber (innerWidth vp) (docClientWidth vp)).

Definition getElementType (e : Elem) : string :=
  let tag := toLowerCase (tagName e) in
  if String.eqb tag "button" || String.eqb (type e) "button"
     || String.eqb (type e) "submit" then "button"
  else if String.eqb tag "a" then "link"
  else if String.eqb tag "input" then "input_" ++ orElse (type e) "text"
  else if String.eqb tag "select" then "select"
  else if String.eqb tag "textarea" then "textarea"
  else
    match getAttribute (attrs e) "role" with
    | Some role => if truthy role then "role_" ++ role else tag
    | None => tag
    end.

(** The two fields of a serialized element that the statistics read. *)
Record Counted := mkCounted {
  elType : string;
  elIsInViewport : bool;
}.

(** The fields as [serializeElement] fills them. *)
Definition counted (vp : Viewport) (e : Elem) : Counted :=
  {| elType := getElementType e;
     elIsInViewport := isInViewport vp (rect e) |}.

(** A value kept in [stats.byType]: a count, or, under a key that
    names a property of [Object.prototype], a string. *)
Inductive Tally :=
  | Count (n : nat)
  | Text (s : string).

(** [stats]; [byType] holds the own properties of the object, which is
    created as the literal [{}] and so inherits from
    [Object.prototype]. *)
Record DomStatistics := mkStatistics {
  total : nat;
  inViewport : nat;
  byType : gmap string Tally;
}.

Definition objectMethods : list string :=
  ["constructor"; "hasOwnProperty"; "isPrototypeOf";
   "propertyIsEnumerable"; "toLocaleString"; "toString"; "valueOf";
   "__defineGetter__"; "__defineSetter__"; "__lookupGetter__";
   "__lookupSetter__"].

(** What [{}[key]] gives for a key the object does not own, as the
    string that [+ 1] turns it into: the source text of a built-in
    method, and [Object.prototype] itself under [__proto__]. [None]: the
    key is undefined. *)
Definition inherited (key : string) : option string :=
  if String.eqb key "__proto__" then Some "[object Object]"
  else if existsb (String.eqb key) objectMethods
  then Some ("function "
             ++ (if String.eqb key "constructor" then "Object" else key)
             ++ "() { [native code] }")
  else None.

(** [stats.byType[t] = (stats.byType[t] || 0) + 1]. A count is
    incremented; an inherited value is truthy, and [+ 1] appends "1" to
    its string, which becomes an own property, except under
    [__proto__], where assigning a string has no effect. *)
Definition bump (byType : gmap string Tally) (t : string)
    : gmap string Tally :=
  match byType !! t with
  | Some (Count n) => <[t := Count (n + 1)]> byType
  | Some (Text s) =>
      if truthy s then <[t := Text (s ++ "1")]> byType
      else <[t := Count 1]> byType
  | None =>
      match inherited t with
      | None => <[t := Count 1]> byType
      | Some s =>
          if String.eqb t "__proto__" then byType
          else <[t := Text (s ++ "1")]> byType
      end
  end.

Definition getDOMStatistics (elements : list Counted) : DomStatistics :=
  {| total := length elements;
     inViewport := length (List.filter elIsInViewport elements);
     byType := foldl (fun byType el => bump byType (elType el)) ∅ elements |}.

(** Number of elements of one type. *)
Definition ofType (t : string) (elements : list Counted) : nat :=
  length (List.filter (fun el => String.eqb (elType el) t) elements).

(** A string after [n] times [+ 1]. *)
Fixpoint plusOnes (n : nat) (s : string) : string :=
  match n with
  | O => s
  | S n' => plusOnes n' (s ++ "1")
  end.

(** Two elements of the custom tag [constructor], a button, and an
    element whose type is [__proto__]. *)
Definition sampleElements : list Counted :=
  [ {| elType := "constructor"; elIsInViewport := true |};
    {| elType := "button"; elIsInViewport := true |};
    {| elType := "constructor"; elIsInViewport := false |};
    {| elType := "__proto__"; elIsInViewport := true |} ].

End Statistics.

(* ===================================================================== *)
(** ** normalizeText, collectMessages and getAssociatedLabels *)
(* ===================================================================== *)

Module Messages.
Import Text Registry.

(** [normalizeText] *)
Definition normalizeText (value : string) : string :=
  if negb (truthy value) then EmptyString
  else collapseSpaces (trim value).

(** The text of an element as the helpers read it:
    [el.textContent || el.innerText]. *)
Record TextSource := mkTextSource {
  srcTextContent : string;
  srcInnerText : string;
}.

Definition textOf (el : TextSource) : string :=
  normalizeText (orElse (srcTextContent el) (srcInnerText el)).

(** [set.add(x)] on a Set of strings kept in insertion order. *)
Definition setAdd (x : string) (set : list string) : list string :=
  if existsb (String.eqb x) set then set else (set ++ [x])%list.

(** [new Set(values)] *)
Definition setFrom (values : list string) : list string :=
  foldl (fun set x => setAdd x set) [] values.

(** The inner [forEach] of [collectMessages]. *)
Definition addMessages (messages : list string) (found : list TextSource)
    : list string :=
  foldl (fun messages element =>
           let text := textOf element in
           if truthy text then setAdd text messages else messages)
        messages found.

(** The outer [forEach]; a selector the document rejects throws. *)
Fixpoint collectFrom (querySelectorAll : string -> Query (list TextSource))
    (selectors : list string) (messages : list string)
    : Query (list string) :=
  match selectors with
  | [] => Ok messages
  | selector :: rest =>
      match querySelectorAll selector with
      | Throws m => Throws m
      | Ok found =>
          collectFrom querySelectorAll rest (addMessages messages found)
      end
  end.

Definition collectMessages
    (querySelectorAll : string -> Query (list TextSource))
    (selectors : list string) : Query (list string) :=
  match collectFrom querySelectorAll selectors [] with
  | Throws m => Throws m
  | Ok messages => Ok (firstn 5 messages)
  end.

Definition detectErrorMessages
    (querySelectorAll : string -> Query (list TextSource))
    : Query (list string) :=
  collectMessages querySelectorAll
    ["[role=" ++ dquote ++ "alert" ++ dquote ++ "]"; ".error";
     ".alert-danger"; ".notification-error"; ".text-danger"].

Definition detectSuccessMessages
    (querySelectorAll : string -> Query (list TextSource))
    : Query (list string) :=
  collectMessages querySelectorAll
    ["[role=" ++ dquote ++ "status" ++ dquote ++ "]"; ".success";
     ".alert-success"; ".notification-success"; ".text-success"].

(** [getAssociatedLabels]: [labels] is [element.labels] when the element
    has that property, [labelFor] the outcome of the query for a label
    whose [for] is the element's id. An exception ends the collection
    with what was gathered before it. *)
Definition getAssociatedLabels (labels : option (list TextSource))
    (id : string) (labelFor : Query (option TextSource)) : list string :=
  let out :=
    match labels with
    | Some ls => List.filter truthy (map textOf ls)
    | None => []
    end in
  let out :=
    if truthy id then
      match labelFor with
      | Ok (Some lbl) =>
          if truthy (textOf lbl) then (out ++ [textOf lbl])%list else out
      | Ok None => out
      | Throws _ => out
      end
    else out in
  firstn 3 (setFrom out).

(** A page with the same alert shown twice and an empty status line. *)
Definition alertBanner : TextSource :=
  {| srcTextContent := "  Card   declined "; srcInnerText := "Card declined" |}.

Definition emptyBanner : TextSource :=
  {| srcTextContent := EmptyString; srcInnerText := EmptyString |}.

Definition bannerPage (selector : string) : Query (list TextSource) :=
  if String.eqb selector ".error" then Ok [alertBanner; emptyBanner]
  else if String.eqb selector ".text-danger" then Ok [alertBanner]
  else Ok [].

End Messages.

(* ===================================================================== *)
(** ** Shapes of a normalized text *)
(* ===================================================================== *)

Module Tidy.
Import Text.

(** Every whitespace character is a single space that follows a
    character other than whitespace; [previous] says that the character
    before the string was whitespace. *)
Fixpoint singleSpaced (previous : bool) (s : string) : bool :=
  match s with
  | EmptyString => true
  | String c r =>
      if isSpace c
      then Ascii.eqb c " "%char && negb previous && singleSpaced true r
      else singleSpaced false r
  end.

Definition noLeadingSpace (s : string) : bool :=
  match s with
  | EmptyString => true
  | String c _ => negb (isSpace c)
  end.

Fixpoint noTrailingSpace (s : string) : bool :=
  match s with
  | EmptyString => true
  | String c EmptyString => negb (isSpace c)
  | String _ r => noTrailingSpace r
  end.

End Tidy.

(* ===================================================================== *)
(** ** content-script.js: the option finders *)
(* ===================================================================== *)

Module Options.
Import Text Registry Messages.

(** An element that one of the option finders considers. *)
Record Candidate := mkCandidate {
  candNode : nat;
  candSource : TextSource;
  dataValue : option string;       (* getAttribute("data-value") *)
  valueAttr : option string;       (* getAttribute("value") *)
  candDisplay : string;
  candVisibility : string;
  candWidth : Q;
  candHeight : Q;
}.

(** [String(valueOrText ?? "").trim()] *)
Definition requestedValue (valueOrText : option string) : string :=
  trim (match valueOrText with Some v => v | None => EmptyString end).

(** The test on [data-value] or [value] that closes both loop bodies. *)
Definition attributeMatches (value : string) (el : Candidate) : bool :=
  let dv := Extractor.firstTruthy [dataValue el; valueAttr el] in
  truthy dv
  && (String.eqb dv value
      || String.eqb (toLowerCase dv) (toLowerCase value)).

(** The body of the loop of [matchInRoot]: whether [el] is returned. *)
Definition dropdownMatch (value : string) (el : Candidate) : bool :=
  let t := textOf (candSource el) in
  if negb (truthy t) then false
  else
    String.eqb t value
    || String.eqb (toLowerCase t) (toLowerCase value)
    || includes (toLowerCase t) (toLowerCase value)
    || attributeMatches value el.

Definition matchInRoot (value : string) (candidates : list Candidate)
    : option Candidate :=
  List.find (dropdownMatch value) candidates.

Fixpoint searchRoots (value : string) (roots : list (list Candidate))
    : option Candidate :=
  match roots with
  | [] => None
  | root :: rest =>
      match matchInRoot value root with
      | Some found => Some found
      | None => searchRoots value rest
      end
  end.

(** [findCustomDropdownOption]: [popups] holds, for every id of the
    trigger's aria-controls that names an element, the candidates found
    below that element, and [documentOptions] those of the document. *)
Definition findCustomDropdownOption (valueOrText : option string)
    (popups : list (list Candidate)) (documentOptions : list Candidate)
    : option Candidate :=
  let value := requestedValue valueOrText in
  let popupRoots :=
    match popups with
    | [] => [documentOptions]
    | _ :: _ => popups
    end in
  searchRoots value popupRoots.

Definition autocompleteSelectors : list string :=
  ["[role=" ++ dquote ++ "option" ++ dquote ++ "]";
   "[role=" ++ dquote ++ "listbox" ++ dquote ++ "] li";
   "[class*=" ++ dquote ++ "autocomplete" ++ dquote ++ "] li";
   "[class*=" ++ dquote ++ "suggestion" ++ dquote ++ "] li";
   "[class*=" ++ dquote ++ "dropdown" ++ dquote ++ "] li";
   "[class*=" ++ dquote ++ "option" ++ dquote ++ "]";
   "ul[role=" ++ dquote ++ "listbox" ++ dquote ++ "] > *";
   ".react-autosuggest__suggestion";
   ".Select-option"].

(** The two visibility tests at the top of the inner loop. *)
Definition shownOption (opt : Candidate) : bool :=
  negb (String.eqb (candDisplay opt) "none"
        || String.eqb (candVisibility opt) "hidden")
  && negb (Qeq_bool (candWidth opt) 0 || Qeq_bool (candHeight opt) 0).

(** The body of the inner loop of [findAutocompleteOption]. *)
Definition autocompleteMatch (value : string) (opt : Candidate) : bool :=
  if negb (shownOption opt) then false
  else
    let text := textOf (candSource opt) in
    if negb (truthy text) then false
    else
      String.eqb text value
      || String.eqb (toLowerCase text) (toLowerCase value)
      || includes (toLowerCase text) (toLowerCase value)
      || includes (toLowerCase value) (toLowerCase text)
      || attributeMatches value opt.

(** The outer loop; a selector that the document rejects is passed
    over. *)
Fixpoint searchSelectors
    (querySelectorAll : string -> Query (list Candidate))
    (value : string) (selectors : list string) : option Candidate :=
  match selectors with
  | [] => None
  | selector :: rest =>
      match querySelectorAll selector with
      | Ok options =>
          match List.find (autocompleteMatch value) options with
          | Some opt => Some opt
          | None => searchSelectors querySelectorAll value rest
          end
      | Throws _ => searchSelectors querySelectorAll value rest
      end
  end.

Definition findAutocompleteOption
    (querySelectorAll : string -> Query (list Candidate))
    (valueOrText : option string) : option Candidate :=
  searchSelectors querySelectorAll (requestedValue valueOrText)
                  autocompleteSelectors.

(** A menu of two items behind a trigger, and a page with other list
    items. *)
Definition item (n : nat) (text : string) : Candidate :=
  {| candNode := n;
     candSource := {| srcTextContent := text; srcInnerText := text |};
     dataValue := None; valueAttr := None; candDisplay := "block";
     candVisibility := "visible"; candWidth := 120; candHeight := 24 |}.

Definition sortMenu : list Candidate :=
  [item 31 EmptyString; item 32 "Price: low to high"; item 33 "Newest"].

Definition pageItems : list Candidate :=
  [item 41 "Home"; item 42 "Newest arrivals"].

Definition suggestionPage (selector : string) : Query (list Candidate) :=
  if String.eqb selector ".Select-option"
  then Ok [item 51 "New York"; item 52 "Newark"]
  else if String.eqb selector ("[class*=" ++ dquote ++ "option" ++ dquote ++ "]")
  then Throws "SyntaxError"
  else Ok [].

End Options.

(* ===================================================================== *)
(** ** content-script.js: check, uncheck and the failures without a target *)
(* ===================================================================== *)

Module Actions.
Import Text Executor.

(** A result of [executeAction] with a falsy [success]. *)
Definition failure (m : string) : ActionResult :=
  {| resSuccess := Some false; resError := Some m; resMessage := None;
     resNavigationPending := false; resTargetUrl := None |}.

(** A result with [success: true] and a message. *)
Definition done (m : string) : ActionResult :=
  {| resSuccess := Some true; resError := None; resMessage := Some m;
     resNavigationPending := false; resTargetUrl := None |}.

(** The target of a check or uncheck action. *)
Record Checkbox := mkCheckbox {
  cbTagName : string;
  cbType : string;
  cbDisabled : bool;
  checked : bool;
  cbClicks : nat;               (* calls of element.click() *)
}.

(** [element.click()] on a checkbox: the box is toggled unless it is
    disabled; no listener of the page cancels the click. *)
Definition click (el : Checkbox) : Checkbox :=
  {| cbTagName := cbTagName el; cbType := cbType el;
     cbDisabled := cbDisabled el;
     checked := if cbDisabled el then checked el else negb (checked el);
     cbClicks := cbClicks el + 1 |}.

(** The [check] and [uncheck] cases of [executeAction]; [actionType] is
    the lower-cased type of the action. *)
Definition executeCheck (actionType : string) (element : option Checkbox)
    : ActionResult * option Checkbox :=
  match element with
  | None => (failure "Target is not a checkbox", None)
  | Some el =>
      if negb (String.eqb (toLowerCase (cbTagName el)) "input")
         || negb (String.eqb (cbType el) "checkbox")
      then (failure "Target is not a checkbox", Some el)
      else
        let shouldCheck := String.eqb actionType "check" in
        let el := if negb (Bool.eqb (checked el) shouldCheck)
                  then click el else el in
        (done (if shouldCheck then "Checked" else "Unchecked"), Some el)
  end.

(** The actions that return a failure of their own when no target
    element was resolved. *)
Inductive Targeted :=
  | ClickAction
  | HoverAction
  | TypeAction          (* and the active element is not editable *)
  | CheckAction
  | UncheckAction
  | SubmitAction.       (* and the document holds no form *)

(** What [executeAction] returns for such an action when
    [resolveTargetElement] gave null; [target_uid] is [action.target_uid]
    as the template literal prints it. *)
Definition withoutTarget (kind : Targeted) (target_uid : string)
    : ActionResult :=
  match kind with
  | ClickAction | HoverAction | TypeAction =>
      failure ("Element not found for UID " ++ target_uid)
  | CheckAction | UncheckAction => failure "Target is not a checkbox"
  | SubmitAction => failure "No form found to submit"
  end.

Definition newsletterBox : Checkbox :=
  {| cbTagName := "INPUT"; cbType := "checkbox"; cbDisabled := false;
     checked := false; cbClicks := 0 |}.

Definition uploadField : Field :=
  {| tagName := "INPUT"; inputType := "file"; isContentEditable := false;
     role := EmptyString; hasAutocompleteAttr := false;
     ariaExpanded := EmptyString; value := EmptyString;
     innerText := EmptyString; calls := [] |}.

End Actions.

Module ActionsSpec.
Import Text Executor Actions.

(** The failures without a target that the loop takes for transient. *)
Definition retried (kind : Targeted) : bool :=
  match kind with
  | ClickAction | HoverAction | TypeAction => true
  | _ => false
  end.

Definition emptyPage (snap : Extractor.Snapshot) : PageAfter :=
  {| hasNavigated := false; detectedErrors := []; detectedSuccesses := [];
     capture := Registry.Ok snap; locationHref := "https://shop.example/" |}.

End ActionsSpec.

(* ===================================================================== *)
(** ** The side panel: messages to the content scripts, frames, planner requests *)
(* ===================================================================== *)

Module Transport.
Import Text.

Abbreviation Response := Executor.Response.
Abbreviation Snapshot := Extractor.Snapshot.

(** How one [chrome.tabs.sendMessage] settles: [chrome.runtime.lastError]
    is set, or the callback gets the response, which may be undefined. *)
Inductive Settled (R : Type) : Type :=
  | Rejected (m : string)
  | Resolved (response : option R).
Arguments Rejected {R} m.
Arguments Resolved {R} response.

Record Frame := mkFrame {
  frameId : Z;
  frameUrl : string;
}.

Inductive WireEvent :=
  | Sent (frame : option Z)      (* chrome.tabs.sendMessage *)
  | Injected                     (* chrome.scripting.executeScript *)
  | Waited (ms : Z).

(** The tab as the side panel meets it: the answer to the k-th message
    sent, and whether the k-th injection of the content scripts fails. *)
Record Tab (R : Type) := mkTab {
  currentTabId : option nat;
  answer : nat -> option Z -> Settled R;
  injectionFails : nat -> bool;
}.
Arguments currentTabId {R} t.
Arguments answer {R} t k frame.
Arguments injectionFails {R} t k.

(** What has gone over the wire so far. *)
Record Wire := mkWire {
  sent : nat;
  injections : nat;
  log : list WireEvent;
}.

Definition idle : Wire := {| sent := 0; injections := 0; log := [] |}.

Definition missingReceiverMessage : string :=
  "Could not establish connection. Receiving end does not exist.".

Section Messaging.
Context {R : Type} (tab : Tab R).

(** [attempt()] *)
Definition attempt (frame : option Z) (w : Wire) : Settled R * Wire :=
  (answer tab (sent w) frame,
   {| sent := sent w + 1; injections := injections w;
      log := (log w ++ [Sent frame])%list |}).

(** [injectContentScripts]; [Some m] is the error it throws. *)
Definition injectContentScripts (w : Wire) : option string * Wire :=
  match currentTabId tab with
  | None => (Some "No active tab available for script injection", w)
  | Some _ =>
      let w1 := {| sent := sent w; injections := injections w + 1;
                   log := (log w ++ [Injected])%list |} in
      if injectionFails tab (injections w)
      then (Some "Cannot inject scripts into this page", w1)
      else (None, w1)
  end.

Definition delay (ms : Z) (w : Wire) : Wire :=
  {| sent := sent w; injections := injections w;
     log := (log w ++ [Waited ms])%list |}.

(** [sendMessageToContentScript(message, frameId)]; a rejection stands
    for the error thrown. *)
Definition sendMessageToContentScript (frame : option Z) (w : Wire)
    : Settled R * Wire :=
  match currentTabId tab with
  | None => (Rejected "No active tab available", w)
  | Some _ =>
      match attempt frame w with
      | (Resolved response, w1) => (Resolved response, w1)
      | (Rejected m, w1) =>
          if includes m missingReceiverMessage then
            match injectContentScripts w1 with
            | (Some e, w2) => (Rejected e, w2)
            | (None, w2) => attempt frame (delay 150 w2)
            end
          else (Rejected m, w1)
      end
  end.

End Messaging.

(** [getAllFramesSafe]: [listing] is what
    [chrome.webNavigation.getAllFrames] settles to and [tabUrl k] what
    the k-th [chrome.tabs.get] gives as the url of the tab. *)
Definition getAllFramesSafe (listing : Registry.Query (list Frame))
    (tabUrl : nat -> Registry.Query string) : list Frame :=
  let topOnly (k : nat) :=
    match tabUrl k with
    | Registry.Ok url => [{| frameId := 0; frameUrl := url |}]
    | Registry.Throws _ => [{| frameId := 0; frameUrl := EmptyString |}]
    end in
  match listing with
  | Registry.Ok frames =>
      if existsb (fun f => (frameId f =? 0)%Z) frames then frames
      else
        match tabUrl 0 with
        | Registry.Ok url => [{| frameId := 0; frameUrl := url |}]
        | Registry.Throws _ => topOnly 1
        end
  | Registry.Throws _ => topOnly 0
  end.

(** [isElementNotFound] *)
Definition isElementNotFound (res : Response) : bool :=
  let msg :=
    toLowerCase
      (Orchestrator.orDefault
         (Orchestrator.orString (Executor.error res) (Executor.message res))
         EmptyString) in
  includes msg "element not found" || includes msg "target is not"
  || includes msg "no form found".

(** [res && res.success] *)
Definition succeeded (res : option Response) : bool :=
  match res with
  | Some r => match Executor.success r with Some true => true | _ => false end
  | None => false
  end.

Definition notFoundInAnyFrame : Response :=
  {| Executor.success := Some false;
     Executor.error := Some "Element not found in any frame";
     Executor.message := None; Executor.navigated := false;
     Executor.url := EmptyString; Executor.target_url := None;
     Executor.targetUrl := None; Executor.errors := [];
     Executor.successes := []; Executor.new_dom := None;
     Executor.navigationPending := false |}.

(** The [for] loop of [executeActionOnPage] over the frames. *)
Fixpoint tryFrames (tab : Tab Response) (frames : list Frame) (w : Wire)
    : option Response * Wire :=
  match frames with
  | [] => (None, w)
  | f :: rest =>
      match sendMessageToContentScript tab (Some (frameId f)) w with
      | (Resolved res, w1) =>
          if succeeded res then (res, w1) else tryFrames tab rest w1
      | (Rejected _, w1) => tryFrames tab rest w1
      end
  end.

(** [executeActionOnPage]; [frames] is what [getAllFramesSafe] returns
    when it is called. *)
Definition executeActionOnPage (tab : Tab Response) (frames : list Frame)
    (w : Wire) : Settled Response * Wire :=
  match sendMessageToContentScript tab None w with
  | (Rejected m, w1) => (Rejected m, w1)
  | (Resolved response, w1) =>
      if succeeded response then (Resolved response, w1)
      else
        let notFound :=
          match response with
          | None => true
          | Some r => isElementNotFound r
          end in
        if negb notFound then (Resolved response, w1)
        else
          match tryFrames tab frames w1 with
          | (Some res, w2) => (Resolved (Some res), w2)
          | (None, w2) =>
              (Resolved (Some match response with
                              | Some r => r
                              | None => notFoundInAnyFrame
                              end), w2)
          end
  end.

(** *** requestNextAction *)

Definition plannerPatterns : list string :=
  ["failed to fetch"; "network"; "timeout"; "internal server error";
   "bad gateway"; "service unavailable"; "planner error"; "gemini"].

Definition plannerTransient (m : string) : bool :=
  let msg := toLowerCase m in
  existsb (fun p => includes msg p) plannerPatterns.

Inductive PlannerEvent :=
  | Requested (dom : Snapshot) (previous : option Orchestrator.BackendResult)
  | Paused (ms : Z)
  | Recaptured.

(** [requestNextAction]: [doRequest k] is the k-th call of the inner
    [doRequest] and [recapture] what [captureDOMFromPage] settles to if
    it is called. The events are what the function did, in order. *)
Definition requestNextAction
    (doRequest : nat -> Snapshot -> option Orchestrator.BackendResult ->
                 Orchestrator.PlanReply)
    (recapture : Orchestrator.CaptureReply)
    (domData : Snapshot) (previousResult : option Orchestrator.BackendResult)
    : Orchestrator.PlanReply * list PlannerEvent :=
  match doRequest 0 domData previousResult with
  | Orchestrator.PlanOk json =>
      (Orchestrator.PlanOk json, [Requested domData previousResult])
  | Orchestrator.PlanThrows err =>
      if negb (plannerTransient err)
      then (Orchestrator.PlanThrows err, [Requested domData previousResult])
      else
        match recapture with
        | Orchestrator.Captured true (Some data) _ =>
            (match doRequest 1 data previousResult with
             | Orchestrator.PlanOk json => Orchestrator.PlanOk json
             | Orchestrator.PlanThrows _ => Orchestrator.PlanThrows err
             end,
             [Requested domData previousResult; Paused 1500; Recaptured;
              Requested data previousResult])
        | _ =>
            (Orchestrator.PlanThrows err,
             [Requested domData previousResult; Paused 1500; Recaptured])
        end
  end.

Definition isRequest (e : PlannerEvent) : bool :=
  match e with Requested _ _ => true | _ => false end.

Definition isRecapture (e : PlannerEvent) : bool :=
  match e with Recaptured => true | _ => false end.

(** *** captureDOMFromPage *)

(** The reply of a content script to CAPTURE_DOM. *)
Record CaptureResponse := mkCaptureResponse {
  capSuccess : bool;
  capData : option Snapshot;
  capError : option string;
}.

(** An element of a merged snapshot, tagged with its frame. *)
Record Tagged := mkTagged {
  el : Extractor.ElementRecord;
  _frameId : Z;
  _frameUrl : string;
}.

Record Merged := mkMerged {
  mergedUrl : string;
  mergedTitle : string;
  mergedTimestamp : Z;
  elementCount : nat;
  mergedElements : list Tagged;
}.

(** What [captureDOMFromPage] resolves to: the reply of one content
    script, or the merged snapshot with [statistics.total]. *)
Inductive PageCapture :=
  | Single (reply : Settled CaptureResponse)
  | Combined (data : Merged) (statisticsTotal : nat).

(** One entry of [results]. *)
Record FrameResult := mkFrameResult {
  resFrameId : Z;
  resUrl : string;
  resData : Snapshot;
}.

(** The first [for] loop: the frames that answer with a snapshot. *)
Fixpoint captureFrames (tab : Tab CaptureResponse) (frames : list Frame)
    (w : Wire) : list FrameResult * Wire :=
  match frames with
  | [] => ([], w)
  | f :: rest =>
      let '(res, w1) := sendMessageToContentScript tab (Some (frameId f)) w in
      let '(results, w2) := captureFrames tab rest w1 in
      (match res with
       | Resolved (Some r) =>
           match capSuccess r, capData r with
           | true, Some data =>
               {| resFrameId := frameId f; resUrl := frameUrl f;
                  resData := data |} :: results
           | _, _ => results
           end
       | _ => results
       end, w2)
  end.

Definition tagAll (r : FrameResult) : list Tagged :=
  map (fun e => {| el := e; _frameId := resFrameId r;
                   _frameUrl := resUrl r |})
      (Extractor.elements (resData r)).

Definition merge (now : Z) (top : FrameResult) (results : list FrameResult)
    : Merged :=
  let elements := flat_map tagAll results in
  {| mergedUrl := Extractor.url (resData top);
     mergedTitle := Extractor.snapTitle (resData top);
     mergedTimestamp := now;
     elementCount := length elements;
     mergedElements := elements |}.

(** [captureDOMFromPage(waitBeforeCapture)]; [frames] is what
    [getAllFramesSafe] returns and [now] is [Date.now()] at the merge. *)
Definition captureDOMFromPage (tab : Tab CaptureResponse)
    (waitBeforeCapture : Z) (frames : list Frame) (now : Z) (w : Wire)
    : PageCapture * Wire :=
  let w := if (0 <? waitBeforeCapture)%Z then delay waitBeforeCapture w
           else w in
  if (length frames <=? 1)%nat then
    let '(r, w1) := sendMessageToContentScript tab None w in (Single r, w1)
  else
    let '(results, w1) := captureFrames tab frames w in
    match results with
    | [] =>
        let '(r, w2) := sendMessageToContentScript tab None w1 in
        (Single r, w2)
    | first :: _ =>
        let top :=
          match List.find (fun r => (resFrameId r =? 0)%Z) results with
          | Some r => r
          | None => first
          end in
        let merged := merge now top results in
        (Combined merged (length (mergedElements merged)), w1)
    end.

End Transport.

Module TransportSpec.
Import Text Transport.

Definition snapshotOf (url : string) (els : list Extractor.ElementRecord)
    : Extractor.Snapshot :=
  {| Extractor.url := url; Extractor.snapTitle := "Checkout";
     Extractor.snapTimestamp := 0; Extractor.elements := els |}.

Definition payButton : Extractor.ElementRecord :=
  {| Extractor.uid := "elem_id_pay"; Extractor.tag := "button";
     Extractor.text := "Pay"; Extractor.attributes := [("id", "pay")];
     Extractor.recTabIndex := 0; Extractor.source := 1 |}.

Definition cardField : Extractor.ElementRecord :=
  {| Extractor.uid := "elem_name_card"; Extractor.tag := "input";
     Extractor.text := EmptyString;
     Extractor.attributes := [("name", "card")];
     Extractor.recTabIndex := 0; Extractor.source := 1 |}.

(** A page with the payment form in a frame: both frames answer. *)
Definition checkoutTab : Tab CaptureResponse :=
  {| currentTabId := Some 12;
     answer := fun _ frame =>
       match frame with
       | Some 5%Z =>
           Resolved (Some {| capSuccess := true;
                             capData := Some (snapshotOf "https://pay.example/f"
                                                         [cardField]);
                             capError := None |})
       | _ =>
           Resolved (Some {| capSuccess := true;
                             capData := Some (snapshotOf "https://shop.example/"
                                                         [payButton]);
                             capError := None |})
       end;
     injectionFails := fun _ => false |}.

Definition checkoutFrames : list Frame :=
  [{| frameId := 0; frameUrl := "https://shop.example/" |};
   {| frameId := 5; frameUrl := "https://pay.example/f" |}].

End TransportSpec.

(* ===================================================================== *)
(** ** The side panel and the service worker: the action history *)
(* ===================================================================== *)

Module History.

Record Item := mkItem {
  itemType : string;
  itemMessage : string;
  itemTimestamp : string;
}.

(** [state.actionHistory] of the side panel and the [actionHistory] key
    of [chrome.storage.local]. *)
Record Store := mkStore {
  actionHistory : list Item;
  stored : list Item;
}.

(** [saveHistory] *)
Definition saveHistory (s : Store) : Store :=
  {| actionHistory := actionHistory s;
     stored := firstn 50 (actionHistory s) |}.

(** [addToHistory] *)
Definition addToHistory (item : Item) (s : Store) : Store :=
  saveHistory {| actionHistory := item :: actionHistory s;
                 stored := stored s |}.

(** [clearHistory], once the user has confirmed *)
Definition clearHistory (s : Store) : Store :=
  saveHistory {| actionHistory := []; stored := stored s |}.

(** [loadHistory] *)
Definition loadHistory (s : Store) : Store :=
  match stored s with
  | [] => s
  | _ :: _ => {| actionHistory := stored s; stored := stored s |}
  end.

(** The [cleanup] alarm of the service worker. *)
Definition onAlarm (s : Store) : Store :=
  if (100 <? length (stored s))%nat
  then {| actionHistory := actionHistory s; stored := firstn 50 (stored s) |}
  else s.

(** The store when the extension has just been installed. *)
Definition installed : Store := {| actionHistory := []; stored := [] |}.

Inductive HistoryOp :=
  | Add (item : Item)
  | Clear
  | Load                (* the side panel is opened again *)
  | Alarm.

Definition runOp (s : Store) (op : HistoryOp) : Store :=
  match op with
  | Add item => addToHistory item s
  | Clear => clearHistory s
  | Load => loadHistory s
  | Alarm => onAlarm s
  end.

End History.

(* ===================================================================== *)
(** * Theorems *)
(* ===================================================================== *)

Section RegistryFacts.
Import Text Registry RegistrySpec.

Lemma exactLoop_find clean els :
  exactLoop clean els = find (exactMatch clean) els.
Proof.
  induction els as [|e els IH]; simpl; [reflexivity|].
  unfold exactMatch at 1. destruct (String.eqb _ _); auto.
Qed.

Lemma partialLoop_find clean els :
  partialLoop clean els = find (partialMatch clean) els.
Proof.
  induction els as [|e els IH]; simpl; [reflexivity|].
  unfold partialMatch at 1. destruct (_ || _); auto.
Qed.

Lemma otherLoop_firstSome doc tag entries :
  otherLoop doc tag entries = firstSome (uniqueMatch doc tag) entries.
Proof.
  induction entries as [|[k v] entries IH]; simpl; [reflexivity|].
  unfold uniqueMatch at 1; simpl.
  destruct (negb (isStable k) && truthy v); [|exact IH].
  destruct (querySelectorAll doc _) as [[|e [|e' l]]|]; auto.
Qed.

Lemma accepted_valid c e : accepted c = Some e -> isElementValid e = true.
Proof.
  destruct c as [x|]; simpl; [|discriminate].
  destruct (isElementValid x) eqn:V; [|discriminate].
  intros [= <-]. exact V.
Qed.

Lemma isElementValid_live e :
  isElementValid e = true ->
  isConnected e = true /\ display e <> "none" /\ visibility e <> "hidden".
Proof.
  unfold isElementValid. destruct (isConnected e); simpl; [|discriminate].
  destruct (String.eqb (display e) "none") eqn:D; simpl; [discriminate|].
  destruct (String.eqb (visibility e) "hidden") eqn:V; simpl; [discriminate|].
  intros _. apply String.eqb_neq in D, V. auto.
Qed.

(** Stable attributes the fingerprint does not hold are passed over. *)
Lemma stableLoop_skip doc attributes attrs sel :
  (forall a, In a attrs -> recorded attributes a = false) ->
  stableLoop doc attributes attrs sel = None.
Proof.
  revert sel. induction attrs as [|a attrs IH]; intros sel H; simpl; auto.
  pose proof (H a (or_introl eq_refl)) as Ha. unfold recorded in Ha.
  destruct (getAttr attributes a) as [v|].
  - rewrite Ha. apply IH. intros b Hb. apply H. now right.
  - apply IH. intros b Hb. apply H. now right.
Qed.

Lemma stableLoop_first doc attributes pre attr post sel v r :
  (forall a, In a pre -> recorded attributes a = false) ->
  getAttr attributes attr = Some v -> truthy v = true ->
  querySelector doc (attrSelector sel attr v) = Ok r ->
  stableLoop doc attributes (pre ++ attr :: post) sel = Some r.
Proof.
  intros Hpre Hv Ht Hq. induction pre as [|a pre IH]; simpl.
  - rewrite Hv, Ht, Hq. reflexivity.
  - pose proof (Hpre a (or_introl eq_refl)) as Ha. unfold recorded in Ha.
    destruct (getAttr attributes a) as [w|].
    + rewrite Ha. apply IH. intros b Hb. apply Hpre. now right.
    + apply IH. intros b Hb. apply Hpre. now right.
Qed.

Lemma lookup_touch uid doc (reg : gmap string RegistryEntry) entry :
  reg !! uid = Some entry ->
  (getElementByUID uid doc reg).2 !! uid = Some (touch entry).
Proof.
  intros H. unfold getElementByUID. rewrite H. simpl.
  apply lookup_insert_eq.
Qed.





End RegistryFacts.

Section ResolverClaims.
Import Text Registry RegistrySpec.

(** A recorded stable attribute whose query matches nothing ends the
    attribute tier: the other attributes are not consulted. *)
Example stale_id_blocks_other_attributes :
  let fingerprint := [("id", "gone"); ("placeholder", "Search")] in
  findByAttributes searchPage fingerprint "input" = None
  /\ uniqueMatch searchPage "input" ("placeholder", "Search") = Some searchBox.
Proof. split; reflexivity. Qed.

(** C2 (as amended): for a registered uid, resolution runs the CSS
    selector, then the XPath query, then the attribute fingerprint, then
    the text match, skipping a strategy whose locator is empty; a
    candidate counts only if it is attached and neither display:none nor
    visibility:hidden; the first accepted candidate is returned. When
    there is none the result is null, unless the text tier is reached
    and the document rejects the recorded tag as a selector: that query
    is the only one outside a try/catch, and the look-up then throws.
    The text tier compares texts trimmed, lower-cased and
    whitespace-collapsed, an exact match before a containment in either
    direction. The attribute tier returns the match of the first
    recorded stable attribute, and with no stable attribute recorded the
    single match of the first other attribute that has exactly one. *)
Theorem C2_resolution_order (reg : gmap string RegistryEntry) uid entry doc :
  reg !! uid = Some entry ->
  let result := (getElementByUID uid doc reg).1 in
  let css := if truthy (selector entry)
             then accepted (caught (querySelector doc (selector entry)))
             else None in
  let xp := if truthy (xpath entry)
            then accepted (caught (evaluate doc (xpath entry)))
            else None in
  let fp := accepted (findByAttributes doc (attributes entry) (tag entry)) in
  let clean := cleanText (text entry) in
  (forall e, result = Ok (Some e) ->
     isConnected e = true /\ display e <> "none" /\ visibility e <> "hidden")
  /\ (forall e, css = Some e -> result = Ok (Some e))
  /\ (forall e, css = None -> xp = Some e -> result = Ok (Some e))
  /\ (forall e, css = None -> xp = None -> fp = Some e ->
        result = Ok (Some e))
  /\ (css = None -> xp = None -> fp = None ->
        (truthy (text entry) && truthy (tag entry) = false ->
           result = Ok None)
        /\ (truthy (text entry) && truthy (tag entry) = true ->
            forall els, querySelectorAll doc (tag entry) = Ok els ->
            result = Ok (accepted
                           match find (exactMatch clean) els with
                           | Some e => Some e
                           | None => find (partialMatch clean) els
                           end))
        /\ (truthy (text entry) && truthy (tag entry) = true ->
            forall message,
              querySelectorAll doc (tag entry) = Throws message ->
              result = Throws message))
  /\ (forall pre attr post v e,
        stableAttrs = (pre ++ attr :: post)%list ->
        (forall a, In a pre -> recorded (attributes entry) a = false) ->
        getAttr (attributes entry) attr = Some v -> truthy v = true ->
        querySelector doc (attrSelector (orElse (tag entry) "*") attr v)
          = Ok (Some e) ->
        findByAttributes doc (attributes entry) (tag entry) = Some e)
  /\ ((forall a, In a stableAttrs -> recorded (attributes entry) a = false) ->
        findByAttributes doc (attributes entry) (tag entry)
          = firstSome (uniqueMatch doc (tag entry)) (attributes entry)).
Proof.
  intros H result css xp fp clean.
  assert (R : result = locate doc entry).
  { unfold result, getElementByUID. rewrite H. reflexivity. }
  assert (L : locate doc entry =
    match css with Some e => Ok (Some e) | None =>
    match xp with Some e => Ok (Some e) | None =>
    match fp with Some e => Ok (Some e) | None =>
      if truthy (text entry) && truthy (tag entry) then
        match findByText doc (text entry) (tag entry) with
        | Throws m => Throws m
        | Ok r => Ok (accepted r)
        end
      else Ok None end end end).
  { unfold locate. fold css xp fp.
    destruct css, xp, fp; try reflexivity.
    destruct (truthy (text entry) && truthy (tag entry)); [|reflexivity].
    destruct (findByText doc (text entry) (tag entry)) as [r|m];
      [|reflexivity].
    destruct (accepted r); reflexivity. }
  rewrite L in R. clear L.
  refine (conj _ (conj _ (conj _ (conj _ (conj _ (conj _ _)))))).
  - (* liveness *)
    intros e He. apply isElementValid_live. rewrite R in He.
    destruct css as [c|] eqn:C1.
    { injection He as <-. subst css.
      destruct (truthy (selector entry)); [|discriminate].
      eapply accepted_valid; eauto. }
    destruct xp as [c|] eqn:C2.
    { injection He as <-. subst xp.
      destruct (truthy (xpath entry)); [|discriminate].
      eapply accepted_valid; eauto. }
    destruct fp as [c|] eqn:C3.
    { injection He as <-. eapply accepted_valid; eauto. }
    destruct (truthy (text entry) && truthy (tag entry)); [|discriminate].
    destruct (findByText doc (text entry) (tag entry)) as [r|m];
      [|discriminate].
    injection He as He. eapply accepted_valid; eauto.
  - intros e C1. rewrite R, C1. reflexivity.
  - intros e C1 C2. rewrite R, C1, C2. reflexivity.
  - intros e C1 C2 C3. rewrite R, C1, C2, C3. reflexivity.
  - intros C1 C2 C3. refine (conj _ (conj _ _)).
    + intros T. rewrite R, C1, C2, C3, T. reflexivity.
    + intros T els Q. rewrite R, C1, C2, C3, T.
      unfold findByText. rewrite Q. fold clean.
      rewrite exactLoop_find, partialLoop_find.
      destruct (find (exactMatch clean) els); reflexivity.
    + intros T message Q. rewrite R, C1, C2, C3, T.
      unfold findByText. rewrite Q. reflexivity.
  - intros pre attr post v e S Hpre Hv Ht Hq.
    unfold findByAttributes. rewrite S.
    erewrite stableLoop_first; eauto.
  - intros Hno. unfold findByAttributes.
    rewrite stableLoop_skip by exact Hno.
    apply otherLoop_firstSome.
Qed.

Lemma C2_resolution_order_witness :
  (getElementByUID "elem_1" submitPage {[ "elem_1" := submitEntry ]}).1
    = Ok (Some submitButton).
Proof.
  assert (H : ({[ "elem_1" := submitEntry ]} : gmap string RegistryEntry)
                !! "elem_1" = Some submitEntry)
    by apply lookup_singleton_eq.
  destruct (C2_resolution_order _ "elem_1" submitEntry submitPage H)
    as (_ & _ & _ & _ & K & _).
  destruct (K eq_refl eq_refl eq_refl) as (_ & K2 & _).
  exact (K2 eq_refl [submitButton] eq_refl).
Defined.

(** A look-up that throws: no strategy before the text tier yields a
    candidate for the pasted paragraph, and the document rejects its tag
    as a selector. *)
Example rejected_tag_throws :
  caught (querySelector pastedPage (selector pastedEntry)) = None
  /\ caught (evaluate pastedPage (xpath pastedEntry)) = None
  /\ findByAttributes pastedPage (attributes pastedEntry) (tag pastedEntry)
       = None
  /\ (getElementByUID "elem_7" pastedPage {[ "elem_7" := pastedEntry ]}).1
       = Throws "SyntaxError: 'o:p' is not a valid selector".
Proof. repeat split; vm_compute; reflexivity. Qed.

(** C2, as stated, fails: the recorded text "Submit" and the button text
    "SUBMIT" neither coincide nor contain one another once whitespace is
    normalised, and no other strategy yields a candidate, yet resolution
    returns the button instead of null. *)
Lemma C2_counterexample :
  caught (querySelector submitPage (selector submitEntry)) = None
  /\ caught (evaluate submitPage (xpath submitEntry)) = None
  /\ findByAttributes submitPage (attributes submitEntry) (tag submitEntry)
       = None
  /\ querySelectorAll submitPage (tag submitEntry) = Ok [submitButton]
  /\ textMatchesLiterally (text submitEntry) (textContent submitButton)
       = false
  /\ (getElementByUID "elem_1" submitPage {[ "elem_1" := submitEntry ]}).1
       = Ok (Some submitButton).
Proof. repeat split; vm_compute; reflexivity. Qed.




End ResolverClaims.

Section ExtractorFacts.
Import Text Extractor ExtractorSpec.








(** Every record of a snapshot was made from a collected element that
    passed the filter, at that element's position among the survivors. *)
Lemma elements_sources now page r :
  In r (elements (captureDOM now page)) <->
  exists i l, getInteractiveElements page !! i = Some l
              /\ serializeElement l i = Some r.
Proof.
  unfold captureDOM. simpl. rewrite <- list_elem_of_In.
  rewrite list_elem_of_omap. split.
  - intros (x & Hx & E). apply elem_of_lookup_imap in Hx.
    destruct Hx as (i & l & -> & Hl). exists i, l. auto.
  - intros (i & l & Hl & E). exists (serializeElement l i). split; auto.
    apply elem_of_lookup_imap. exists i, l. auto.
Qed.



(** What a record holds, and when there is one. *)
Lemma serializeElement_Some l i r :
  serializeElement l i = Some r ->
  getElementTextThrows (element l) = false
  /\ uid r = generateUID l i /\ source r = node (element l).
Proof.
  unfold serializeElement.
  destruct (getElementTextThrows (element l)); [discriminate|].
  intros [= <-]. auto.
Qed.

Lemma serializeElement_returns l i :
  getElementTextThrows (element l) = false ->
  exists r, serializeElement l i = Some r
            /\ uid r = generateUID l i /\ source r = node (element l).
Proof.
  intros H. unfold serializeElement. rewrite H. eexists. auto.
Qed.

Lemma interactive_In page l :
  (exists i, getInteractiveElements page !! i = Some l) <->
  In l (collected page) /\ isActionableElement l = true.
Proof.
  unfold getInteractiveElements.
  rewrite <- list_elem_of_lookup, list_elem_of_In. apply filter_In.
Qed.

End ExtractorFacts.

Section ExtractorClaims.
Import Text Extractor ExtractorSpec.

(** C1 (the code breaks it): two radio buttons of one group, distinct
    nodes that pass the filter, are serialized by one capture under the
    same uid, because the uid taken from a test hook, id or name carries
    no traversal ordinal. *)
Theorem C1_shared_name_shares_uid now :
  let snapshot := captureDOM now radioPage in
  map source (elements snapshot) = [1; 2]
  /\ map uid (elements snapshot) = ["elem_name_color"; "elem_name_color"]
  /\ ~ NoDup (map uid (elements snapshot)).
Proof.
  simpl. split; [reflexivity|]. split; [reflexivity|].
  intros H. apply NoDup_cons in H. destruct H as [H _]. apply H.
  apply list_elem_of_here.
Qed.



(** A list item with a numeric value passes the filter and is dropped
    all the same: [text.trim] is not a function on the number 3. *)
Example numbered_item_is_dropped :
  isActionableElement numberedItem = true
  /\ serializeElement numberedItem 0 = None
  /\ map source (elements (captureDOM 0 listPage)) = [21].
Proof. repeat split. Qed.


End ExtractorClaims.

Section FingerprintFacts.
Import Text Extractor ExtractorSpec.

Lemma decimal_inj i j : decimal i = decimal j -> i = j.
Proof.
  unfold decimal. intros H.
  assert (U : Some (Nat.to_uint i) = Some (Nat.to_uint j)).
  { rewrite <- !NilEmpty.usu. rewrite H. reflexivity. }
  injection U as U. rewrite <- (Unsigned.of_to i), <- (Unsigned.of_to j).
  rewrite U. reflexivity.
Qed.

Lemma uint_noUnderscore d : noUnderscore (NilEmpty.string_of_uint d) = true.
Proof. induction d; simpl; auto. Qed.

Lemma noUnderscore_app a b :
  noUnderscore (a ++ String "_" b) = false.
Proof.
  induction a as [|c a IH]; simpl; [reflexivity|].
  rewrite IH. apply andb_false_r.
Qed.

(** What follows the last underscore is determined by the whole. *)
Lemma after_last_underscore a : forall c b d,
  noUnderscore b = true -> noUnderscore d = true ->
  a ++ String "_" b = c ++ String "_" d -> b = d.
Proof.
  induction a as [|x a IH]; intros [|y c] b d Hb Hd E; simpl in E.
  - injection E as E. exact E.
  - injection E as _ E. rewrite E, noUnderscore_app in Hb. discriminate.
  - injection E as _ E. rewrite <- E, noUnderscore_app in Hd. discriminate.
  - injection E as _ E. exact (IH c b d Hb Hd E).
Qed.

Lemma generateUID_fingerprinted l i :
  fingerprinted l = true ->
  exists hash, generateUID l i = "elem_" ++ hash ++ String "_" (decimal i).
Proof.
  unfold fingerprinted, generateUID. intros H.
  apply andb_true_iff in H. destruct H as [H Hn].
  apply andb_true_iff in H. destruct H as [Ht Hi].
  apply negb_true_iff in Ht, Hi, Hn. rewrite Ht, Hi, Hn.
  eexists. reflexivity.
Qed.

Lemma uids_of_imap (l : list Located) : forall k : nat -> nat,
  map uid (omap (fun x => x)
             (imap (fun index element => serializeElement element (k index))
                   l))
  `sublist_of` imap (fun index element => generateUID element (k index)) l.
Proof.
  induction l as [|x l IH]; intros k; [apply sublist_nil|].
  cbn [imap omap map]. pose proof (IH (fun i => k (S i))) as Rest.
  unfold serializeElement at 1.
  destruct (getElementTextThrows (element x)).
  - apply sublist_cons. exact Rest.
  - cbn [map uid]. apply sublist_skip. exact Rest.
Qed.

(** The uids of a snapshot are, in order, uids of the elements that
    passed the filter, each made with the position of its element among
    them. *)
Lemma uids_by_position now page :
  map uid (elements (captureDOM now page))
  `sublist_of` imap (fun index element => generateUID element index)
                    (getInteractiveElements page).
Proof.
  unfold captureDOM. cbn [elements].
  exact (uids_of_imap (getInteractiveElements page) (fun i => i)).
Qed.

(** When every actionable element falls through to the fingerprint
    branch, the traversal ordinal keeps the uids of a capture apart. *)
Lemma fingerprint_uids_distinct now page :
  (forall l, In l (collected page) -> fingerprinted l = true) ->
  NoDup (map uid (elements (captureDOM now page))).
Proof.
  intros H. eapply sublist_NoDup; [|apply uids_by_position].
  apply NoDup_alt.
  intros i j u Hi Hj.
  apply list_lookup_imap_Some in Hi, Hj.
  destruct Hi as (li & Li & ->), Hj as (lj & Lj & E).
  assert (Fi : fingerprinted li = true).
  { apply H. apply (proj1 (interactive_In page li)). eauto. }
  assert (Fj : fingerprinted lj = true).
  { apply H. apply (proj1 (interactive_In page lj)). eauto. }
  destruct (generateUID_fingerprinted li i Fi) as [hi Ui].
  destruct (generateUID_fingerprinted lj j Fj) as [hj Uj].
  rewrite Ui, Uj in E. simpl in E. injection E as E.
  apply decimal_inj.
  apply (after_last_underscore hi hj); [apply uint_noUnderscore ..|exact E].
Qed.

End FingerprintFacts.

Section OrchestratorFacts.
Import Text Orchestrator OrchestratorSpec.

(** [handleStop] touches the stop flag and nothing else. *)
Lemma handleStop_frame m :
  isExecuting (handleStop m) = isExecuting m
  /\ awaits (handleStop m) = awaits m
  /\ captureCalls (handleStop m) = captureCalls m
  /\ planCalls (handleStop m) = planCalls m
  /\ execCalls (handleStop m) = execCalls m
  /\ effects (handleStop m) = effects m.
Proof.
  unfold handleStop. destruct (negb (isExecuting m) || stopRequested m);
    simpl; auto 10.
Qed.

Lemma handleStop_sets m :
  isExecuting m = true -> stopRequested (handleStop m) = true.
Proof.
  unfold handleStop. intros ->. simpl.
  destruct (stopRequested m) eqn:E; simpl; auto.
Qed.

Lemma click_isExecuting b m :
  isExecuting (deliverClick b m) = isExecuting m.
Proof. destruct b; simpl; [apply handleStop_frame|reflexivity]. Qed.

Lemma click_awaits b m : awaits (deliverClick b m) = awaits m.
Proof. destruct b; simpl; [apply handleStop_frame|reflexivity]. Qed.

Lemma click_captureCalls b m :
  captureCalls (deliverClick b m) = captureCalls m.
Proof. destruct b; simpl; [apply handleStop_frame|reflexivity]. Qed.

Lemma click_planCalls b m : planCalls (deliverClick b m) = planCalls m.
Proof. destruct b; simpl; [apply handleStop_frame|reflexivity]. Qed.

Lemma click_execCalls b m : execCalls (deliverClick b m) = execCalls m.
Proof. destruct b; simpl; [apply handleStop_frame|reflexivity]. Qed.

Lemma click_effects b m : effects (deliverClick b m) = effects m.
Proof. destruct b; simpl; [apply handleStop_frame|reflexivity]. Qed.

Lemma click_none m : deliverClick false m = m.
Proof. reflexivity. Qed.

(** The flag is never lowered by a click. *)
Lemma click_monotone b m :
  stopRequested m = true -> stopRequested (deliverClick b m) = true.
Proof.
  intros H. destruct b; simpl; [|exact H].
  unfold handleStop. rewrite H, orb_true_r. exact H.
Qed.

End OrchestratorFacts.

Create Rewrite HintDb machine.
#[local] Hint Rewrite click_isExecuting click_awaits click_captureCalls
  click_planCalls click_execCalls click_effects click_none : machine.

Section NavigationFacts.
Import Text Orchestrator OrchestratorSpec.

Lemma grows_refl m : grows m m [] 0.
Proof.
  unfold grows. rewrite app_nil_r. simpl. repeat split; lia.
Qed.

Lemma grows_trans m m1 m2 es1 es2 c1 c2 :
  grows m m1 es1 c1 -> grows m1 m2 es2 c2 ->
  grows m m2 (es1 ++ es2) (c1 + c2).
Proof.
  unfold grows. intros (E1 & C1 & P1 & X1 & I1 & A1) (E2 & C2 & P2 & X2 & I2 & A2).
  rewrite E2, E1, C2, C1, P2, P1, X2, X1, I2, I1, A2, A1.
  rewrite <- app_assoc, length_app. repeat split; lia.
Qed.

Lemma delay_grows ms w m : grows m (delay ms w m).2 [Delay ms] 0.
Proof.
  unfold grows, delay, await. simpl.
  autorewrite with machine. simpl. repeat split; lia.
Qed.

Lemma capture_reply w m :
  (captureDOMFromPage w m).1 = capturer w (captureCalls m).
Proof. reflexivity. Qed.

Lemma capture_grows w m :
  grows m (captureDOMFromPage w m).2 [CaptureDOMFromPage] 1.
Proof.
  unfold grows, captureDOMFromPage, await. simpl.
  autorewrite with machine. simpl. repeat split; lia.
Qed.

(** One turn of the post-navigation loop. *)
Lemma captureAfterNavigation_step remaining attempt w m :
  captureAfterNavigation (S remaining) attempt w m =
  let m1 := if (1 <? attempt + 1)%nat
            then (delay (800 * (Z.of_nat (attempt + 1) - 1)) w m).2
            else m in
  match usable (captureDOMFromPage w m1).1 with
  | Some data => (Some data, (captureDOMFromPage w m1).2)
  | None =>
      captureAfterNavigation remaining (attempt + 1) w
        (captureDOMFromPage w m1).2
  end.
Proof.
  cbn [captureAfterNavigation]. unfold bind at 1.
  destruct (1 <? attempt + 1)%nat.
  - destruct (delay _ w m) as [[] m1] eqn:D. cbn [snd].
    unfold bind at 1.
    destruct (captureDOMFromPage w m1) as [r m2] eqn:C. cbn [fst snd].
    unfold usable.
    destruct r as [msg| |[|] [data|] err]; try reflexivity.
    destruct (0 <? length (Extractor.elements data))%nat; reflexivity.
  - unfold ret at 1. unfold bind at 1.
    destruct (captureDOMFromPage w m) as [r m2] eqn:C. cbn [fst snd].
    unfold usable.
    destruct r as [msg| |[|] [data|] err]; try reflexivity.
    destruct (0 <? length (Extractor.elements data))%nat; reflexivity.
Qed.

(** The whole recovery: the wait of 2500 ms, then up to three captures
    with 800 ms before the second and 1600 ms before the third, ending at
    the first usable one. *)
Lemma recoverFromNavigation_spec w m :
  let c k := usable (capturer w (captureCalls m + k)) in
  let dom := (recoverFromNavigation w m).1 in
  let m' := (recoverFromNavigation w m).2 in
  match c 0, c 1, c 2 with
  | Some d, _, _ =>
      dom = Some d /\ grows m m' [Delay 2500; CaptureDOMFromPage] 1
  | None, Some d, _ =>
      dom = Some d
      /\ grows m m' [Delay 2500; CaptureDOMFromPage;
                     Delay 800; CaptureDOMFromPage] 2
  | None, None, Some d =>
      dom = Some d
      /\ grows m m' [Delay 2500; CaptureDOMFromPage;
                     Delay 800; CaptureDOMFromPage;
                     Delay 1600; CaptureDOMFromPage] 3
  | None, None, None =>
      dom = None
      /\ grows m m' [Delay 2500; CaptureDOMFromPage;
                     Delay 800; CaptureDOMFromPage;
                     Delay 1600; CaptureDOMFromPage] 3
  end.
Proof.
  intros c dom m'. subst c dom m'.
  assert (U : recoverFromNavigation w m
              = captureAfterNavigation 3 0 w (delay 2500 w m).2).
  { unfold recoverFromNavigation, maxCaptureAttempts, bind.
    destruct (delay 2500 w m) as [[] m0]. reflexivity. }
  rewrite U. clear U.
  pose proof (delay_grows 2500 w m) as G0.
  set (m0 := (delay 2500 w m).2) in *.
  (* first attempt *)
  pose proof (captureAfterNavigation_step 2 0 w m0) as S1.
  cbn zeta in S1. change (1 <? 0 + 1)%nat with false in S1. cbn iota in S1.
  pose proof (grows_trans _ _ _ _ _ _ _ G0 (capture_grows w m0)) as G1.
  set (m1 := (captureDOMFromPage w m0).2) in *.
  rewrite capture_reply in S1.
  replace (captureCalls m0) with (captureCalls m + 0) in S1
    by (destruct G0 as (_ & -> & _); reflexivity).
  rewrite S1. clear S1.
  destruct (usable (capturer w (captureCalls m + 0))) as [d|].
  { split; [reflexivity|exact G1]. }
  (* second attempt *)
  pose proof (captureAfterNavigation_step 1 (0 + 1) w m1) as S2.
  cbn zeta in S2. change (1 <? 0 + 1 + 1)%nat with true in S2.
  cbn iota in S2.
  change (800 * (Z.of_nat (0 + 1 + 1) - 1))%Z with 800%Z in S2.
  pose proof (grows_trans _ _ _ _ _ _ _ G1 (delay_grows 800 w m1)) as G2.
  set (m2 := (delay 800 w m1).2) in *.
  pose proof (grows_trans _ _ _ _ _ _ _ G2 (capture_grows w m2)) as G3.
  set (m3 := (captureDOMFromPage w m2).2) in *.
  rewrite capture_reply in S2.
  replace (captureCalls m2) with (captureCalls m + 1) in S2
    by (destruct G2 as (_ & -> & _); lia).
  rewrite S2. clear S2.
  destruct (usable (capturer w (captureCalls m + 1))) as [d|].
  { split; [reflexivity|exact G3]. }
  (* third attempt *)
  pose proof (captureAfterNavigation_step 0 (0 + 1 + 1) w m3) as S3.
  cbn zeta in S3. change (1 <? 0 + 1 + 1 + 1)%nat with true in S3.
  cbn iota in S3.
  change (800 * (Z.of_nat (0 + 1 + 1 + 1) - 1))%Z with 1600%Z in S3.
  pose proof (grows_trans _ _ _ _ _ _ _ G3 (delay_grows 1600 w m3)) as G4.
  set (m4 := (delay 1600 w m3).2) in *.
  pose proof (grows_trans _ _ _ _ _ _ _ G4 (capture_grows w m4)) as G5.
  set (m5 := (captureDOMFromPage w m4).2) in *.
  rewrite capture_reply in S3.
  replace (captureCalls m4) with (captureCalls m + 2) in S3
    by (destruct G4 as (_ & -> & _); lia).
  rewrite S3. clear S3.
  destruct (usable (capturer w (captureCalls m + 2))) as [d|].
  { split; [reflexivity|exact G5]. }
  split; [reflexivity|exact G5].
Qed.

End NavigationFacts.

Section NavigationClaims.
Import Text Executor Orchestrator OrchestratorSpec.

Lemma recovery_as_expected w m :
  let expected :=
    expectedRecovery (usable (capturer w (captureCalls m + 0)))
                     (usable (capturer w (captureCalls m + 1)))
                     (usable (capturer w (captureCalls m + 2))) in
  (recoverFromNavigation w m).1 = expected.1
  /\ grows m (recoverFromNavigation w m).2 expected.2
           (length expected.2 / 2).
Proof.
  pose proof (recoverFromNavigation_spec w m) as R. cbn zeta in *.
  destruct (usable (capturer w (captureCalls m + 0))) as [d0|];
    [exact R|].
  destruct (usable (capturer w (captureCalls m + 1))) as [d1|];
    [exact R|].
  destruct (usable (capturer w (captureCalls m + 2))) as [d2|]; exact R.
Qed.

(** The end of a pass whose action succeeded. *)
Lemma afterSuccess_run v previous r w m :
  afterSuccess v previous r w m =
  let dm := if navigated r then recoverFromNavigation w m
            else (new_dom r, m) in
  (NextPass {| currentDom := dm.1; previousResultForBackend := previous;
               iteration := iteration v + 1 |},
   if stopRequested dm.2 then dm.2 else (delay 250 w dm.2).2).
Proof.
  unfold afterSuccess, bind, readStopRequested, ret.
  destruct (navigated r).
  - destruct (recoverFromNavigation w m) as [dom m1]. cbn [fst snd].
    destruct (stopRequested m1); cbn [negb]; [reflexivity|].
    destruct (delay 250 w m1) as [[] m2]. reflexivity.
  - cbn [fst snd]. destruct (stopRequested m); cbn [negb]; [reflexivity|].
    destruct (delay 250 w m) as [[] m2]. reflexivity.
Qed.

(** Up to the reply of the page, a pass is the planner call followed by
    the action. *)
Lemma loopPass_executed w m v dom plan action t r ok :
  stopRequested m = false -> currentDom v = Some dom ->
  planner w (planCalls m) = PlanOk (Some plan) ->
  complete plan = false -> next_action plan = Some action ->
  actType action = Some t ->
  executor w (execCalls m) = Executed r -> success r = Some ok ->
  loopPass v w m =
  (if ok then afterSuccess else afterFailure)
    {| currentDom := Some dom;
       previousResultForBackend := previousResultForBackend v;
       iteration := iteration v |}
    (Some (buildActionResultForBackend action r)) r w
    (executeActionOnPage action w
       (requestNextAction dom (previousResultForBackend v) w m).2).2.
Proof.
  intros Hs Hd Hp Hc Ha Ht He Hok.
  unfold loopPass, bind at 1, readStopRequested. rewrite Hs, Hd.
  unfold ensureDom, bind at 1, ret at 1. unfold planAndExecute, bind at 1.
  assert (P : (requestNextAction dom (previousResultForBackend v) w m).1
              = PlanOk (Some plan)) by exact Hp.
  assert (X : execCalls
                (requestNextAction dom (previousResultForBackend v) w m).2
              = execCalls m).
  { unfold requestNextAction, await. simpl.
    autorewrite with machine. reflexivity. }
  destruct (requestNextAction dom (previousResultForBackend v) w m)
    as [p m1]. cbn [fst snd] in *. subst p. rewrite Hc, Ha, Ht.
  unfold bind at 1.
  assert (E : (executeActionOnPage action w m1).1 = Executed r).
  { unfold executeActionOnPage. simpl. rewrite X. exact He. }
  destruct (executeActionOnPage action w m1) as [e m2].
  cbn [fst snd] in *. subst e. rewrite Hok. destruct ok; reflexivity.
Qed.

(** C4: a reply to an action that reports navigation-pending carries no
    snapshot and was made without a capture; only [navigateToUrl] reports
    it, and then with success. On a reply that says navigated the loop
    waits 2500 ms, captures, and if that capture is not usable waits
    800 ms and captures again, then 1600 ms and a third time, stopping at
    the first successful capture with at least one element; with none it
    sets the current snapshot to null. Either way the pass ends without
    an outcome, one iteration counted, and a pass that starts without a
    snapshot first waits and captures. *)
Theorem C4_navigation_recovery :
  (forall result page, resNavigationPending result = true ->
     (handleExecuteAction (Registry.Ok result) page).2 = 0
     /\ new_dom (handleExecuteAction (Registry.Ok result) page).1 = None
     /\ navigated (handleExecuteAction (Registry.Ok result) page).1 = true
     /\ success (handleExecuteAction (Registry.Ok result) page).1
        = resSuccess result)
  /\ (forall parseUrl v u t,
        resNavigationPending (navigateToUrl parseUrl v u t) = true ->
        resSuccess (navigateToUrl parseUrl v u t) = Some true)
  /\ (forall w m v previous r, navigated r = true ->
        let expected :=
          expectedRecovery (usable (capturer w (captureCalls m + 0)))
                           (usable (capturer w (captureCalls m + 1)))
                           (usable (capturer w (captureCalls m + 2))) in
        exists pause,
          (afterSuccess v previous r w m).1
            = NextPass {| currentDom := expected.1;
                          previousResultForBackend := previous;
                          iteration := iteration v + 1 |}
          /\ effects (afterSuccess v previous r w m).2
             = (effects m ++ expected.2 ++ pause)%list
          /\ (pause = [] \/ pause = [Delay 250]))
  /\ (forall w m v dom plan action t r,
        stopRequested m = false -> currentDom v = Some dom ->
        planner w (planCalls m) = PlanOk (Some plan) ->
        complete plan = false -> next_action plan = Some action ->
        actType action = Some t ->
        executor w (execCalls m) = Executed r -> success r = Some true ->
        loopPass v w m =
        afterSuccess
          {| currentDom := Some dom;
             previousResultForBackend := previousResultForBackend v;
             iteration := iteration v |}
          (Some (buildActionResultForBackend action r)) r w
          (executeActionOnPage action w
             (requestNextAction dom (previousResultForBackend v) w m).2).2)
  /\ (forall w m,
        effects (ensureDom None w m).2
        = (effects m ++ [Delay 1000; CaptureDOMFromPage])%list).
Proof.
  refine (conj _ (conj _ (conj _ (conj _ _)))).
  - intros result page H. unfold handleExecuteAction. rewrite H. simpl.
    rewrite orb_true_r. auto.
  - intros parseUrl v u t. unfold navigateToUrl.
    destruct (negb (truthy _)); simpl; [discriminate|].
    destruct (parseUrl _); simpl; [reflexivity|discriminate].
  - intros w m v previous r H expected.
    destruct (recovery_as_expected w m) as [D G]. fold expected in D, G.
    rewrite afterSuccess_run, H. cbn zeta.
    destruct (recoverFromNavigation w m) as [dom m1]. cbn [fst snd] in *.
    subst dom. destruct G as (E & _).
    destruct (stopRequested m1).
    + exists []. rewrite app_nil_r. auto.
    + exists [Delay 250].
      pose proof (delay_grows 250 w m1) as (E2 & _).
      rewrite E2, E, <- app_assoc. auto.
  - intros w m v dom plan action t r Hs Hd Hp Hc Ha Ht He Hok.
    exact (loopPass_executed w m v dom plan action t r true
             Hs Hd Hp Hc Ha Ht He Hok).
  - intros w m. unfold ensureDom, bind at 1.
    pose proof (delay_grows 1000 w m) as G1.
    destruct (delay 1000 w m) as [[] m1]. cbn [snd] in G1.
    unfold bind, ret.
    pose proof (capture_grows w m1) as G2.
    destruct (captureDOMFromPage w m1) as [c m2]. cbn [snd] in *.
    destruct (grows_trans _ _ _ _ _ _ _ G1 G2) as (E & _). exact E.
Qed.

Lemma C4_navigation_recovery_witness :
  exists pause,
    (afterSuccess fifthPass None pendingReply slowPage started).1
    = NextPass {| currentDom := Some oneElement;
                  previousResultForBackend := None; iteration := 4 + 1 |}
    /\ effects (afterSuccess fifthPass None pendingReply slowPage started).2
       = ([] ++ [Delay 2500; CaptureDOMFromPage; Delay 800;
                 CaptureDOMFromPage; Delay 1600; CaptureDOMFromPage]
             ++ pause)%list
    /\ (pause = [] \/ pause = [Delay 250]).
Proof.
  destruct C4_navigation_recovery as (_ & _ & K & _).
  exact (K slowPage started fifthPass None pendingReply eq_refl).
Defined.

End NavigationClaims.

Section ExecutorFacts.
Import Text Executor ExecutorSpec.
Local Open Scope list_scope.

(** [firstOption] finds the first option, in document order, that passes
    the test. *)
Lemma firstOption_first test pre o post :
  test o = true -> (forall p, In p pre -> test p = false) ->
  firstOption test (pre ++ o :: post) = Some o.
Proof.
  intros Ho Hpre. induction pre as [|p pre IH]; simpl.
  - rewrite Ho. reflexivity.
  - rewrite (Hpre p (or_introl eq_refl)). apply IH.
    intros q Hq. apply Hpre. now right.
Qed.

Lemma firstOption_none test opts :
  (forall p, In p opts -> test p = false) -> firstOption test opts = None.
Proof.
  induction opts as [|p opts IH]; intros H; simpl; [reflexivity|].
  rewrite (H p (or_introl eq_refl)). apply IH.
  intros q Hq. apply H. now right.
Qed.

Lemma selectOption_run sel request :
  toLowerCase (selTagName sel) = "select" ->
  selectOption sel request =
  match (match firstOption (exactly (requested request)) (options sel) with
         | Some o => Some o
         | None =>
             if truthy (requested request)
             then firstOption (loosely (requested request)) (options sel)
             else None
         end) with
  | Some o =>
      (Some o,
       {| selTagName := selTagName sel; options := options sel;
          selectedValue := optValue o;
          selCalls := selCalls sel
                      ++ [DispatchEvent "input"; DispatchEvent "change"] |})
  | None => (None, sel)
  end.
Proof.
  intros H. unfold selectOption. rewrite H. reflexivity.
Qed.

Lemma dispatched_app type a b :
  dispatched type (a ++ b) = dispatched type a + dispatched type b.
Proof.
  unfold dispatched. rewrite List.filter_app, length_app. reflexivity.
Qed.



End ExecutorFacts.

Section ExecutorClaims.
Import Text Executor ExecutorSpec.
Local Open Scope list_scope.

(** C6 (as amended): on a native select the request, trimmed, is matched
    in two passes over the options in document order: the first option
    whose value equals it or whose trimmed text equals it, whichever of
    the two tests it passes; failing that, and for a non-empty request,
    the first option whose text contains it case-insensitively. The
    option found becomes the selection and one input and one change
    notification are dispatched. With options ny/New York and ny2/NY,
    selecting NY finds the option whose text is NY. *)
Theorem C6_select_matching sel request :
  toLowerCase (selTagName sel) = "select" ->
  let value := requested request in
  let result := selectOption sel request in
  (forall pre o post,
      options sel = pre ++ o :: post -> exactly value o = true ->
      (forall p, In p pre -> exactly value p = false) ->
      result.1 = Some o)
  /\ (forall pre o post,
        (forall p, In p (options sel) -> exactly value p = false) ->
        truthy value = true ->
        options sel = pre ++ o :: post -> loosely value o = true ->
        (forall p, In p pre -> loosely value p = false) ->
        result.1 = Some o)
  /\ ((forall p, In p (options sel) -> exactly value p = false) ->
      (truthy value = false
       \/ forall p, In p (options sel) -> loosely value p = false) ->
      result = (None, sel))
  /\ (forall o, result.1 = Some o ->
        selectedValue result.2 = optValue o
        /\ options result.2 = options sel
        /\ selCalls result.2
           = selCalls sel ++ [DispatchEvent "input"; DispatchEvent "change"])
  /\ (selectOption citySelect (Some "NY")).1 = Some ny.
Proof.
  intros H value result.
  assert (R : result = _) by (exact (selectOption_run sel request H)).
  fold value in R.
  refine (conj _ (conj _ (conj _ (conj _ _)))).
  - intros pre o post E Ho Hpre. rewrite R, E.
    rewrite (firstOption_first _ pre o post Ho Hpre). reflexivity.
  - intros pre o post Hex Ht E Ho Hpre. rewrite R.
    rewrite (firstOption_none _ _ Hex), Ht, E.
    rewrite (firstOption_first _ pre o post Ho Hpre). reflexivity.
  - intros Hex [Ht|Hlo]; rewrite R, (firstOption_none _ _ Hex).
    + rewrite Ht. reflexivity.
    + rewrite (firstOption_none _ _ Hlo).
      destruct (truthy value); reflexivity.
  - intros o Ho. rewrite R in Ho |- *.
    destruct (match firstOption (exactly value) (options sel) with
              | Some o0 => Some o0
              | None => if truthy value
                        then firstOption (loosely value) (options sel)
                        else None
              end) as [x|]; simpl in *; [|discriminate].
    injection Ho as <-. auto.
  - reflexivity.
Qed.

Lemma C6_select_matching_witness :
  (selectOption citySelect (Some "NY")).1 = Some ny
  /\ selectedValue (selectOption citySelect (Some "NY")).2 = "ny2".
Proof.
  destruct (C6_select_matching citySelect (Some "NY") eq_refl)
    as (K1 & _ & _ & K4 & _).
  assert (F : (selectOption citySelect (Some "NY")).1 = Some ny).
  { apply (K1 [newYork] ny []); [reflexivity|reflexivity|].
    intros p [<-|[]]. reflexivity. }
  split; [exact F|]. apply (K4 ny F).
Defined.

(** C6, as stated, fails: with options 10/"5" and 5/"1" a request for 5
    is matched by the text of the first option, where matching by value
    before matching by text gives the second. *)
Lemma C6_counterexample :
  selectInThreeTiers (options quantitySelect) "5" = Some one
  /\ (selectOption quantitySelect (Some "5")).1 = Some five
  /\ five <> one.
Proof. repeat split. discriminate. Qed.

(** C8: typing "hello" into a plain text input, by either version of the
    type action, succeeds, leaves the value "hello", assigns it through
    the value setter of the prototype, and dispatches one input and one
    change notification. *)
Theorem C8_typing_hello others f active :
  toLowerCase (tagName f) = "input" -> inputType f = "text" ->
  isContentEditable f = false ->
  (exists f' added,
      executeType browser others (Some f) active (Some "hello")
        = (true, Some f')
      /\ value f' = "hello" /\ calls f' = calls f ++ added
      /\ dispatched "input" added = 1 /\ dispatched "change" added = 1
      /\ In (SetValue true "hello") added)
  /\ (exists f' added,
        executeTypeBasic browser (Some f) active (Some "hello")
          = Some (true, Some f')
        /\ value f' = "hello" /\ calls f' = calls f ++ added
        /\ dispatched "input" added = 1 /\ dispatched "change" added = 1
        /\ In (SetValue true "hello") added).
Proof.
  intros Htag Htype Hce. split.
  - unfold executeType.
    destruct (hasAutocompleteAttr f || String.eqb (role f) "combobox"
              || String.eqb (role f) "searchbox") eqn:A.
    + cbn [record focusElement ariaExpanded].
      destruct (String.eqb (ariaExpanded f) "false") eqn:X.
      * unfold typeIntoElement, setValueReactSafe, storeValue,
          focusElement, record, dispatchEvent. cbn -[toLowerCase String.eqb].
        rewrite Htag, Htype. cbn.
        eexists. exists ([ScrollIntoView; Focus; Sleep 100; Click; Sleep 150;
                          ScrollIntoView; Focus; SetValue true "hello";
                          DispatchEvent "input"; DispatchEvent "change";
                          Sleep 200]).
        split; [reflexivity|]. cbn. rewrite <- !app_assoc. cbn.
        repeat split; auto 20.
      * unfold typeIntoElement, setValueReactSafe, storeValue,
          focusElement, record, dispatchEvent. cbn -[toLowerCase String.eqb].
        rewrite Htag, Htype. cbn.
        eexists. exists ([ScrollIntoView; Focus; Sleep 100;
                          ScrollIntoView; Focus; SetValue true "hello";
                          DispatchEvent "input"; DispatchEvent "change";
                          Sleep 200]).
        split; [reflexivity|]. cbn. rewrite <- !app_assoc. cbn.
        repeat split; auto 20.
    + unfold typeIntoElement, setValueReactSafe, storeValue,
        focusElement, record, dispatchEvent. cbn -[toLowerCase String.eqb].
      rewrite Htag, Htype. cbn.
      eexists. exists ([ScrollIntoView; Focus; SetValue true "hello";
                        DispatchEvent "input"; DispatchEvent "change"]).
      split; [reflexivity|]. cbn. rewrite <- !app_assoc. cbn.
      repeat split; auto 20.
  - unfold executeTypeBasic, setElementValue, storeValue, focusElement,
      record, dispatchEvent. cbn -[toLowerCase String.eqb].
    rewrite Hce, Htag, Htype. cbn.
    eexists. exists ([ScrollIntoView; Focus; SetValue true "hello";
                      DispatchEvent "input"; DispatchEvent "change"]).
    split; [reflexivity|]. cbn. rewrite <- !app_assoc. cbn.
    repeat split; auto 20.
Qed.

Lemma C8_typing_hello_witness :
  exists f' added,
    executeType browser noOthers (Some textInput) None (Some "hello")
      = (true, Some f')
    /\ value f' = "hello" /\ calls f' = calls textInput ++ added
    /\ dispatched "input" added = 1 /\ dispatched "change" added = 1
    /\ In (SetValue true "hello") added.
Proof.
  exact (proj1 (C8_typing_hello noOthers textInput None
                  eq_refl eq_refl eq_refl)).
Defined.

End ExecutorClaims.

Section RegistrationFacts.
Import Text Registry Extractor.
Local Open Scope list_scope.


(** The element is registered, and under the uid [u]. *)
Let writes (u : string) (il : nat * Located) : bool :=
  negb (getElementTextThrows (element il.2))
  && String.eqb (generateUID il.2 il.1) u.

Lemma register_others now items : forall (reg : gmap string RegistryEntry) u,
  Forall (fun il => writes u il = false) items ->
  foldl (registerSerialized now) reg items !! u = reg !! u.
Proof.
  induction items as [|il items IH]; intros reg u F; simpl; [reflexivity|].
  apply Forall_cons in F. destruct F as [F1 F2].
  rewrite IH by exact F2. unfold registerSerialized, writes in *.
  destruct (getElementTextThrows (element il.2)); [reflexivity|].
  simpl in F1. apply String.eqb_neq in F1.
  unfold registerUID. apply lookup_insert_ne. exact F1.
Qed.





(** Two captures at work. Of the two radio buttons that share a uid the
    second one's locators are kept; the link is registered under the
    uid made with its position among the elements that passed the
    filter, and the list item before it, on which [getElementText]
    throws, is not registered. *)
Example captures_register :
  registerCaptured 0 ExtractorSpec.radioPage ∅ !! "elem_name_color"
  = Some {| Registry.selector := "input[name=" ++ dquote ++ "color"
                                   ++ dquote ++ "]";
            Registry.xpath := "//body[1]/input[2]";
            Registry.attributes :=
              [("name", "color"); ("type", "radio"); ("value", "blue")];
            Registry.text := "blue"; Registry.tag := "input";
            Registry.timestamp := 0; Registry.accessCount := 0 |}
  /\ registerCaptured 5 ExtractorSpec.listPage ∅ !! "elem_5juy3n_1"
     = Some {| Registry.selector := "a";
               Registry.xpath := "//body[1]/a[1]";
               Registry.attributes := [("href", "/home")];
               Registry.text := EmptyString; Registry.tag := "a";
               Registry.timestamp := 5; Registry.accessCount := 0 |}
  /\ registerCaptured 5 ExtractorSpec.listPage ∅ !! "elem_6hj0ur_0" = None
  /\ generateUID ExtractorSpec.numberedItem 0 = "elem_6hj0ur_0".
Proof. repeat split; vm_compute; reflexivity. Qed.

(** A capture writes only under the uids of its snapshot. *)
Lemma capture_spares now page (reg : gmap string RegistryEntry) u :
  ~ In u (map uid (elements (captureDOM now page))) ->
  registerCaptured now page reg !! u = reg !! u.
Proof.
  intros H. unfold registerCaptured. apply register_others.
  apply Forall_forall. intros [i0 l0] Hil.
  apply elem_of_lookup_imap in Hil.
  destruct Hil as (i & l & [= -> ->] & Hl).
  unfold writes. cbn [fst snd].
  destruct (getElementTextThrows (element l)) eqn:T; [reflexivity|].
  simpl. apply String.eqb_neq. intros U. apply H.
  destruct (serializeElement_returns l i T) as (r & E & Ur & _).
  apply in_map_iff. exists r. split; [congruence|].
  apply elements_sources. eauto.
Qed.

End RegistrationFacts.

Section RetryClaims.
Import Text Executor ExecutorSpec.
Local Open Scope list_scope.







End RetryClaims.

Section LoopFacts.
Import Text Orchestrator OrchestratorSpec.
Local Open Scope list_scope.

Lemma bind_run {A B} (c : M A) (k : A -> M B) w m :
  bind c k w m = k (c w m).1 w (c w m).2.
Proof. unfold bind. destruct (c w m). reflexivity. Qed.

(** *** Orderly computations *)

Lemma orderly_ret {A} (a : A) : orderly (ret a).
Proof.
  intros w m. unfold ret. cbn [snd].
  split; [reflexivity|]. split; [lia|]. split; [auto|].
  split; [auto|]. intros _ k Hk. lia.
Qed.

Lemma orderly_read : orderly readStopRequested.
Proof.
  intros w m. unfold readStopRequested. cbn [snd].
  split; [reflexivity|]. split; [lia|]. split; [auto|].
  split; [auto|]. intros _ k Hk. lia.
Qed.

Lemma orderly_bind {A B} (c : M A) (k : A -> M B) :
  orderly c -> (forall a, orderly (k a)) -> orderly (bind c k).
Proof.
  intros Hc Hk w m. rewrite bind_run.
  destruct (Hc w m) as (I1 & A1 & S1 & Q1 & C1).
  destruct (Hk (c w m).1 w (c w m).2) as (I2 & A2 & S2 & Q2 & C2).
  split; [congruence|]. split; [lia|]. split; [auto|]. split.
  - intros H. rewrite Q2, Q1; auto; intros j Hr; apply H; lia.
  - intros Hx j Hr Hclick.
    destruct (Nat.lt_ge_cases j (awaits (c w m).2)) as [L|G].
    + apply S2. apply (C1 Hx j); [lia|exact Hclick].
    + apply (C2 ltac:(congruence) j); [lia|exact Hclick].
Qed.

(** Any await whose bookkeeping keeps the flags and the await counter. *)
Lemma orderly_await e step :
  (forall m, isExecuting (step m) = isExecuting m
             /\ stopRequested (step m) = stopRequested m
             /\ awaits (step m) = awaits m) ->
  orderly (await e step).
Proof.
  intros Hstep w m. destruct (Hstep m) as (I & S & A).
  unfold await. cbn [snd]. rewrite click_isExecuting, click_awaits.
  cbn [isExecuting awaits]. rewrite I, A.
  split; [reflexivity|]. split; [lia|]. split.
  { intros H. apply click_monotone. cbn. congruence. }
  split.
  - intros H. rewrite (H (awaits m)) by lia. cbn. exact S.
  - intros Hx k Hr Hclick. assert (k = awaits m) as -> by lia.
    rewrite Hclick. cbn [deliverClick]. apply handleStop_sets. cbn.
    congruence.
Qed.

Lemma orderly_delay ms : orderly (delay ms).
Proof. apply orderly_await. auto. Qed.

Lemma orderly_capture : orderly captureDOMFromPage.
Proof.
  intros w m.
  pose proof (orderly_await CaptureDOMFromPage
    (fun m => {| isExecuting := isExecuting m;
                 stopRequested := stopRequested m; awaits := awaits m;
                 captureCalls := captureCalls m + 1;
                 planCalls := planCalls m; execCalls := execCalls m;
                 effects := effects m |}) ltac:(cbn; auto) w m) as H.
  unfold captureDOMFromPage.
  destruct (await _ _ w m) as [[] m1]. exact H.
Qed.

Lemma orderly_plan dom previous : orderly (requestNextAction dom previous).
Proof.
  intros w m.
  pose proof (orderly_await (RequestNextAction dom previous)
    (fun m => {| isExecuting := isExecuting m;
                 stopRequested := stopRequested m; awaits := awaits m;
                 captureCalls := captureCalls m;
                 planCalls := planCalls m + 1; execCalls := execCalls m;
                 effects := effects m |}) ltac:(cbn; auto) w m) as H.
  unfold requestNextAction.
  destruct (await _ _ w m) as [[] m1]. exact H.
Qed.

Lemma orderly_exec a : orderly (executeActionOnPage a).
Proof.
  intros w m.
  pose proof (orderly_await (ExecuteActionOnPage a)
    (fun m => {| isExecuting := isExecuting m;
                 stopRequested := stopRequested m; awaits := awaits m;
                 captureCalls := captureCalls m;
                 planCalls := planCalls m; execCalls := execCalls m + 1;
                 effects := effects m |}) ltac:(cbn; auto) w m) as H.
  unfold executeActionOnPage.
  destruct (await _ _ w m) as [[] m1]. exact H.
Qed.

Lemma orderly_captureAfterNavigation remaining :
  forall attempt, orderly (captureAfterNavigation remaining attempt).
Proof.
  induction remaining as [|remaining IH]; intros attempt;
    cbn [captureAfterNavigation].
  - apply orderly_ret.
  - apply orderly_bind.
    + destruct (1 <? attempt + 1)%nat;
        [apply orderly_delay|apply orderly_ret].
    + intros _. apply orderly_bind; [apply orderly_capture|].
      intros [msg| |[|] [data|] err]; try apply IH.
      destruct (0 <? length (Extractor.elements data))%nat;
        [apply orderly_ret|apply IH].
Qed.

Lemma orderly_recover : orderly recoverFromNavigation.
Proof.
  apply orderly_bind; [apply orderly_delay|].
  intros _. apply orderly_captureAfterNavigation.
Qed.

Lemma orderly_ensureDom current : orderly (ensureDom current).
Proof.
  destruct current as [dom|]; cbn [ensureDom]; [apply orderly_ret|].
  apply orderly_bind; [apply orderly_delay|]. intros _.
  apply orderly_bind; [apply orderly_capture|]. intros c.
  apply orderly_ret.
Qed.

Lemma orderly_afterFailure v previous r :
  orderly (afterFailure v previous r).
Proof.
  unfold afterFailure. destruct (isTransient r); [|apply orderly_ret].
  destruct (new_dom r) as [dom|].
  - apply orderly_bind; [apply orderly_delay|]. intros _. apply orderly_ret.
  - apply orderly_bind; [apply orderly_delay|]. intros _.
    apply orderly_bind; [apply orderly_capture|].
    intros [msg| |[|] [data|] err]; try apply orderly_ret.
    apply orderly_bind; [apply orderly_delay|]. intros _. apply orderly_ret.
Qed.

Lemma orderly_afterSuccess v previous r :
  orderly (afterSuccess v previous r).
Proof.
  unfold afterSuccess. apply orderly_bind.
  - destruct (navigated r); [apply orderly_recover|apply orderly_ret].
  - intros dom. apply orderly_bind; [apply orderly_read|]. intros stop.
    apply orderly_bind.
    + destruct (negb stop); [apply orderly_delay|apply orderly_ret].
    + intros _. apply orderly_ret.
Qed.

Lemma orderly_planAndExecute v dom : orderly (planAndExecute v dom).
Proof.
  unfold planAndExecute. apply orderly_bind; [apply orderly_plan|].
  intros [msg|[plan|]]; try apply orderly_ret.
  destruct (complete plan); [apply orderly_ret|].
  destruct (next_action plan) as [action|]; [|apply orderly_ret].
  destruct (actType action); [|apply orderly_ret].
  apply orderly_bind; [apply orderly_exec|].
  intros [msg| |r]; try apply orderly_ret.
  destruct (success r) as [[|]|]; try apply orderly_ret.
  - apply orderly_afterSuccess.
  - apply orderly_afterFailure.
Qed.

Lemma orderly_loopPass v : orderly (loopPass v).
Proof.
  unfold loopPass. apply orderly_bind; [apply orderly_read|].
  intros [|]; [apply orderly_ret|].
  apply orderly_bind; [apply orderly_ensureDom|].
  intros [msg|dom]; [apply orderly_ret|apply orderly_planAndExecute].
Qed.

End LoopFacts.

Section CouplingFacts.
Import Text Orchestrator OrchestratorSpec.
Local Open Scope list_scope.

Lemma shadows_weaken m2 m1 : shadows m2 m1 -> shadowsUpToPause m2 m1.
Proof.
  intros (_ & _ & C & P & X & E & _). unfold shadowsUpToPause. auto.
Qed.

Lemma coupled_ret {A} (a : A) : coupledBy shadows (ret a).
Proof. intros w m1 m2 H. unfold ret. cbn. auto. Qed.

Lemma coupled_bind {A B} R (c : M A) (k : A -> M B) :
  coupledBy shadows c -> (forall a, coupledBy R (k a)) ->
  coupledBy R (bind c k).
Proof.
  intros Hc Hk w m1 m2 H. rewrite !bind_run.
  destruct (Hc w m1 m2 H) as [E S]. rewrite E. apply Hk. exact S.
Qed.

Lemma coupled_weaken {A} (c : M A) :
  coupledBy shadows c -> coupledBy shadowsUpToPause c.
Proof.
  intros Hc w m1 m2 H. destruct (Hc w m1 m2 H) as [E S].
  split; [exact E|]. apply shadows_weaken. exact S.
Qed.

Lemma coupled_await e step :
  (forall m1 m2, shadows m2 m1 -> shadows (step m2) (step m1)) ->
  coupledBy shadows (await e step).
Proof.
  intros Hstep w m1 m2 H. unfold await. cbn [fst snd silence stopClicked].
  split; [reflexivity|].
  destruct (Hstep m1 m2 H) as (I & A & C & P & X & E & S).
  unfold shadows. autorewrite with machine. cbn.
  rewrite I, A, C, P, X, E. auto 10.
Qed.

Lemma coupled_delay ms : coupledBy shadows (delay ms).
Proof. apply coupled_await. auto. Qed.

Lemma coupled_capture : coupledBy shadows captureDOMFromPage.
Proof.
  intros w m1 m2 H.
  pose proof (coupled_await CaptureDOMFromPage
    (fun m => {| isExecuting := isExecuting m;
                 stopRequested := stopRequested m; awaits := awaits m;
                 captureCalls := captureCalls m + 1;
                 planCalls := planCalls m; execCalls := execCalls m;
                 effects := effects m |})) as K.
  assert (Hstep : forall a b, shadows b a -> shadows
    {| isExecuting := isExecuting b; stopRequested := stopRequested b;
       awaits := awaits b; captureCalls := captureCalls b + 1;
       planCalls := planCalls b; execCalls := execCalls b;
       effects := effects b |}
    {| isExecuting := isExecuting a; stopRequested := stopRequested a;
       awaits := awaits a; captureCalls := captureCalls a + 1;
       planCalls := planCalls a; execCalls := execCalls a;
       effects := effects a |}).
  { intros a b (I & A & C & P & X & E & S). unfold shadows. cbn.
    rewrite C. auto 10. }
  destruct (K Hstep w m1 m2 H) as [_ S].
  unfold captureDOMFromPage.
  destruct (await _ _ (silence w) m2) as [[] n2].
  destruct (await _ _ w m1) as [[] n1]. cbn [fst snd] in *.
  split; [|exact S]. cbn. destruct H as (_ & _ & -> & _). reflexivity.
Qed.

Lemma coupled_plan dom previous :
  coupledBy shadows (requestNextAction dom previous).
Proof.
  intros w m1 m2 H.
  pose proof (coupled_await (RequestNextAction dom previous)
    (fun m => {| isExecuting := isExecuting m;
                 stopRequested := stopRequested m; awaits := awaits m;
                 captureCalls := captureCalls m;
                 planCalls := planCalls m + 1; execCalls := execCalls m;
                 effects := effects m |})) as K.
  assert (Hstep : forall a b, shadows b a -> shadows
    {| isExecuting := isExecuting b; stopRequested := stopRequested b;
       awaits := awaits b; captureCalls := captureCalls b;
       planCalls := planCalls b + 1; execCalls := execCalls b;
       effects := effects b |}
    {| isExecuting := isExecuting a; stopRequested := stopRequested a;
       awaits := awaits a; captureCalls := captureCalls a;
       planCalls := planCalls a + 1; execCalls := execCalls a;
       effects := effects a |}).
  { intros a b (I & A & C & P & X & E & S). unfold shadows. cbn.
    rewrite P. auto 10. }
  destruct (K Hstep w m1 m2 H) as [_ S].
  unfold requestNextAction.
  destruct (await _ _ (silence w) m2) as [[] n2].
  destruct (await _ _ w m1) as [[] n1]. cbn [fst snd] in *.
  split; [|exact S]. cbn. destruct H as (_ & _ & _ & -> & _). reflexivity.
Qed.

Lemma coupled_exec a : coupledBy shadows (executeActionOnPage a).
Proof.
  intros w m1 m2 H.
  pose proof (coupled_await (ExecuteActionOnPage a)
    (fun m => {| isExecuting := isExecuting m;
                 stopRequested := stopRequested m; awaits := awaits m;
                 captureCalls := captureCalls m;
                 planCalls := planCalls m; execCalls := execCalls m + 1;
                 effects := effects m |})) as K.
  assert (Hstep : forall a b, shadows b a -> shadows
    {| isExecuting := isExecuting b; stopRequested := stopRequested b;
       awaits := awaits b; captureCalls := captureCalls b;
       planCalls := planCalls b; execCalls := execCalls b + 1;
       effects := effects b |}
    {| isExecuting := isExecuting a; stopRequested := stopRequested a;
       awaits := awaits a; captureCalls := captureCalls a;
       planCalls := planCalls a; execCalls := execCalls a + 1;
       effects := effects a |}).
  { intros x y (I & A & C & P & X & E & S). unfold shadows. cbn.
    rewrite X. auto 10. }
  destruct (K Hstep w m1 m2 H) as [_ S].
  unfold executeActionOnPage.
  destruct (await _ _ (silence w) m2) as [[] n2].
  destruct (await _ _ w m1) as [[] n1]. cbn [fst snd] in *.
  split; [|exact S]. cbn.
  destruct H as (_ & _ & _ & _ & -> & _). reflexivity.
Qed.

Lemma coupled_captureAfterNavigation remaining :
  forall attempt,
    coupledBy shadows (captureAfterNavigation remaining attempt).
Proof.
  induction remaining as [|remaining IH]; intros attempt;
    cbn [captureAfterNavigation].
  - apply coupled_ret.
  - apply coupled_bind.
    + destruct (1 <? attempt + 1)%nat;
        [apply coupled_delay|apply coupled_ret].
    + intros _. apply coupled_bind; [apply coupled_capture|].
      intros [msg| |[|] [data|] err]; try apply IH.
      destruct (0 <? length (Extractor.elements data))%nat;
        [apply coupled_ret|apply IH].
Qed.

Lemma coupled_recover : coupledBy shadows recoverFromNavigation.
Proof.
  apply coupled_bind; [apply coupled_delay|].
  intros _. apply coupled_captureAfterNavigation.
Qed.

Lemma coupled_ensureDom current : coupledBy shadows (ensureDom current).
Proof.
  destruct current as [dom|]; cbn [ensureDom]; [apply coupled_ret|].
  apply coupled_bind; [apply coupled_delay|]. intros _.
  apply coupled_bind; [apply coupled_capture|]. intros c.
  apply coupled_ret.
Qed.

Lemma coupled_afterFailure v previous r :
  coupledBy shadows (afterFailure v previous r).
Proof.
  unfold afterFailure. destruct (isTransient r); [|apply coupled_ret].
  destruct (new_dom r) as [dom|].
  - apply coupled_bind; [apply coupled_delay|]. intros _. apply coupled_ret.
  - apply coupled_bind; [apply coupled_delay|]. intros _.
    apply coupled_bind; [apply coupled_capture|].
    intros [msg| |[|] [data|] err]; try apply coupled_ret.
    apply coupled_bind; [apply coupled_delay|]. intros _. apply coupled_ret.
Qed.

(** The closing pause is the one place where the flag is read inside a
    pass: with the flag set the pause is skipped. *)
Lemma coupled_afterSuccess v previous r :
  coupledBy shadowsUpToPause (afterSuccess v previous r).
Proof.
  unfold afterSuccess. apply coupled_bind.
  - destruct (navigated r); [apply coupled_recover|apply coupled_ret].
  - intros dom w m1 m2 H. rewrite !bind_run.
    unfold readStopRequested. cbn [fst snd].
    destruct H as (I & A & C & P & X & E & S). rewrite S. cbn [negb].
    destruct (stopRequested m1) eqn:S1; cbn [negb].
    + unfold ret. cbn [fst snd]. split; [reflexivity|].
      unfold shadowsUpToPause.
      destruct (delay_grows 250 (silence w) m2) as (E2 & C2 & P2 & X2 & _).
      rewrite E2, C2, P2, X2, E. split; [lia|]. split; [lia|].
      split; [lia|]. right. auto.
    + unfold ret. cbn [fst snd]. split; [reflexivity|].
      apply shadows_weaken.
      apply (coupled_delay 250 w m1 m2). unfold shadows. auto 10.
Qed.

Lemma coupled_planAndExecute v dom :
  coupledBy shadowsUpToPause (planAndExecute v dom).
Proof.
  unfold planAndExecute. apply coupled_bind; [apply coupled_plan|].
  intros [msg|[plan|]]; try (apply coupled_weaken, coupled_ret).
  destruct (complete plan); [apply coupled_weaken, coupled_ret|].
  destruct (next_action plan) as [action|];
    [|apply coupled_weaken, coupled_ret].
  destruct (actType action); [|apply coupled_weaken, coupled_ret].
  apply coupled_bind; [apply coupled_exec|].
  intros [msg| |r]; try (apply coupled_weaken, coupled_ret).
  destruct (success r) as [[|]|]; try (apply coupled_weaken, coupled_ret).
  - apply coupled_afterSuccess.
  - apply coupled_weaken, coupled_afterFailure.
Qed.

Lemma loopPass_run v w m :
  loopPass v w m =
  if stopRequested m then (Break stopped, m)
  else bind (ensureDom (currentDom v))
         (fun ensured =>
            match ensured with
            | inl msg => ret (Break (failed msg))
            | inr dom => planAndExecute v dom
            end) w m.
Proof.
  unfold loopPass, bind at 1, readStopRequested.
  destruct (stopRequested m); reflexivity.
Qed.

(** A pass that starts with the flag down does what it would have done
    had nobody clicked, except for the closing pause. *)
Lemma loopPass_undisturbed w m v :
  stopRequested m = false ->
  (loopPass v (silence w) m).1 = (loopPass v w m).1
  /\ shadowsUpToPause (loopPass v (silence w) m).2 (loopPass v w m).2.
Proof.
  intros Hs. rewrite !loopPass_run, Hs.
  assert (K : coupledBy shadowsUpToPause
                (bind (ensureDom (currentDom v))
                   (fun ensured =>
                      match ensured with
                      | inl msg => ret (Break (failed msg))
                      | inr dom => planAndExecute v dom
                      end))).
  { apply coupled_bind; [apply coupled_ensureDom|].
    intros [msg|dom];
      [apply coupled_weaken, coupled_ret|apply coupled_planAndExecute]. }
  apply K. unfold shadows. auto 10.
Qed.

End CouplingFacts.

Section BoundFacts.
Import Text Orchestrator OrchestratorSpec.
Local Open Scope list_scope.

(** *** Computations without planner or executor calls *)

Lemma callFree_ret {A} (a : A) : callFree (ret a).
Proof. intros w m. cbn. auto. Qed.

Lemma callFree_bind {A B} (c : M A) (k : A -> M B) :
  callFree c -> (forall a, callFree (k a)) -> callFree (bind c k).
Proof.
  intros Hc Hk w m. rewrite bind_run.
  destruct (Hc w m) as [P1 X1].
  destruct (Hk (c w m).1 w (c w m).2) as [P2 X2]. split; congruence.
Qed.

Lemma callFree_delay ms : callFree (delay ms).
Proof.
  intros w m. destruct (delay_grows ms w m) as (_ & _ & P & X & _). auto.
Qed.

Lemma callFree_capture : callFree captureDOMFromPage.
Proof.
  intros w m. destruct (capture_grows w m) as (_ & _ & P & X & _). auto.
Qed.

Lemma callFree_read : callFree readStopRequested.
Proof. intros w m. cbn. auto. Qed.

Lemma callFree_captureAfterNavigation remaining :
  forall attempt, callFree (captureAfterNavigation remaining attempt).
Proof.
  induction remaining as [|remaining IH]; intros attempt;
    cbn [captureAfterNavigation].
  - apply callFree_ret.
  - apply callFree_bind.
    + destruct (1 <? attempt + 1)%nat;
        [apply callFree_delay|apply callFree_ret].
    + intros _. apply callFree_bind; [apply callFree_capture|].
      intros [msg| |[|] [data|] err]; try apply IH.
      destruct (0 <? length (Extractor.elements data))%nat;
        [apply callFree_ret|apply IH].
Qed.

Lemma callFree_ensureDom current : callFree (ensureDom current).
Proof.
  destruct current as [dom|]; cbn [ensureDom]; [apply callFree_ret|].
  apply callFree_bind; [apply callFree_delay|]. intros _.
  apply callFree_bind; [apply callFree_capture|]. intros c.
  apply callFree_ret.
Qed.

Lemma callFree_afterSuccess v previous r :
  callFree (afterSuccess v previous r).
Proof.
  unfold afterSuccess. apply callFree_bind.
  - destruct (navigated r); [|apply callFree_ret].
    apply callFree_bind; [apply callFree_delay|].
    intros _. apply callFree_captureAfterNavigation.
  - intros dom. apply callFree_bind; [apply callFree_read|]. intros stop.
    apply callFree_bind.
    + destruct (negb stop); [apply callFree_delay|apply callFree_ret].
    + intros _. apply callFree_ret.
Qed.

Lemma callFree_afterFailure v previous r :
  callFree (afterFailure v previous r).
Proof.
  unfold afterFailure. destruct (isTransient r); [|apply callFree_ret].
  destruct (new_dom r) as [dom|].
  - apply callFree_bind; [apply callFree_delay|]. intros _.
    apply callFree_ret.
  - apply callFree_bind; [apply callFree_delay|]. intros _.
    apply callFree_bind; [apply callFree_capture|].
    intros [msg| |[|] [data|] err]; try apply callFree_ret.
    apply callFree_bind; [apply callFree_delay|]. intros _.
    apply callFree_ret.
Qed.

Lemma plan_counts dom previous w m :
  (requestNextAction dom previous w m).1 = planner w (planCalls m)
  /\ planCalls (requestNextAction dom previous w m).2 = planCalls m + 1
  /\ execCalls (requestNextAction dom previous w m).2 = execCalls m.
Proof.
  unfold requestNextAction, await. cbn. autorewrite with machine. auto.
Qed.

Lemma exec_counts a w m :
  (executeActionOnPage a w m).1 = executor w (execCalls m)
  /\ planCalls (executeActionOnPage a w m).2 = planCalls m
  /\ execCalls (executeActionOnPage a w m).2 = execCalls m + 1.
Proof.
  unfold executeActionOnPage, await. cbn. autorewrite with machine. auto.
Qed.

(** With a planner that always acts and a page on which every action
    succeeds, a pass with a snapshot counts one iteration. *)
Lemma planAndExecute_counts w m v dom :
  alwaysActs w -> alwaysSucceeds w ->
  exists v',
    (planAndExecute v dom w m).1 = NextPass v'
    /\ iteration v' = iteration v + 1
    /\ planCalls (planAndExecute v dom w m).2 = planCalls m + 1
    /\ execCalls (planAndExecute v dom w m).2 = execCalls m + 1.
Proof.
  intros Hplan Hexec. unfold planAndExecute. rewrite bind_run.
  destruct (plan_counts dom (previousResultForBackend v) w m)
    as (R1 & P1 & X1).
  set (m1 := (requestNextAction dom (previousResultForBackend v) w m).2)
    in *.
  destruct (Hplan (planCalls m)) as (plan & action & t & Ep & Ec & Ea & Et).
  rewrite R1, Ep, Ec, Ea, Et. rewrite bind_run.
  destruct (exec_counts action w m1) as (R2 & P2 & X2).
  set (m2 := (executeActionOnPage action w m1).2) in *.
  destruct (Hexec (execCalls m1)) as (r & Er & Es).
  rewrite R2, Er, Es.
  destruct (callFree_afterSuccess
              {| currentDom := Some dom;
                 previousResultForBackend := previousResultForBackend v;
                 iteration := iteration v |}
              (Some (buildActionResultForBackend action r)) r w m2)
    as [P3 X3].
  rewrite P3, X3, P2, X2, P1, X1.
  rewrite afterSuccess_run. cbn [fst]. eexists. split; [reflexivity|].
  cbn. auto.
Qed.

Lemma loopPass_counts w m v :
  alwaysActs w -> alwaysSucceeds w -> alwaysCaptures w -> neverStopped w ->
  stopRequested m = false ->
  exists v',
    (loopPass v w m).1 = NextPass v'
    /\ iteration v' = iteration v + 1
    /\ planCalls (loopPass v w m).2 = planCalls m + 1
    /\ execCalls (loopPass v w m).2 = execCalls m + 1
    /\ stopRequested (loopPass v w m).2 = false.
Proof.
  intros Hplan Hexec Hcap Hquiet Hs.
  assert (F : stopRequested (loopPass v w m).2 = false).
  { destruct (orderly_loopPass v w m) as (_ & _ & _ & Q & _).
    rewrite Q; [exact Hs|]. intros k _. apply Hquiet. }
  rewrite loopPass_run, Hs in *. rewrite bind_run in *.
  destruct (callFree_ensureDom (currentDom v) w m) as [P0 X0].
  assert (E : exists dom, (ensureDom (currentDom v) w m).1 = inr dom).
  { destruct (currentDom v) as [dom|]; cbn [ensureDom].
    - exists dom. reflexivity.
    - rewrite bind_run, bind_run. unfold ret. cbn [fst].
      rewrite capture_reply.
      destruct (Hcap (captureCalls (delay 1000 w m).2)) as (data & e & ->).
      eauto. }
  destruct E as [dom E]. rewrite E in *.
  destruct (planAndExecute_counts w (ensureDom (currentDom v) w m).2 v dom
              Hplan Hexec) as (v' & R & I & P & X).
  exists v'. rewrite R, P, X, P0, X0. auto.
Qed.

(** One turn of the [while]. *)
Lemma whileLoop_step fuel v w m :
  whileLoop (S fuel) v w m =
  if (iteration v <? maxIterations)%nat then
    match (loopPass v w m).1 with
    | Break o => (Some (Finished o), (loopPass v w m).2)
    | Throw msg => (Some (Threw msg), (loopPass v w m).2)
    | NextPass v' => whileLoop fuel v' w (loopPass v w m).2
    end
  else (Some (Finished iterationLimit), m).
Proof.
  cbn [whileLoop]. destruct (iteration v <? maxIterations)%nat;
    [|reflexivity].
  rewrite bind_run. destruct (loopPass v w m).1; reflexivity.
Qed.

(** From any point of such a run the loop goes on to the limit. *)
Lemma whileLoop_to_limit w :
  alwaysActs w -> alwaysSucceeds w -> alwaysCaptures w -> neverStopped w ->
  forall n extra v m,
    iteration v + n = maxIterations -> stopRequested m = false ->
    (whileLoop (S (n + extra)) v w m).1 = Some (Finished iterationLimit)
    /\ planCalls (whileLoop (S (n + extra)) v w m).2 = planCalls m + n
    /\ execCalls (whileLoop (S (n + extra)) v w m).2 = execCalls m + n
    /\ isExecuting (whileLoop (S (n + extra)) v w m).2 = isExecuting m.
Proof.
  intros Hplan Hexec Hcap Hquiet.
  induction n as [|n IH]; intros extra v m Hi Hs; rewrite whileLoop_step.
  - replace (iteration v <? maxIterations)%nat with false
      by (symmetry; apply Nat.ltb_ge; lia).
    cbn. split; [reflexivity|]. split; [lia|]. split; [lia|reflexivity].
  - replace (iteration v <? maxIterations)%nat with true
      by (symmetry; apply Nat.ltb_lt; lia).
    destruct (loopPass_counts w m v Hplan Hexec Hcap Hquiet Hs)
      as (v' & R & I & P & X & S).
    rewrite R. cbn [Nat.add].
    destruct (IH extra v' (loopPass v w m).2 ltac:(lia) S)
      as (R' & P' & X' & I').
    rewrite R', P', X', I', P, X.
    destruct (orderly_loopPass v w m) as (Ix & _).
    split; [reflexivity|]. split; [lia|]. split; [lia|exact Ix].
Qed.

(** *** Counted iterations are successful actions *)

Lemma afterFailure_keeps_count v previous r w m :
  match (afterFailure v previous r w m).1 with
  | NextPass v' => iteration v' = iteration v
  | _ => True
  end.
Proof.
  unfold afterFailure. destruct (isTransient r); [|exact I].
  destruct (new_dom r) as [dom|].
  - rewrite bind_run. reflexivity.
  - rewrite bind_run, bind_run.
    destruct (captureDOMFromPage w (delay 1000 w m).2).1
      as [msg| |[|] [data|] err]; try exact I.
    rewrite bind_run. reflexivity.
Qed.

Lemma successes_step w n :
  successesBefore w (n + 1) = successesBefore w n + succeeded w n.
Proof. rewrite Nat.add_1_r. reflexivity. Qed.

Lemma planAndExecute_successes w m v dom :
  match (planAndExecute v dom w m).1 with
  | NextPass v' =>
      successesBefore w (execCalls (planAndExecute v dom w m).2)
        + iteration v
      = successesBefore w (execCalls m) + iteration v'
      /\ iteration v' <= iteration v + 1
  | _ =>
      successesBefore w (execCalls (planAndExecute v dom w m).2)
      = successesBefore w (execCalls m)
  end.
Proof.
  unfold planAndExecute. rewrite bind_run.
  destruct (plan_counts dom (previousResultForBackend v) w m)
    as (R1 & _ & X1).
  set (m1 := (requestNextAction dom (previousResultForBackend v) w m).2)
    in *.
  destruct (requestNextAction dom (previousResultForBackend v) w m).1
    as [msg|[plan|]]; cbn [ret fst snd]; try (rewrite X1; reflexivity).
  destruct (complete plan); cbn [ret fst snd];
    [rewrite X1; reflexivity|].
  destruct (next_action plan) as [action|]; cbn [ret fst snd];
    [|rewrite X1; reflexivity].
  destruct (actType action); cbn [ret fst snd];
    [|rewrite X1; reflexivity].
  rewrite bind_run.
  destruct (exec_counts action w m1) as (R2 & _ & X2).
  set (m2 := (executeActionOnPage action w m1).2) in *.
  assert (Q : succeeded w (execCalls m)
              = match (executeActionOnPage action w m1).1 with
                | Executed r =>
                    match success r with Some true => 1 | _ => 0 end
                | _ => 0
                end).
  { unfold succeeded. rewrite R2, X1. reflexivity. }
  destruct (executeActionOnPage action w m1).1 as [msg| |r];
    cbn [ret fst snd]; rewrite ?X2, ?X1, ?successes_step, ?Q; try lia.
  destruct (success r) as [[|]|]; cbn [ret fst snd];
    rewrite ?X2, ?X1, ?successes_step, ?Q; try lia.
  - destruct (callFree_afterSuccess
                {| currentDom := Some dom;
                   previousResultForBackend := previousResultForBackend v;
                   iteration := iteration v |}
                (Some (buildActionResultForBackend action r)) r w m2)
      as [_ X3].
    rewrite afterSuccess_run in *. cbn [fst snd] in *.
    rewrite X3, X2, X1, successes_step, Q. cbn [iteration]. lia.
  - pose proof (afterFailure_keeps_count
                  {| currentDom := Some dom;
                     previousResultForBackend := previousResultForBackend v;
                     iteration := iteration v |}
                  (Some (buildActionResultForBackend action r)) r w m2)
      as K.
    destruct (callFree_afterFailure
                {| currentDom := Some dom;
                   previousResultForBackend := previousResultForBackend v;
                   iteration := iteration v |}
                (Some (buildActionResultForBackend action r)) r w m2)
      as [_ X3].
    destruct (afterFailure _ _ r w m2).1 as [o|v'|msg];
      rewrite X3, X2, X1, successes_step, Q; cbn [iteration] in *; lia.
Qed.

Lemma loopPass_successes w m v :
  match (loopPass v w m).1 with
  | NextPass v' =>
      successesBefore w (execCalls (loopPass v w m).2) + iteration v
      = successesBefore w (execCalls m) + iteration v'
      /\ iteration v' <= iteration v + 1
  | _ =>
      successesBefore w (execCalls (loopPass v w m).2)
      = successesBefore w (execCalls m)
  end.
Proof.
  rewrite loopPass_run. destruct (stopRequested m); [reflexivity|].
  rewrite bind_run.
  destruct (callFree_ensureDom (currentDom v) w m) as [_ X0].
  destruct (ensureDom (currentDom v) w m).1 as [msg|dom];
    cbn [ret fst snd]; [rewrite X0; reflexivity|].
  pose proof (planAndExecute_successes w
                (ensureDom (currentDom v) w m).2 v dom) as K.
  rewrite X0 in K. exact K.
Qed.

(** However the collaborators behave and however long the loop is
    followed, the actions that executed successfully and the iterations
    counted at the start never add up to more than the limit. *)
Lemma whileLoop_successes w fuel : forall v m,
  iteration v <= maxIterations ->
  successesBefore w (execCalls (whileLoop fuel v w m).2) + iteration v
  <= successesBefore w (execCalls m) + maxIterations.
Proof.
  induction fuel as [|fuel IH]; intros v m Hi.
  - cbn. lia.
  - rewrite whileLoop_step.
    destruct (iteration v <? maxIterations)%nat eqn:L;
      [|cbn [snd]; lia].
    apply Nat.ltb_lt in L.
    pose proof (loopPass_successes w m v) as K.
    destruct (loopPass v w m).1 as [o|v'|msg]; cbn [snd]; try lia.
    destruct K as [K1 K2].
    assert (Hi' : iteration v' <= maxIterations) by lia.
    pose proof (IH v' (loopPass v w m).2 Hi'). lia.
Qed.

End BoundFacts.

Section LoopClaims.
Import Text Orchestrator OrchestratorSpec.
Local Open Scope list_scope.

Lemma finalize_run o w m :
  effects (finalizeExecution o w m).2 = effects m ++ [FinalizeExecution o]
  /\ planCalls (finalizeExecution o w m).2 = planCalls m
  /\ execCalls (finalizeExecution o w m).2 = execCalls m.
Proof.
  unfold finalizeExecution, await. cbn. autorewrite with machine. auto.
Qed.

Lemma startAutomationLoop_run fuel initial w m :
  startAutomationLoop fuel initial w m =
  let looped := whileLoop fuel {| currentDom := Some initial;
                                  previousResultForBackend := None;
                                  iteration := 0 |} w m in
  match looped.1 with
  | Some (Finished o) => (looped.1, (finalizeExecution o w looped.2).2)
  | _ => looped
  end.
Proof.
  unfold startAutomationLoop. rewrite bind_run. cbn zeta.
  destruct (whileLoop fuel _ w m) as [[[o|msg]|] m1]; reflexivity.
Qed.

(** While actions keep failing for want of their target, each failure
    bringing a fresh snapshot, the loop plans and executes again without
    counting an iteration: whatever number of passes is followed, it is
    still running and has executed that many actions. *)
Lemma stale_pass v m :
  stopRequested m = false -> (exists dom, currentDom v = Some dom) ->
  exists v',
    (loopPass v staleWorld m).1 = NextPass v'
    /\ iteration v' = iteration v
    /\ (exists dom, currentDom v' = Some dom)
    /\ stopRequested (loopPass v staleWorld m).2 = false
    /\ execCalls (loopPass v staleWorld m).2 = execCalls m + 1.
Proof.
  intros Hs [dom Hd].
  assert (F : stopRequested (loopPass v staleWorld m).2 = false).
  { destruct (orderly_loopPass v staleWorld m) as (_ & _ & _ & Q & _).
    rewrite Q; [exact Hs|]. reflexivity. }
  rewrite (loopPass_executed staleWorld m v dom keepGoing clickBuy "click"
             (reply false (Some "Element not found for UID elem_id_buy")
                    (Some oneElement)) false
             Hs Hd eq_refl eq_refl eq_refl eq_refl eq_refl eq_refl) in *.
  unfold afterFailure in *.
  change (isTransient _) with true in *. cbn [new_dom reply] in *.
  rewrite bind_run in *. unfold ret at 1 2. cbn [fst snd].
  eexists. split; [reflexivity|]. cbn [iteration currentDom].
  split; [reflexivity|]. split; [eauto|]. split; [exact F|].
  unfold ret. cbn [snd].
  destruct (callFree_delay 150 staleWorld
              (executeActionOnPage clickBuy staleWorld
                 (requestNextAction dom (previousResultForBackend v)
                    staleWorld m).2).2) as [_ X].
  rewrite X.
  destruct (exec_counts clickBuy staleWorld
              (requestNextAction dom (previousResultForBackend v)
                 staleWorld m).2) as (_ & _ & X2).
  destruct (plan_counts dom (previousResultForBackend v) staleWorld m)
    as (_ & _ & X1).
  rewrite X2, X1. reflexivity.
Qed.

Lemma transient_retries_are_not_counted fuel :
  forall v m,
    stopRequested m = false -> (exists dom, currentDom v = Some dom) ->
    iteration v < maxIterations ->
    (whileLoop fuel v staleWorld m).1 = None
    /\ execCalls (whileLoop fuel v staleWorld m).2 = execCalls m + fuel.
Proof.
  induction fuel as [|fuel IH]; intros v m Hs Hd Hi.
  - cbn. split; [reflexivity|lia].
  - rewrite whileLoop_step.
    replace (iteration v <? maxIterations)%nat with true
      by (symmetry; apply Nat.ltb_lt; lia).
    destruct (stale_pass v m Hs Hd) as (v' & R & I & D & S & X).
    rewrite R.
    destruct (IH v' (loopPass v staleWorld m).2 S D ltac:(lia)) as [R' X'].
    rewrite R', X', X. split; [reflexivity|lia].
Qed.

Lemma successes_bounded w initial fuel :
  successesBefore w
    (execCalls (startAutomationLoop fuel initial w started).2)
  <= maxIterations.
Proof.
  rewrite startAutomationLoop_run. cbn zeta.
  pose proof (whileLoop_successes w fuel
                {| currentDom := Some initial;
                   previousResultForBackend := None; iteration := 0 |}
                started ltac:(cbn; lia)) as K.
  cbn [iteration execCalls started successesBefore] in K.
  destruct (whileLoop fuel _ w started).1 as [[o|msg]|]; cbn [snd];
    try lia.
  destruct (finalize_run o w
              (whileLoop fuel
                 {| currentDom := Some initial;
                    previousResultForBackend := None; iteration := 0 |}
                 w started).2) as (_ & _ & X).
  rewrite X. lia.
Qed.

Lemma limit_reached w initial fuel :
  alwaysActs w -> alwaysSucceeds w -> alwaysCaptures w -> neverStopped w ->
  maxIterations < fuel ->
  let run := startAutomationLoop fuel initial w started in
  run.1 = Some (Finished iterationLimit)
  /\ planCalls run.2 = 20 /\ execCalls run.2 = 20
  /\ exists before,
       effects run.2 = before ++ [FinalizeExecution iterationLimit].
Proof.
  intros Hplan Hexec Hcap Hquiet Hfuel run. subst run.
  rewrite startAutomationLoop_run. cbn zeta.
  destruct (whileLoop_to_limit w Hplan Hexec Hcap Hquiet 20
              (fuel - 21)
              {| currentDom := Some initial;
                 previousResultForBackend := None; iteration := 0 |}
              started eq_refl eq_refl) as (R & P & X & _).
  replace (S (20 + (fuel - 21))) with fuel in *
    by (unfold maxIterations in Hfuel; lia).
  rewrite R. cbn [fst snd].
  destruct (finalize_run iterationLimit w
              (whileLoop fuel
                 {| currentDom := Some initial;
                    previousResultForBackend := None; iteration := 0 |}
                 w started).2) as (E & P' & X').
  rewrite P', X', P, X, E.
  repeat split; eauto.
Qed.

(** C3 (as amended): the loop counts an iteration for every action that
    executed successfully and starts no pass once 20 are counted, so in
    no run do more than 20 actions execute successfully. When the planner
    always supplies a further action, every action succeeds, every
    capture asked for succeeds and stop is never clicked, the loop ends
    in Failed with the iteration-limit message after exactly 20 planner
    calls and 20 executed actions. *)
Theorem C3_iteration_limit :
  maxIterations = 20
  /\ status iterationLimit = StatusError
  /\ outcomeMessage iterationLimit
     = "Reached iteration limit without completing the task"%string
  /\ (forall w initial fuel,
        successesBefore w
          (execCalls (startAutomationLoop fuel initial w started).2)
        <= maxIterations)
  /\ (forall w initial fuel,
        alwaysActs w -> alwaysSucceeds w -> alwaysCaptures w ->
        neverStopped w -> maxIterations < fuel ->
        let run := startAutomationLoop fuel initial w started in
        run.1 = Some (Finished iterationLimit)
        /\ planCalls run.2 = 20 /\ execCalls run.2 = 20
        /\ exists before,
             effects run.2 = before ++ [FinalizeExecution iterationLimit]).
Proof.
  split; [reflexivity|]. split; [reflexivity|]. split; [reflexivity|].
  split.
  - exact successes_bounded.
  - exact limit_reached.
Qed.

Lemma C3_iteration_limit_witness :
  (startAutomationLoop 21 oneElement slowPage started).1
    = Some (Finished iterationLimit)
  /\ execCalls (startAutomationLoop 21 oneElement slowPage started).2 = 20.
Proof.
  assert (A : alwaysActs slowPage).
  { intros k. exists keepGoing, clickBuy, "click"%string. auto. }
  assert (B : alwaysSucceeds slowPage).
  { intros k. eexists. split; reflexivity. }
  assert (C : alwaysCaptures slowPage).
  { intros k. unfold slowPage. cbn [capturer].
    destruct (k <? 2)%nat; do 2 eexists; reflexivity. }
  assert (D : neverStopped slowPage) by (intros k; reflexivity).
  assert (L : maxIterations < 21) by (unfold maxIterations; lia).
  destruct C3_iteration_limit as (_ & _ & _ & _ & K).
  destruct (K slowPage oneElement 21 A B C D L) as (R & _ & X & _).
  split; [exact R|exact X].
Defined.

(** C3, as stated, fails: with a planner that never signals completion
    the loop can end after a single action, Failed with the message of
    the page. *)
Lemma C3_counterexample :
  neverCompletes rejectingWorld
  /\ (startAutomationLoop 21 oneElement rejectingWorld started).1
     = Some (Finished (failed "Target is not a checkbox"))
  /\ failed "Target is not a checkbox" <> iterationLimit
  /\ execCalls (startAutomationLoop 21 oneElement rejectingWorld started).2
     = 1.
Proof.
  split; [intros k; reflexivity|].
  split; [reflexivity|]. split; [discriminate|reflexivity].
Qed.

End LoopClaims.

Section StopClaims.
Import Text Orchestrator OrchestratorSpec.
Local Open Scope list_scope.

Lemma whileLoop_stops fuel v w m :
  stopRequested m = true -> iteration v < maxIterations ->
  whileLoop (S fuel) v w m = (Some (Finished stopped), m).
Proof.
  intros Hs Hi. rewrite whileLoop_step.
  replace (iteration v <? maxIterations)%nat with true
    by (symmetry; apply Nat.ltb_lt; lia).
  rewrite loopPass_run, Hs. reflexivity.
Qed.

(** C5 (as amended): a click on stop only raises the flag; it cancels
    nothing. The pass in progress ends as it would have ended without
    the click, with the same planner, capture and executor calls, except
    that the closing pause of 250 ms is skipped. A click delivered during
    any await of the pass leaves the flag up when the pass ends. A pass
    that starts with the flag up ends the loop in Stopped before any
    further operation. So, when the pass in progress ends without an
    outcome of its own and fewer than 20 iterations are counted, the
    next pass ends the session in Stopped. *)
Theorem C5_cooperative_stop :
  (forall m,
      effects (handleStop m) = effects m
      /\ captureCalls (handleStop m) = captureCalls m
      /\ planCalls (handleStop m) = planCalls m
      /\ execCalls (handleStop m) = execCalls m
      /\ (isExecuting m = true -> stopRequested (handleStop m) = true))
  /\ (forall w m v, stopRequested m = false ->
        (loopPass v (silence w) m).1 = (loopPass v w m).1
        /\ shadowsUpToPause (loopPass v (silence w) m).2 (loopPass v w m).2)
  /\ (forall w m v k, isExecuting m = true ->
        awaits m <= k < awaits (loopPass v w m).2 ->
        stopClicked w k = true ->
        stopRequested (loopPass v w m).2 = true)
  /\ (forall w m v fuel,
        stopRequested m = true -> iteration v < maxIterations ->
        whileLoop (S fuel) v w m = (Some (Finished stopped), m))
  /\ (forall w m v v' fuel k,
        isExecuting m = true -> stopRequested m = false ->
        iteration v < maxIterations ->
        awaits m <= k < awaits (loopPass v w m).2 ->
        stopClicked w k = true ->
        (loopPass v w m).1 = NextPass v' ->
        iteration v' < maxIterations ->
        whileLoop (S (S fuel)) v w m
        = (Some (Finished stopped), (loopPass v w m).2)).
Proof.
  refine (conj _ (conj _ (conj _ (conj _ _)))).
  - intros m. destruct (handleStop_frame m) as (_ & _ & C & P & X & E).
    split; [exact E|]. split; [exact C|]. split; [exact P|].
    split; [exact X|]. apply handleStop_sets.
  - intros w m v Hs. apply loopPass_undisturbed. exact Hs.
  - intros w m v k Hx Hk Hclick.
    destruct (orderly_loopPass v w m) as (_ & _ & _ & _ & C).
    exact (C Hx k Hk Hclick).
  - intros w m v fuel Hs Hi. apply whileLoop_stops; assumption.
  - intros w m v v' fuel k Hx Hs Hi Hk Hclick Hpass Hi'.
    rewrite whileLoop_step.
    replace (iteration v <? maxIterations)%nat with true
      by (symmetry; apply Nat.ltb_lt; lia).
    rewrite Hpass. apply whileLoop_stops; [|exact Hi'].
    destruct (orderly_loopPass v w m) as (_ & _ & _ & _ & C).
    exact (C Hx k Hk Hclick).
Qed.

Lemma C5_cooperative_stop_witness :
  whileLoop 2 firstPass (stopDuring 1) started
  = (Some (Finished stopped), (loopPass firstPass (stopDuring 1) started).2).
Proof.
  destruct C5_cooperative_stop as (_ & _ & _ & _ & K).
  apply (K (stopDuring 1) started firstPass secondPass 0 1).
  - reflexivity.
  - reflexivity.
  - unfold maxIterations. simpl. lia.
  - vm_compute. lia.
  - reflexivity.
  - reflexivity.
  - unfold maxIterations. simpl. lia.
Defined.

(** C5, as stated, fails: stop is clicked while the planner call of the
    first pass is pending, the planner answers that the goal is reached,
    and the session ends in Success; and stop clicked during the
    twentieth action ends the session in Failed at the iteration limit.
    Neither session ends in Stopped. *)
Lemma C5_counterexample :
  (stopClicked stopThenDone 0 = true
   /\ (startAutomationLoop 21 oneElement stopThenDone started).1
      = Some (Finished {| status := StatusSuccess;
                          outcomeMessage := "Order placed";
                          outcomeConfidence := None |}))
  /\ (stopClicked (stopDuring 58) 58 = true
      /\ nth_error
           (effects (startAutomationLoop 21 oneElement (stopDuring 58)
                       started).2) 58
         = Some (ExecuteActionOnPage clickBuy)
      /\ (startAutomationLoop 21 oneElement (stopDuring 58) started).1
         = Some (Finished iterationLimit)).
Proof.
  split; (split; [reflexivity|]); [reflexivity|].
  split; vm_compute; reflexivity.
Qed.

End StopClaims.

Section RegistryLifetime.
Import Text Registry RegistrySpec RegistryCases.

Lemma expired_later now1 now2 e :
  (now1 <= now2)%Z -> expired now1 e = true -> expired now2 e = true.
Proof.
  unfold expired. intros H. rewrite !andb_true_iff, !Z.ltb_lt.
  intros [A B]. split; [lia|exact B].
Qed.

(** Two sweeps in a row leave what the later one alone would leave. *)
Lemma sweeps_compose (reg : gmap string RegistryEntry) now1 now2 :
  (now1 <= now2)%Z ->
  cleanupRegistry now2 (cleanupRegistry now1 reg) = cleanupRegistry now2 reg.
Proof.
  intros H. unfold cleanupRegistry. apply map_eq. intros uid.
  destruct (filter _ reg !! uid) as [e|] eqn:E.
  - apply map_lookup_filter_Some in E. destruct E as [E1 E2].
    apply map_lookup_filter_Some. split; [|exact E2].
    apply map_lookup_filter_Some. split; [exact E1|]. simpl in *.
    destruct (expired now1 e) eqn:X; [|reflexivity].
    rewrite (expired_later _ _ _ H X) in E2. discriminate.
  - apply map_lookup_filter_None. apply map_lookup_filter_None in E.
    destruct E as [E|E].
    + left. apply map_lookup_filter_None. now left.
    + right. intros x Hx. apply map_lookup_filter_Some in Hx.
      apply E. tauto.
Qed.

(** Look-ups of a uid change nothing of its entry but the counter,
    which counts them. *)
Lemma lookups_counted uid docs : forall (reg : gmap string RegistryEntry) e,
  reg !! uid = Some e ->
  foldl (fun reg doc => (getElementByUID uid doc reg).2) reg docs !! uid
  = Some {| selector := selector e; xpath := xpath e;
            attributes := attributes e; text := text e; tag := tag e;
            timestamp := timestamp e;
            accessCount := (accessCount e + N.of_nat (length docs))%N |}.
Proof.
  induction docs as [|doc docs IH]; intros reg e H; cbn [foldl length].
  - rewrite H. destruct e. cbn. do 2 f_equal. lia.
  - rewrite (IH _ (touch e)) by (apply lookup_touch; exact H).
    cbn. do 2 f_equal. lia.
Qed.

(** An entry outlives every sweep made up to thirty minutes after its
    registration, the thirtieth minute included, whether it was looked
    up in between or not. *)
Lemma fresh_entry_survives (reg : gmap string RegistryEntry)
    now now' uid s docs :
  (now' - now <= maxAge)%Z ->
  cleanupRegistry now'
    (foldl (fun reg doc => (getElementByUID uid doc reg).2)
           (registerUID now uid s reg) docs) !! uid
  = Some {| selector := sel_selector s; xpath := sel_xpath s;
            attributes := sel_attributes s; text := sel_text s;
            tag := sel_tag s; timestamp := now;
            accessCount := N.of_nat (length docs) |}.
Proof.
  intros H. unfold cleanupRegistry.
  apply map_lookup_filter_Some. split.
  - erewrite lookups_counted
      by (unfold registerUID; apply lookup_insert_eq).
    reflexivity.
  - cbn. unfold expired. cbn.
    destruct (Z.ltb_spec maxAge (now' - now)); [lia|reflexivity].
Qed.

(** What the text strategy returns is one of the elements of the
    recorded tag, and its cleaned text equals the cleaned recorded text
    or one contains the other. *)
Lemma findByText_sound doc text tag e :
  findByText doc text tag = Ok (Some e) ->
  exists els, querySelectorAll doc tag = Ok els /\ In e els
    /\ (exactMatch (cleanText text) e = true
        \/ partialMatch (cleanText text) e = true).
Proof.
  unfold findByText. destruct (querySelectorAll doc tag) as [els|m];
    [|discriminate].
  rewrite exactLoop_find, partialLoop_find. intros H. exists els.
  split; [reflexivity|].
  destruct (find (exactMatch _) els) as [x|] eqn:X.
  - injection H as ->. apply find_some in X. tauto.
  - injection H as H. apply find_some in H. tauto.
Qed.

Lemma includes_empty s : includes s EmptyString = true.
Proof. destruct s; reflexivity. Qed.

(** An element without text passes the containment test against any
    recorded text: when the tag query yields such an element the text
    strategy always returns some element. *)
Lemma findByText_blank_candidate doc text tag els e :
  querySelectorAll doc tag = Ok els -> In e els ->
  cleanText (textContent e) = EmptyString ->
  partialMatch (cleanText text) e = true
  /\ exists e', findByText doc text tag = Ok (Some e').
Proof.
  intros Q Hin Hblank.
  assert (P : partialMatch (cleanText text) e = true).
  { unfold partialMatch. rewrite Hblank, includes_empty. apply orb_true_r. }
  split; [exact P|].
  unfold findByText. rewrite Q, exactLoop_find, partialLoop_find.
  destruct (find (exactMatch _) els) as [x|]; [eauto|].
  destruct (find (partialMatch (cleanText text)) els) as [y|] eqn:F; [eauto|].
  exfalso. pose proof (find_none _ _ F e Hin) as N. congruence.
Qed.

(** X1. Sweeps over time. Two sweeps in a row leave what the later one
    alone would leave; and an entry outlives every sweep made up to
    thirty minutes after its registration, the thirtieth minute
    included, however many times its uid was looked up in between, none
    included: it then holds the locators and the time it was registered
    with, and its counter is the number of those look-ups. *)
Theorem X1_sweeps_over_time (reg : gmap string RegistryEntry) :
  (forall now1 now2, (now1 <= now2)%Z ->
     cleanupRegistry now2 (cleanupRegistry now1 reg)
     = cleanupRegistry now2 reg)
  /\ (forall now now' uid s docs, (now' - now <= maxAge)%Z ->
        cleanupRegistry now'
          (foldl (fun reg doc => (getElementByUID uid doc reg).2)
                 (registerUID now uid s reg) docs) !! uid
        = Some {| selector := sel_selector s; xpath := sel_xpath s;
                  attributes := sel_attributes s; text := sel_text s;
                  tag := sel_tag s; timestamp := now;
                  accessCount := N.of_nat (length docs) |}).
Proof.
  split.
  - intros now1 now2. apply sweeps_compose.
  - intros now now' uid s docs. apply fresh_entry_survives.
Qed.

Lemma X1_sweeps_over_time_witness :
  cleanupRegistry 2400000
    (cleanupRegistry 1800001 {[ "elem_1" := submitEntry ]})
  = cleanupRegistry 2400000 {[ "elem_1" := submitEntry ]}
  /\ cleanupRegistry 1800500 (registerUID 500 "elem_id_go" someSelectors ∅)
       !! "elem_id_go"
     = Some {| selector := "#go"; xpath := "//*[@id=go]";
               attributes := [("id", "go")]; text := "Go"; tag := "button";
               timestamp := 500; accessCount := 0 |}
  /\ cleanupRegistry 1800500
       (getElementByUID "elem_id_go" toolbarPage
          (getElementByUID "elem_id_go" submitPage
             (registerUID 500 "elem_id_go" someSelectors ∅)).2).2
       !! "elem_id_go"
     = Some {| selector := "#go"; xpath := "//*[@id=go]";
               attributes := [("id", "go")]; text := "Go"; tag := "button";
               timestamp := 500; accessCount := 2 |}.
Proof.
  split; [|split].
  - apply (proj1 (X1_sweeps_over_time {[ "elem_1" := submitEntry ]})). lia.
  - apply (proj2 (X1_sweeps_over_time ∅) 500%Z 1800500%Z "elem_id_go"
             someSelectors []).
    unfold maxAge. lia.
  - apply (proj2 (X1_sweeps_over_time ∅) 500%Z 1800500%Z "elem_id_go"
             someSelectors [submitPage; toolbarPage]).
    unfold maxAge. lia.
Defined.

(** X2. The text strategy. What it returns is one of the elements of the
    recorded tag, and its cleaned text equals the cleaned recorded text
    or one contains the other. An element without text passes the
    containment test against any recorded text: when the tag query
    yields such an element the strategy always returns some element. *)
Theorem X2_findByText_matches doc text tag :
  (forall e, findByText doc text tag = Ok (Some e) ->
     exists els, querySelectorAll doc tag = Ok els /\ In e els
       /\ (exactMatch (cleanText text) e = true
           \/ partialMatch (cleanText text) e = true))
  /\ (forall els e,
        querySelectorAll doc tag = Ok els -> In e els ->
        cleanText (textContent e) = EmptyString ->
        partialMatch (cleanText text) e = true
        /\ exists e', findByText doc text tag = Ok (Some e')).
Proof.
  split.
  - intros e. apply findByText_sound.
  - intros els e. apply findByText_blank_candidate.
Qed.

Lemma X2_findByText_matches_witness :
  (exists els, querySelectorAll submitPage "button" = Ok els
     /\ In submitButton els
     /\ (exactMatch (cleanText "Submit") submitButton = true
         \/ partialMatch (cleanText "Submit") submitButton = true))
  /\ (partialMatch (cleanText "Save changes") iconButton = true
      /\ exists e',
           findByText toolbarPage "Save changes" "button" = Ok (Some e')).
Proof.
  split.
  - apply (proj1 (X2_findByText_matches submitPage "Submit" "button")).
    reflexivity.
  - apply (proj2 (X2_findByText_matches toolbarPage "Save changes" "button")
             [iconButton; saveButton] iconButton).
    + reflexivity.
    + simpl. auto.
    + reflexivity.
Defined.

End RegistryLifetime.

Section TextFacts.
Import Text Extractor ExtractorProps.

Lemma string_length_app (a b : string) :
  String.length (a ++ b) = String.length a + String.length b.
Proof. induction a as [|c a IH]; simpl; [reflexivity|]. now rewrite IH. Qed.

Lemma length_slice0 n : forall s, String.length (slice0 n s) <= n.
Proof.
  unfold slice0. induction n as [|n IH]; intros [|c s]; simpl; try lia.
  specialize (IH s). lia.
Qed.

Lemma slice0_short n : forall s, String.length s <= n -> slice0 n s = s.
Proof.
  unfold slice0. induction n as [|n IH]; intros [|c s]; simpl; intros H;
    try reflexivity; try lia.
  rewrite IH by lia. reflexivity.
Qed.

Lemma allChars_app p a b :
  allChars p (a ++ b) = allChars p a && allChars p b.
Proof.
  induction a as [|c a IH]; simpl; [reflexivity|].
  rewrite IH. apply andb_assoc.
Qed.

Lemma allChars_slice0 p n : forall s,
  allChars p s = true -> allChars p (slice0 n s) = true.
Proof.
  unfold slice0. induction n as [|n IH]; intros [|c s]; simpl; auto.
  rewrite !andb_true_iff. intros [H1 H2]. auto.
Qed.

Lemma replaceNonToken_token s : allChars tokenChar (replaceNonToken s) = true.
Proof.
  induction s as [|c s IH]; simpl; [reflexivity|].
  rewrite IH, andb_true_r. destruct (tokenChar c) eqn:T; [exact T|reflexivity].
Qed.

Lemma replaceNonToken_id s :
  allChars tokenChar s = true -> replaceNonToken s = s.
Proof.
  induction s as [|c s IH]; simpl; [reflexivity|].
  rewrite andb_true_iff. intros [H1 H2]. rewrite H1, IH by exact H2.
  reflexivity.
Qed.

Lemma sanitizeToken_token s : allChars tokenChar (sanitizeToken s) = true.
Proof. apply allChars_slice0, replaceNonToken_token. Qed.

End TextFacts.

Section TokenBounds.
Import Text Extractor ExtractorSpec ExtractorProps.

(** X3. A sanitized token is at most 80 characters long, holds only
    letters, digits, underscore, colon, hyphen and full stop, and
    sanitizing it again changes nothing. *)
Theorem X3_sanitizeToken_safe s :
  String.length (sanitizeToken s) <= 80
  /\ allChars tokenChar (sanitizeToken s) = true
  /\ sanitizeToken (sanitizeToken s) = sanitizeToken s.
Proof.
  split; [apply length_slice0|]. split; [apply sanitizeToken_token|].
  unfold sanitizeToken at 1.
  rewrite replaceNonToken_id by apply sanitizeToken_token.
  apply slice0_short, length_slice0.
Qed.

(** X4. The text of an element is never longer than 100 characters. *)
Theorem X4_getElementText_bounded e : String.length (getElementText e) <= 100.
Proof.
  unfold getElementText.
  match goal with |- context [collapseSpaces (trim ?t)] =>
    generalize (collapseSpaces (trim t)) end.
  intros text. destruct (Nat.ltb_spec 100 (String.length text)) as [H|H].
  - rewrite string_length_app. pose proof (length_slice0 97 text) as L.
    unfold slice0 in L. simpl. lia.
  - exact H.
Qed.

End TokenBounds.

Section AttributeFacts.
Import Text Extractor ExtractorSpec ExtractorProps.

Lemma relevantAttrs_NoDup : NoDup relevantAttrs.
Proof. apply (bool_decide_unpack _). vm_compute. reflexivity. Qed.

Lemma keys_sublist (f : string -> option (string * string))
    (l : list string) :
  (forall a kv, f a = Some kv -> kv.1 = a) ->
  map fst (omap f l) `sublist_of` l.
Proof.
  intros F. induction l as [|a l IH]; simpl; [constructor|].
  destruct (f a) as [kv|] eqn:E; simpl.
  - rewrite (F _ _ E). now constructor.
  - now apply sublist_cons.
Qed.

Lemma kept_attributes e (l : list string) :
  Forall (fun kv => getAttribute (attrs e) kv.1 = Some kv.2
                    /\ truthy kv.2 = true
                    /\ String.length kv.2 < 200)
    (omap (fun attr =>
             match getAttribute (attrs e) attr with
             | Some v =>
                 if truthy v && (String.length v <? 200)%nat
                 then Some (attr, v) else None
             | None => None
             end) l).
Proof.
  induction l as [|a l IH]; [constructor|]. cbn [omap list_omap].
  destruct (getAttribute (attrs e) a) as [w|] eqn:G; [|exact IH].
  destruct (truthy w) eqn:T1; [|exact IH].
  destruct (Nat.ltb_spec (String.length w) 200) as [T2|T2]; [|exact IH].
  constructor; [|exact IH]. auto.
Qed.

(** X5. The attribute object of a record holds only names of the fixed
    list, each at most once and in the order of that list, and every
    value is the element's own, non-empty and shorter than 200
    characters. *)
Theorem X5_getRelevantAttributes_sound e :
  map fst (getRelevantAttributes e) `sublist_of` relevantAttrs
  /\ NoDup (map fst (getRelevantAttributes e))
  /\ Forall (fun kv => getAttribute (attrs e) kv.1 = Some kv.2
                       /\ truthy kv.2 = true
                       /\ String.length kv.2 < 200)
            (getRelevantAttributes e).
Proof.
  assert (S : map fst (getRelevantAttributes e) `sublist_of` relevantAttrs).
  { unfold getRelevantAttributes. apply keys_sublist. intros a kv.
    destruct (getAttribute (attrs e) a) as [v|]; [|discriminate].
    destruct (truthy v && _); [|discriminate]. now intros [= <-]. }
  split; [exact S|]. split.
  - eapply sublist_NoDup; [apply relevantAttrs_NoDup|exact S].
  - apply kept_attributes.
Qed.

End AttributeFacts.

Section HashFacts.
Import Text Extractor ExtractorSpec ExtractorProps.
Local Open Scope Z_scope.

Lemma wrap32_repr x : exists k, wrap32 x = x + k * 4294967296.
Proof.
  unfold wrap32. exists (- ((x + 2147483648) / 4294967296)).
  pose proof (Z.div_mod (x + 2147483648) 4294967296). lia.
Qed.

Lemma wrap32_shift x k : wrap32 (x + k * 4294967296) = wrap32 x.
Proof.
  unfold wrap32.
  replace (x + k * 4294967296 + 2147483648)
    with (x + 2147483648 + k * 4294967296) by lia.
  rewrite Z_mod_plus_full. reflexivity.
Qed.

Lemma wrap32_range x : -2147483648 <= wrap32 x < 2147483648.
Proof.
  unfold wrap32. pose proof (Z.mod_pos_bound (x + 2147483648) 4294967296).
  lia.
Qed.

Lemma hashFrom_polynomial str : forall h,
  hashFrom (wrap32 h) str = wrap32 (polynomial31 h str).
Proof.
  induction str as [|c r IH]; intros h; simpl; [reflexivity|].
  rewrite <- IH. f_equal.
  destruct (wrap32_repr h) as [k1 E1].
  destruct (wrap32_repr (wrap32 h * 32)) as [k2 E2].
  rewrite E2, E1.
  replace ((h + k1 * 4294967296) * 32 + k2 * 4294967296
           - (h + k1 * 4294967296) + Z.of_nat (nat_of_ascii c))
    with (31 * h + Z.of_nat (nat_of_ascii c)
          + (31 * k1 + k2) * 4294967296) by lia.
  apply wrap32_shift.
Qed.

(** X6. The hash that [simpleHash] prints is the polynomial of the
    character codes with multiplier 31, converted to a signed 32-bit
    integer once: converting after every character, as the loop does,
    changes nothing; and its absolute value is at most 2^31. *)
Theorem X6_simpleHash_polynomial str :
  hashFrom 0 str = wrap32 (polynomial31 0 str)
  /\ -2147483648 <= hashFrom 0 str < 2147483648
  /\ simpleHash str = toRadix 36 (Z.to_N (Z.abs (wrap32 (polynomial31 0 str)))).
Proof.
  assert (H : hashFrom 0 str = wrap32 (polynomial31 0 str)).
  { rewrite <- hashFrom_polynomial. reflexivity. }
  split; [exact H|]. split.
  - rewrite H. apply wrap32_range.
  - unfold simpleHash. rewrite H. reflexivity.
Qed.

End HashFacts.

Section UidFacts.
Import Text Extractor ExtractorSpec ExtractorProps.

Lemma digitChar_token d : (d < 36)%N -> tokenChar (digitChar d) = true.
Proof.
  intros H. rewrite <- (N2Nat.id d).
  assert (L : N.to_nat d < 36) by lia. clear H.
  generalize dependent (N.to_nat d). intros n L.
  do 36 (destruct n as [|n]; [reflexivity|]). lia.
Qed.

Lemma toRadixFuel_token fuel : forall n acc,
  allChars tokenChar acc = true ->
  allChars tokenChar (toRadixFuel fuel 36 n acc) = true.
Proof.
  assert (D : forall n acc, allChars tokenChar acc = true ->
            allChars tokenChar (String (digitChar (n mod 36)) acc) = true).
  { intros n acc H. cbn [allChars]. rewrite H, andb_true_r.
    apply digitChar_token. apply N.mod_lt. discriminate. }
  induction fuel as [|fuel IH]; intros n acc H; cbn [toRadixFuel].
  - apply D, H.
  - destruct (n / 36 =? 0)%N; [apply D, H|]. apply IH, D, H.
Qed.

Lemma simpleHash_token str : allChars tokenChar (simpleHash str) = true.
Proof. apply toRadixFuel_token. reflexivity. Qed.

Lemma uint_token d :
  allChars tokenChar (NilEmpty.string_of_uint d) = true.
Proof. induction d; simpl; auto. Qed.

Lemma decimal_token n : allChars tokenChar (decimal n) = true.
Proof. apply uint_token. Qed.

Lemma prefix_app_l p : forall a b,
  String.prefix p a = true -> String.prefix p (a ++ b) = true.
Proof.
  induction p as [|c p IH]; intros [|d a] b; simpl; intros H;
    try discriminate.
  - destruct b; reflexivity.
  - reflexivity.
  - destruct (ascii_dec c d); [apply IH, H|discriminate].
Qed.

(** X7. Whatever the element carries in its attributes, its uid is
    made of letters, digits, underscore, colon, hyphen and full stop
    only, and begins with elem_. *)
Theorem X7_generateUID_token l index :
  allChars tokenChar (generateUID l index) = true
  /\ String.prefix "elem_" (generateUID l index) = true.
Proof.
  unfold generateUID.
  destruct (truthy (firstTruthy _)).
  { split; [|reflexivity]. rewrite allChars_app, sanitizeToken_token.
    reflexivity. }
  destruct (truthy (id (element l))).
  { split; [|reflexivity]. rewrite allChars_app, sanitizeToken_token.
    reflexivity. }
  destruct (truthy (name (element l))).
  { split; [|reflexivity]. rewrite allChars_app, sanitizeToken_token.
    reflexivity. }
  split; [|repeat apply prefix_app_l; reflexivity].
  rewrite !allChars_app, simpleHash_token, decimal_token. reflexivity.
Qed.

(** X8. The uid of an element that carries a test hook, an id or a
    name depends on nothing but the element itself: neither on its
    position in the capture nor on what surrounds it. *)
Theorem X8_hooked_uid_stable l l' i j :
  fingerprinted l = false -> element l = element l' ->
  generateUID l i = generateUID l' j.
Proof.
  unfold fingerprinted, generateUID. intros F <-.
  destruct (truthy (firstTruthy _)); [reflexivity|].
  destruct (truthy (id (element l))); [reflexivity|].
  destruct (truthy (name (element l))); [reflexivity|].
  discriminate.
Qed.

Lemma X8_hooked_uid_stable_witness :
  generateUID (radio 1 "red" 0) 0
  = generateUID {| self := self (radio 1 "red" 0); ancestors := [] |} 7.
Proof.
  apply X8_hooked_uid_stable; reflexivity.
Defined.

End UidFacts.

Section SnapshotFacts.
Import Text Extractor ExtractorSpec ExtractorProps.

Lemma findScrollableFrom_take depth : forall chain,
  findScrollableFrom depth (firstn depth chain)
  = findScrollableFrom depth chain.
Proof.
  induction depth as [|d IH]; intros [|a chain]; simpl; try reflexivity.
  rewrite IH. reflexivity.
Qed.

(** X9. Visibility and actionability look at the six nearest ancestors
    and no further: what lies above them, hidden or not, has no
    influence. *)
Theorem X9_six_ancestors_decide s chain :
  isElementVisible {| self := s; ancestors := chain |}
  = isElementVisible {| self := s; ancestors := firstn 6 chain |}
  /\ isActionableElement {| self := s; ancestors := chain |}
     = isActionableElement {| self := s; ancestors := firstn 6 chain |}.
Proof.
  assert (V : isElementVisible {| self := s; ancestors := chain |}
              = isElementVisible {| self := s; ancestors := firstn 6 chain |}).
  { unfold isElementVisible, findScrollableAncestor, element.
    cbn [self ancestors].
    rewrite (findScrollableFrom_take 6 chain).
    rewrite firstn_firstn. reflexivity. }
  split; [exact V|].
  unfold isActionableElement. rewrite V. reflexivity.
Qed.

Lemma isElementVisible_true l :
  isElementVisible l = true ->
  hidden (style (element l)) = false
  /\ existsb (fun a => hidden (style a)) (firstn 4 (ancestors l)) = false.
Proof.
  unfold isElementVisible.
  destruct (hidden (style (element l))); [discriminate|].
  destruct (_ && negb (hasVisibleChild _)); [discriminate|].
  destruct (existsb _ _); [discriminate|]. auto.
Qed.

Lemma hidden_false st :
  hidden st = false ->
  display st <> "none" /\ visibility st <> "hidden" /\ opacity st <> "0".
Proof.
  unfold hidden. rewrite !orb_false_iff, !String.eqb_neq. tauto.
Qed.

Lemma isActionableElement_true l :
  isActionableElement l = true ->
  isElementVisible l = true
  /\ pointerEvents (style (element l)) <> "none"
  /\ disabled (element l) = false
  /\ attrOrEmpty (element l) "aria-disabled" <> "true".
Proof.
  unfold isActionableElement.
  destruct (isElementVisible l); [|discriminate]. simpl.
  destruct (String.eqb_spec (pointerEvents (style (element l))) "none");
    [discriminate|].
  destruct (disabled (element l)); [discriminate|]. simpl.
  destruct (String.eqb_spec (attrOrEmpty (element l) "aria-disabled") "true");
    [discriminate|].
  auto.
Qed.

(** X10. Every record of a snapshot was made from a collected element
    that is not disabled (by property or by aria-disabled), takes
    pointer events, is itself neither hidden nor fully transparent, and
    has no hidden or fully transparent element among its four nearest
    ancestors. *)
Theorem X10_snapshot_excludes now page r :
  In r (elements (captureDOM now page)) ->
  exists l, In l (collected page) /\ source r = node (element l)
    /\ disabled (element l) = false
    /\ attrOrEmpty (element l) "aria-disabled" <> "true"
    /\ pointerEvents (style (element l)) <> "none"
    /\ visibility (style (element l)) <> "hidden"
    /\ opacity (style (element l)) <> "0"
    /\ Forall (fun a => display (style a) <> "none"
                        /\ visibility (style a) <> "hidden"
                        /\ opacity (style a) <> "0")
              (firstn 4 (ancestors l)).
Proof.
  intros H. apply elements_sources in H. destruct H as (i & l & Hl & Hr).
  assert (Hin : In l (collected page) /\ isActionableElement l = true).
  { apply interactive_In. eauto. }
  destruct Hin as [Hin Hact]. exists l. split; [exact Hin|].
  apply serializeElement_Some in Hr. destruct Hr as (_ & _ & Hr).
  split; [exact Hr|].
  apply isActionableElement_true in Hact.
  destruct Hact as (V & P & D & A).
  apply isElementVisible_true in V. destruct V as [V1 V2].
  apply hidden_false in V1. destruct V1 as (_ & V1 & V1').
  repeat (split; [assumption|]).
  apply Forall_forall. intros a Ha. apply hidden_false.
  destruct (hidden (style a)) eqn:Hd; [|reflexivity].
  rewrite <- V2. symmetry. apply existsb_exists. exists a.
  split; [apply list_elem_of_In, Ha|exact Hd].
Qed.

Lemma X10_snapshot_excludes_witness :
  exists l, In l (collected directPage) /\ 21 = node (element l)
    /\ disabled (element l) = false
    /\ attrOrEmpty (element l) "aria-disabled" <> "true"
    /\ pointerEvents (style (element l)) <> "none"
    /\ visibility (style (element l)) <> "hidden"
    /\ opacity (style (element l)) <> "0"
    /\ Forall (fun a => display (style a) <> "none"
                        /\ visibility (style a) <> "hidden"
                        /\ opacity (style a) <> "0")
              (firstn 4 (ancestors l)).
Proof.
  apply (X10_snapshot_excludes 0 directPage
           {| uid := generateUID directLink 0; tag := "a";
              text := EmptyString; attributes := [("href", "/home")];
              recTabIndex := 0; source := 21 |}).
  vm_compute. left. reflexivity.
Defined.



End SnapshotFacts.

Section ListenerFacts.
Import Listeners.

Lemma add_spec x set :
  NoDup set -> NoDup (add x set) /\ In x (add x set)
  /\ length (add x set) <= length set + 1
  /\ (forall y, In y set -> In y (add x set)).
Proof.
  intros N. unfold add. destruct (existsb (Nat.eqb x) set) eqn:E.
  - apply existsb_exists in E. destruct E as (y & Hy & Exy).
    apply Nat.eqb_eq in Exy. subst y.
    refine (conj N (conj Hy (conj _ (fun y H => H)))). lia.
  - refine (conj _ (conj _ (conj _ _))).
    + apply NoDup_app. split; [exact N|]. split; [|apply NoDup_singleton].
      intros y Hy Hy'. apply list_elem_of_singleton in Hy'. subst y.
      apply list_elem_of_In in Hy.
      assert (C : existsb (Nat.eqb x) set = true).
      { apply existsb_exists. exists x. split; [exact Hy|apply Nat.eqb_refl]. }
      congruence.
    + apply in_or_app. right. now left.
    + rewrite length_app. simpl. lia.
    + intros y Hy. apply in_or_app. now left.
Qed.

Lemma NoDup_skipn {A} n (l : list A) : NoDup l -> NoDup (skipn n l).
Proof.
  intros N. rewrite <- (firstn_skipn n l) in N.
  apply NoDup_app in N. tauto.
Qed.

Lemma last_survives x set :
  In x (add x set) -> capacity < length (add x set) ->
  length set <= capacity -> In x (skipn compaction (add x set)).
Proof.
  unfold add. destruct (existsb (Nat.eqb x) set); intros Hin L Hs.
  - lia.
  - rewrite length_app in L. simpl in L.
    rewrite skipn_app. apply in_or_app. right.
    replace (compaction - length set) with 0.
    + now left.
    + unfold capacity, compaction in *. lia.
Qed.

Lemma addEventListener_invariant b x set :
  NoDup set -> length set <= capacity ->
  NoDup (addEventListener b x set)
  /\ length (addEventListener b x set) <= capacity
  /\ (b = true -> In x (addEventListener b x set)).
Proof.
  intros N L. unfold addEventListener. destruct b; [|split; [|split]; auto;
    discriminate].
  destruct (add_spec x set N) as (N' & I' & L' & _).
  destruct (Nat.ltb_spec capacity (length (add x set))) as [C|C].
  - split; [apply NoDup_skipn, N'|]. split.
    + rewrite length_skipn. unfold capacity, compaction in *. lia.
    + intros _. apply last_survives; assumption.
  - auto.
Qed.

Lemma after_invariant calls :
  NoDup (after calls) /\ length (after calls) <= capacity.
Proof.
  unfold after. induction calls as [|c calls IH] using rev_ind.
  - simpl. split; [constructor|unfold capacity; lia].
  - rewrite foldl_app. simpl. destruct IH as [N L].
    destruct (addEventListener_invariant c.1 c.2 _ N L) as (N' & L' & _).
    auto.
Qed.

(** X12. However many listeners are added, the list of elements with
    run-time listeners holds each element once, never more than 2000 of
    them, and always the element the last listener was added to. *)
Theorem X12_listener_list_capped calls target :
  NoDup (after calls)
  /\ length (after calls) <= 2000
  /\ In target (after (calls ++ [(true, target)])).
Proof.
  destruct (after_invariant calls) as [N L].
  split; [exact N|]. split; [exact L|].
  unfold after. rewrite foldl_app. simpl.
  apply (addEventListener_invariant true target _ N L). reflexivity.
Qed.

End ListenerFacts.

Section StatisticsFacts.
Import Text Extractor Statistics.

Lemma bump_other (acc : gmap string Tally) t t' :
  t' <> t -> bump acc t' !! t = acc !! t.
Proof.
  intros Hne. unfold bump.
  destruct (acc !! t') as [[n|s]|].
  - apply lookup_insert_ne. exact Hne.
  - destruct (truthy s); apply lookup_insert_ne; exact Hne.
  - destruct (inherited t') as [s|].
    + destruct (String.eqb t' "__proto__"); [reflexivity|].
      apply lookup_insert_ne. exact Hne.
    + apply lookup_insert_ne. exact Hne.
Qed.

Lemma plusOnes_snoc n : forall s, plusOnes n s ++ "1" = plusOnes n (s ++ "1").
Proof. induction n as [|n IH]; intros s; [reflexivity|]. apply IH. Qed.

Lemma truthy_snoc s : truthy (s ++ "1") = true.
Proof. destruct s; reflexivity. Qed.

Lemma truthy_plusOnes n : forall s, truthy (plusOnes (S n) s) = true.
Proof.
  induction n as [|n IH]; intros s; [apply truthy_snoc|]. apply IH.
Qed.

(** What is kept under [t] once [k] elements of that type are counted. *)
Let kept (t : string) (k : nat) : option Tally :=
  match k with
  | O => None
  | S _ =>
      match inherited t with
      | None => Some (Count k)
      | Some s =>
          if String.eqb t "__proto__" then None else Some (Text (plusOnes k s))
      end
  end.

Lemma bump_kept (acc : gmap string Tally) t k :
  acc !! t = kept t k -> bump acc t !! t = kept t (S k).
Proof.
  unfold bump, kept. intros H.
  destruct (inherited t) as [s|] eqn:I.
  - destruct (String.eqb t "__proto__") eqn:E.
    + assert (N : acc !! t = None) by (destruct k; exact H).
      rewrite N. exact N.
    + destruct k as [|k]; rewrite H.
      * apply lookup_insert_eq.
      * rewrite truthy_plusOnes, lookup_insert_eq, plusOnes_snoc.
        reflexivity.
  - destruct k as [|k]; rewrite H.
    + apply lookup_insert_eq.
    + rewrite lookup_insert_eq. do 2 f_equal. lia.
Qed.

Lemma byType_kept t els : forall (acc : gmap string Tally) k,
  acc !! t = kept t k ->
  foldl (fun byType el => bump byType (elType el)) acc els !! t
  = kept t (k + ofType t els).
Proof.
  unfold ofType.
  induction els as [|el els IH]; intros acc k H; cbn [foldl List.filter].
  - cbn [length]. rewrite Nat.add_0_r. exact H.
  - destruct (String.eqb_spec (elType el) t) as [E|Hne].
    + cbn [length]. rewrite E.
      replace (k + S (length (List.filter
                 (fun el => String.eqb (elType el) t) els)))
        with (S k + length (List.filter
                 (fun el => String.eqb (elType el) t) els)) by lia.
      apply IH. apply bump_kept. exact H.
    + apply IH. rewrite bump_other by exact Hne. exact H.
Qed.

(** X13. In the statistics of a snapshot no more elements are in the
    viewport than there are elements. Under a type that names no
    property of [Object.prototype] the count kept is the number of
    elements of that type, and nothing is kept when there are none.
    Under a type that names a method of [Object.prototype], such as
    [constructor], a string is kept instead: the text of the method
    followed by one "1" for each element. Under [__proto__] nothing is
    kept. *)
Theorem X13_statistics_count elements t :
  let stats := getDOMStatistics elements in
  total stats = length elements
  /\ inViewport stats <= total stats
  /\ (inherited t = None ->
        byType stats !! t
        = (if (ofType t elements =? 0)%nat then None
           else Some (Count (ofType t elements))))
  /\ (forall s, inherited t = Some s -> t <> "__proto__" ->
        byType stats !! t
        = (if (ofType t elements =? 0)%nat then None
           else Some (Text (plusOnes (ofType t elements) s))))
  /\ byType stats !! "__proto__" = None.
Proof.
  cbn zeta. unfold getDOMStatistics. cbn [total inViewport byType].
  split; [reflexivity|]. split; [apply List.filter_length_le|].
  pose proof (byType_kept t elements ∅ 0 (lookup_empty _)) as K.
  pose proof (byType_kept "__proto__" elements ∅ 0 (lookup_empty _)) as P.
  cbn [Nat.add] in K, P. unfold kept in K, P.
  split; [|split].
  - intros I. rewrite K, I.
    destruct (ofType t elements); reflexivity.
  - intros s I Hne. rewrite K, I. apply String.eqb_neq in Hne. rewrite Hne.
    destruct (ofType t elements); reflexivity.
  - rewrite P. destruct (ofType "__proto__" elements); reflexivity.
Qed.

Lemma X13_statistics_count_witness :
  byType (getDOMStatistics sampleElements) !! "button" = Some (Count 1)
  /\ byType (getDOMStatistics sampleElements) !! "constructor"
     = Some (Text (plusOnes 2 "function Object() { [native code] }")).
Proof.
  split.
  - apply (proj1 (proj2 (proj2 (X13_statistics_count sampleElements
                                  "button")))).
    reflexivity.
  - apply (proj1 (proj2 (proj2 (proj2
             (X13_statistics_count sampleElements "constructor"))))).
    + reflexivity.
    + discriminate.
Defined.

(** The statistics of the sample, computed. *)
Example constructor_is_not_counted :
  byType (getDOMStatistics sampleElements) !! "button" = Some (Count 1)
  /\ byType (getDOMStatistics sampleElements) !! "constructor"
     = Some (Text "function Object() { [native code] }11")
  /\ byType (getDOMStatistics sampleElements) !! "__proto__" = None
  /\ total (getDOMStatistics sampleElements) = 4.
Proof. repeat split; vm_compute; reflexivity. Qed.

End StatisticsFacts.

Section CaptureFrame.
Import Text Registry Extractor.

(** X14. A capture writes only the entries of the uids of its own
    snapshot: every other entry of the registry, for an element that
    has left the page say, is left as it was. *)
Theorem X14_capture_keeps_others now page (reg : gmap string RegistryEntry)
    u :
  ~ In u (map uid (elements (captureDOM now page))) ->
  registerCaptured now page reg !! u = reg !! u.
Proof. apply capture_spares. Qed.

Lemma X14_capture_keeps_others_witness :
  registerCaptured 0 ExtractorSpec.radioPage
      {[ "elem_id_gone" := RegistrySpec.submitEntry ]} !! "elem_id_gone"
  = ({[ "elem_id_gone" := RegistrySpec.submitEntry ]}
       : gmap string RegistryEntry) !! "elem_id_gone".
Proof.
  apply X14_capture_keeps_others. vm_compute.
  intros [H|[H|[]]]; discriminate.
Defined.

End CaptureFrame.

Section MessageFacts.
Import Text Registry Messages.

Lemma In_take {A} n (l : list A) x : In x (firstn n l) -> In x l.
Proof.
  intros H. rewrite <- (firstn_skipn n l). apply in_or_app. now left.
Qed.

Lemma setAdd_spec x set :
  NoDup set -> NoDup (setAdd x set)
  /\ (forall y, In y (setAdd x set) <-> y = x \/ In y set).
Proof.
  intros N. unfold setAdd. destruct (existsb (String.eqb x) set) eqn:E.
  - split; [exact N|]. intros y. split; [auto|].
    intros [->|H]; [|exact H].
    apply existsb_exists in E. destruct E as (z & Hz & Ez).
    apply String.eqb_eq in Ez. now subst z.
  - split.
    + apply NoDup_app. split; [exact N|]. split; [|apply NoDup_singleton].
      intros y Hy Hy'. apply list_elem_of_singleton in Hy'. subst y.
      apply list_elem_of_In in Hy.
      assert (C : existsb (String.eqb x) set = true).
      { apply existsb_exists. exists x. split; [exact Hy|apply String.eqb_refl]. }
      congruence.
    + intros y. rewrite in_app_iff. simpl. intuition auto.
Qed.

Lemma setFrom_from values : forall set,
  NoDup set ->
  NoDup (foldl (fun set x => setAdd x set) set values)
  /\ forall y, In y (foldl (fun set x => setAdd x set) set values)
               <-> In y set \/ In y values.
Proof.
  induction values as [|v values IH]; intros set N; simpl.
  - split; [exact N|]. intros y. tauto.
  - destruct (setAdd_spec v set N) as [N' I'].
    destruct (IH _ N') as [N'' I'']. split; [exact N''|].
    intros y. rewrite I'', I'. intuition auto.
Qed.

Lemma addMessages_spec found : forall messages,
  NoDup messages ->
  NoDup (addMessages messages found)
  /\ forall y, In y (addMessages messages found) ->
       In y messages
       \/ (truthy y = true /\ exists el, In el found /\ y = textOf el).
Proof.
  unfold addMessages.
  induction found as [|el found IH]; intros messages N; simpl.
  - split; [exact N|]. auto.
  - destruct (truthy (textOf el)) eqn:T.
    + destruct (setAdd_spec (textOf el) messages N) as [N' I'].
      destruct (IH _ N') as [N'' I'']. split; [exact N''|].
      intros y Hy. destruct (I'' y Hy) as [H|(Ty & el' & H1 & H2)].
      * apply I' in H. destruct H as [->|H]; [|now left].
        right. split; [exact T|]. exists el. auto.
      * right. split; [exact Ty|]. exists el'. auto.
    + destruct (IH _ N) as [N'' I'']. split; [exact N''|].
      intros y Hy. destruct (I'' y Hy) as [H|(Ty & el' & H1 & H2)];
        [now left|].
      right. split; [exact Ty|]. exists el'. auto.
Qed.

Lemma collectFrom_spec q selectors : forall messages result,
  NoDup messages ->
  collectFrom q selectors messages = Ok result ->
  NoDup result
  /\ forall y, In y result ->
       In y messages
       \/ (truthy y = true
           /\ exists selector found el,
                In selector selectors /\ q selector = Ok found
                /\ In el found /\ y = textOf el).
Proof.
  induction selectors as [|selector rest IH]; intros messages result N;
    simpl.
  - intros [= <-]. auto.
  - destruct (q selector) as [found|m] eqn:Q; [|discriminate].
    intros H. destruct (addMessages_spec found messages N) as [N' I'].
    destruct (IH _ _ N' H) as [N'' I'']. split; [exact N''|].
    intros y Hy. destruct (I'' y Hy) as [Hm|(T & s' & f' & el & A & B & C & D)].
    + destruct (I' y Hm) as [Hm'|(T & el & A & B)]; [now left|].
      right. split; [exact T|]. exists selector, found, el. auto.
    + right. split; [exact T|]. exists s', f', el. auto.
Qed.

(** X15. At most five banner messages are reported, no two of them
    equal, none of them empty, and each is the normalized text of an
    element that one of the selectors matched. *)
Theorem X15_collectMessages_sound q selectors messages :
  collectMessages q selectors = Ok messages ->
  length messages <= 5
  /\ NoDup messages
  /\ Forall (fun y =>
       truthy y = true
       /\ exists selector found el,
            In selector selectors /\ q selector = Ok found
            /\ In el found /\ y = textOf el) messages.
Proof.
  unfold collectMessages.
  destruct (collectFrom q selectors []) as [all|m] eqn:C; [|discriminate].
  intros [= <-].
  destruct (collectFrom_spec q selectors [] all (NoDup_nil_2 (A:=string)) C) as [N I].
  split; [rewrite length_take; lia|]. split.
  - rewrite <- (take_drop 5 all) in N. apply NoDup_app in N. tauto.
  - apply Forall_forall. intros y Hy. apply list_elem_of_In in Hy.
    apply In_take in Hy.
    destruct (I y Hy) as [[]|H]. exact H.
Qed.

Lemma X15_collectMessages_sound_witness :
  length ["Card declined"] <= 5
  /\ NoDup ["Card declined"]
  /\ Forall (fun y =>
       truthy y = true
       /\ exists selector found el,
            In selector ["[role=" ++ dquote ++ "alert" ++ dquote ++ "]";
                         ".error"; ".alert-danger"; ".notification-error";
                         ".text-danger"]
            /\ bannerPage selector = Ok found
            /\ In el found /\ y = textOf el) ["Card declined"].
Proof.
  apply (X15_collectMessages_sound bannerPage). reflexivity.
Defined.

(** X16. An element is given at most three labels, no two of them
    equal and none of them empty, whatever its label elements hold. *)
Theorem X16_getAssociatedLabels_bounded labels id labelFor :
  length (getAssociatedLabels labels id labelFor) <= 3
  /\ NoDup (getAssociatedLabels labels id labelFor)
  /\ Forall (fun t => truthy t = true)
            (getAssociatedLabels labels id labelFor).
Proof.
  unfold getAssociatedLabels.
  set (first := match labels with
                | Some ls => List.filter truthy (map textOf ls)
                | None => []
                end).
  assert (F : Forall (fun t => truthy t = true) first).
  { apply Forall_forall. intros t Ht. apply list_elem_of_In in Ht.
    subst first. destruct labels as [ls|]; [|destruct Ht].
    apply filter_In in Ht. tauto. }
  set (out := if truthy id then _ else first).
  assert (G : Forall (fun t => truthy t = true) out).
  { subst out. destruct (truthy id); [|exact F].
    destruct labelFor as [[lbl|]|m]; try exact F.
    destruct (truthy (textOf lbl)) eqn:T; [|exact F].
    apply Forall_app. split; [exact F|]. constructor; [exact T|constructor]. }
  unfold setFrom.
  destruct (setFrom_from out [] (NoDup_nil_2 (A:=string))) as [N I].
  split; [rewrite length_take; lia|]. split.
  - rewrite <- (take_drop 3 (foldl _ [] out)) in N.
    apply NoDup_app in N. tauto.
  - apply Forall_forall. intros t Ht. apply list_elem_of_In in Ht.
    apply In_take in Ht. apply I in Ht.
    destruct Ht as [[]|Ht].
    rewrite Forall_forall in G. apply G, list_elem_of_In, Ht.
Qed.

End MessageFacts.

Section NormalizeFacts.
Import Text Tidy Messages.

Lemma collapseFrom_singleSpaced s : forall b,
  singleSpaced b (collapseFrom b s) = true.
Proof.
  induction s as [|c s IH]; intros b; simpl; [reflexivity|].
  destruct (isSpace c) eqn:W.
  - destruct b; [apply IH|]. simpl. apply IH.
  - simpl. rewrite W. apply IH.
Qed.

Lemma singleSpaced_fixed s : forall b,
  singleSpaced b s = true -> collapseFrom b s = s.
Proof.
  induction s as [|c s IH]; intros b; simpl; [reflexivity|].
  destruct (isSpace c) eqn:W.
  - rewrite !andb_true_iff. intros [[E B] H].
    apply Ascii.eqb_eq in E. subst c. destruct b; [discriminate|].
    rewrite (IH true H). reflexivity.
  - intros H. rewrite (IH false H). reflexivity.
Qed.

Lemma trimStart_noLeading s : noLeadingSpace (trimStart s) = true.
Proof.
  induction s as [|c s IH]; simpl; [reflexivity|].
  destruct (isSpace c) eqn:W; [exact IH|]. simpl. now rewrite W.
Qed.

Lemma noLeading_trimStart s : noLeadingSpace s = true -> trimStart s = s.
Proof.
  destruct s as [|c s]; simpl; [reflexivity|].
  destruct (isSpace c); [discriminate|reflexivity].
Qed.

Lemma trimEnd_noTrailing s : noTrailingSpace (trimEnd s) = true.
Proof.
  induction s as [|c s IH]; simpl; [reflexivity|].
  destruct (trimEnd s) as [|d r] eqn:E.
  - destruct (isSpace c) eqn:W; simpl; [reflexivity|now rewrite W].
  - exact IH.
Qed.

Lemma noTrailing_trimEnd s : noTrailingSpace s = true -> trimEnd s = s.
Proof.
  induction s as [|c s IH]; simpl; [reflexivity|].
  destruct s as [|d r].
  - simpl. destruct (isSpace c); [discriminate|reflexivity].
  - intros H. rewrite (IH H). reflexivity.
Qed.

Lemma trimEnd_noLeading s :
  noLeadingSpace s = true -> noLeadingSpace (trimEnd s) = true.
Proof.
  destruct s as [|c s]; simpl; [reflexivity|].
  intros H. destruct (trimEnd s); [|exact H].
  destruct (isSpace c) eqn:W; [reflexivity|]. simpl. now rewrite W.
Qed.

Lemma collapse_noLeading s :
  noLeadingSpace s = true -> noLeadingSpace (collapseFrom false s) = true.
Proof.
  destruct s as [|c s]; simpl; [reflexivity|].
  destruct (isSpace c) eqn:W; [discriminate|]. simpl. now rewrite W.
Qed.

Lemma collapse_nonempty s : forall b,
  s <> EmptyString -> noTrailingSpace s = true ->
  collapseFrom b s <> EmptyString.
Proof.
  induction s as [|c s IH]; intros b Hne H; [congruence|]. simpl.
  destruct (isSpace c) eqn:W; [|discriminate].
  destruct b; [|discriminate].
  destruct s as [|d r]; [simpl in H; rewrite W in H; discriminate|].
  apply IH; [discriminate|exact H].
Qed.

Lemma collapse_noTrailing s : forall b,
  noTrailingSpace s = true -> noTrailingSpace (collapseFrom b s) = true.
Proof.
  induction s as [|c s IH]; intros b H; [reflexivity|].
  destruct s as [|d r].
  - simpl in *. destruct (isSpace c) eqn:W; [discriminate|].
    simpl. now rewrite W.
  - assert (Hr : noTrailingSpace (String d r) = true) by exact H.
    pose proof (collapse_nonempty (String d r)) as NE.
    remember (String d r) as t eqn:Et.
    assert (Hne : t <> EmptyString) by (subst t; discriminate).
    simpl. destruct (isSpace c) eqn:W.
    + destruct b; [apply IH, Hr|].
      specialize (NE true Hne Hr). specialize (IH true Hr).
      destruct (collapseFrom true t) as [|x y]; [congruence|].
      exact IH.
    + specialize (NE false Hne Hr). specialize (IH false Hr).
      destruct (collapseFrom false t) as [|x y]; [congruence|].
      exact IH.
Qed.

(** X17. Normalizing a text twice gives what normalizing it once gives:
    a normalized text has no whitespace at either end and no whitespace
    other than single spaces. *)
Theorem X17_normalizeText_idempotent value :
  normalizeText (normalizeText value) = normalizeText value
  /\ noLeadingSpace (normalizeText value) = true
  /\ noTrailingSpace (normalizeText value) = true
  /\ singleSpaced false (normalizeText value) = true.
Proof.
  assert (T : forall s, noLeadingSpace (collapseSpaces (trim s)) = true
                        /\ noTrailingSpace (collapseSpaces (trim s)) = true
                        /\ singleSpaced false (collapseSpaces (trim s)) = true).
  { intros s. unfold collapseSpaces, trim. split; [|split].
    - apply collapse_noLeading, trimEnd_noLeading, trimStart_noLeading.
    - apply collapse_noTrailing, trimEnd_noTrailing.
    - apply collapseFrom_singleSpaced. }
  assert (N : noLeadingSpace (normalizeText value) = true
              /\ noTrailingSpace (normalizeText value) = true
              /\ singleSpaced false (normalizeText value) = true).
  { unfold normalizeText. destruct (truthy value); simpl; [apply T|auto]. }
  split; [|exact N]. destruct N as (L & R & S).
  unfold normalizeText at 1.
  destruct (truthy (normalizeText value)) eqn:E; simpl.
  - unfold collapseSpaces, trim.
    rewrite (noLeading_trimStart _ L), (noTrailing_trimEnd _ R).
    apply singleSpaced_fixed, S.
  - destruct (normalizeText value); [reflexivity|discriminate].
Qed.

End NormalizeFacts.

Section ActionFacts.
Import Text Executor Actions.
Local Open Scope list_scope.

(** X18. On an enabled checkbox, check and uncheck leave the box in the
    requested state with at most one click, and doing the same again
    clicks nothing; on any checkbox, enabled or not, the action reports
    success. *)
Theorem X18_check_sets_state actionType el :
  toLowerCase (cbTagName el) = "input" -> cbType el = "checkbox" ->
  let result := executeCheck actionType (Some el) in
  resSuccess result.1 = Some true
  /\ exists el', result.2 = Some el'
       /\ cbClicks el' <= cbClicks el + 1
       /\ (cbDisabled el = false ->
           checked el' = String.eqb actionType "check"
           /\ executeCheck actionType (Some el') = (result.1, Some el')).
Proof.
  intros Htag Htype. cbn zeta. unfold executeCheck.
  rewrite Htag, Htype. cbn [String.eqb Ascii.eqb Bool.eqb negb orb fst snd].
  split; [reflexivity|]. eexists. split; [reflexivity|].
  destruct (String.eqb actionType "check") eqn:A;
    destruct (checked el) eqn:C; cbn [Bool.eqb negb click cbClicks checked
      cbDisabled cbTagName cbType]; (split; [lia|]); intros D;
    rewrite ?D, ?C, ?Htag, ?Htype;
    cbn [String.eqb Ascii.eqb Bool.eqb negb orb]; auto.
Qed.

Lemma X18_check_sets_state_witness :
  resSuccess (executeCheck "check" (Some newsletterBox)).1 = Some true
  /\ exists el', (executeCheck "check" (Some newsletterBox)).2 = Some el'
       /\ cbClicks el' <= cbClicks newsletterBox + 1
       /\ (cbDisabled newsletterBox = false ->
           checked el' = String.eqb "check" "check"
           /\ executeCheck "check" (Some el')
              = ((executeCheck "check" (Some newsletterBox)).1, Some el')).
Proof.
  apply (X18_check_sets_state "check" newsletterBox); reflexivity.
Defined.

Lemma hasScheme_https s : hasScheme ("https://" ++ s)%string = true.
Proof. reflexivity. Qed.

(** The address parser is only ever handed a string that begins
    with a scheme: what it would do with any other string has no
    influence on the result of a navigation. *)
Lemma navigate_parses_absolute parseUrl v u t :
  navigateToUrl parseUrl v u t
  = navigateToUrl (fun candidate =>
                     if hasScheme candidate then parseUrl candidate else None)
                  v u t.
Proof.
  unfold navigateToUrl.
  destruct (negb (truthy (trim (orElse v (orElse u t))))); [reflexivity|].
  destruct (hasScheme (trim (orElse v (orElse u t)))) eqn:S;
    cbn [negb].
  - rewrite S. reflexivity.
  - rewrite hasScheme_https. reflexivity.
Qed.

(** A value made of whitespace only stands in the way of the url
    and target_url fields: the navigation fails for want of an
    address, whatever the two hold, and nothing is scheduled. *)
Lemma blank_value_hides_url parseUrl v u t :
  truthy v = true -> trim v = EmptyString ->
  navigateToUrl parseUrl v u t = failure "No URL provided for navigation".
Proof.
  intros T B. unfold navigateToUrl, orElse. rewrite T, B. reflexivity.
Qed.

(** X19. Navigation. The address parser is only ever handed a string
    that begins with a scheme, so what it would do with any other string
    has no influence on the result; and a value made of whitespace only
    stands in the way of the url and target_url fields: the navigation
    fails for want of an address, whatever the two hold, and nothing is
    scheduled. *)
Theorem X19_navigate_addresses parseUrl v u t :
  navigateToUrl parseUrl v u t
  = navigateToUrl (fun candidate =>
                     if hasScheme candidate then parseUrl candidate else None)
                  v u t
  /\ (truthy v = true -> trim v = EmptyString ->
      navigateToUrl parseUrl v u t
      = failure "No URL provided for navigation").
Proof.
  split; [apply navigate_parses_absolute|apply blank_value_hides_url].
Qed.

Lemma X19_navigate_addresses_witness :
  navigateToUrl (fun s => Some s) "  " "https://example.org/" EmptyString
  = failure "No URL provided for navigation".
Proof.
  apply (proj2 (X19_navigate_addresses (fun s => Some s) "  "
                  "https://example.org/" EmptyString)); reflexivity.
Defined.

(** X20. Typing into a file input fails without an exception and
    without an event: the newer executor reports a failure and leaves
    the field as focusing left it, where the earlier one throws. *)
Theorem X20_file_input_refuses others f active v :
  toLowerCase (tagName f) = "input" -> inputType f = "file" ->
  isContentEditable f = false -> truthy v = true ->
  setValueReactSafe browser f v = (false, f)
  /\ setElementValue browser f v = None
  /\ executeTypeBasic browser (Some f) active (Some v) = None
  /\ exists f',
       executeType browser others (Some f) active (Some v) = (false, Some f')
       /\ value f' = value f
       /\ dispatched "input" (calls f') = dispatched "input" (calls f)
       /\ dispatched "change" (calls f') = dispatched "change" (calls f).
Proof.
  intros Htag Htype Hce Hv.
  assert (R : forall g, toLowerCase (tagName g) = "input" ->
                inputType g = "file" ->
                setValueReactSafe browser g v = (false, g)).
  { intros g Hg Hg'. unfold setValueReactSafe, storeValue.
    rewrite Hg, Hg', Hv. reflexivity. }
  assert (E : forall g, toLowerCase (tagName g) = "input" ->
                inputType g = "file" -> isContentEditable g = false ->
                setElementValue browser g v = None).
  { intros g Hg Hg' Hc. unfold setElementValue, storeValue.
    rewrite Hc, Hg, Hg', Hv. reflexivity. }
  split; [apply R; assumption|]. split; [apply E; assumption|]. split.
  - unfold executeTypeBasic. rewrite E; auto.
  - unfold executeType.
    set (auto := hasAutocompleteAttr f || String.eqb (role f) "combobox"
                 || String.eqb (role f) "searchbox").
    set (prepared := if auto then _ else f).
    assert (P : toLowerCase (tagName prepared) = "input"
                /\ inputType prepared = "file" /\ value prepared = value f
                /\ exists added, calls prepared = calls f ++ added
                     /\ forall type, dispatched type added = 0).
    { subst prepared. destruct auto.
      - cbn [ariaExpanded record focusElement].
        destruct (String.eqb (ariaExpanded f) "false");
          (split; [exact Htag|]); (split; [exact Htype|]);
          (split; [reflexivity|]); cbn [calls record focusElement];
          rewrite <- ?app_assoc; eexists; (split; [reflexivity|]);
          reflexivity.
      - split; [exact Htag|]. split; [exact Htype|]. split; [reflexivity|].
        exists []. split; [now rewrite app_nil_r|reflexivity]. }
    destruct P as (Ptag & Ptype & Pval & added & Pcalls & Pnone).
    assert (Ty : typeIntoElement browser others (focusElement prepared) v
                 = ({| ok := false; mode := "input" |},
                    focusElement prepared)).
    { unfold typeIntoElement.
      change (tagName (focusElement prepared)) with (tagName prepared).
      rewrite Ptag. change ("input" =? "input") with true. cbn [orb].
      rewrite (R (focusElement prepared) Ptag Ptype). reflexivity. }
    rewrite Ty. cbn [ok]. rewrite andb_false_r.
    eexists. split; [reflexivity|]. split; [exact Pval|].
    cbn [calls focusElement record]. rewrite Pcalls, <- app_assoc.
    split; rewrite dispatched_app, dispatched_app, Pnone;
      change (dispatched _ [ScrollIntoView; Focus]) with 0; lia.
Qed.

Lemma X20_file_input_refuses_witness :
  setValueReactSafe browser uploadField "C:/cv.pdf" = (false, uploadField)
  /\ setElementValue browser uploadField "C:/cv.pdf" = None
  /\ executeTypeBasic browser (Some uploadField) None (Some "C:/cv.pdf")
     = None
  /\ exists f',
       executeType browser ExecutorSpec.noOthers (Some uploadField) None
         (Some "C:/cv.pdf") = (false, Some f')
       /\ value f' = value uploadField
       /\ dispatched "input" (calls f')
          = dispatched "input" (calls uploadField)
       /\ dispatched "change" (calls f')
          = dispatched "change" (calls uploadField).
Proof.
  apply (X20_file_input_refuses ExecutorSpec.noOthers uploadField None
           "C:/cv.pdf"); reflexivity.
Defined.

End ActionFacts.

Section TransportFacts.
Import Text Transport TransportSpec.
Local Open Scope list_scope.

Lemma send_bounds {R} (tab : Tab R) frame w :
  sent w <= sent (sendMessageToContentScript tab frame w).2
  /\ sent (sendMessageToContentScript tab frame w).2 <= sent w + 2
  /\ injections (sendMessageToContentScript tab frame w).2
     <= injections w + 1.
Proof.
  unfold sendMessageToContentScript, attempt, injectContentScripts, delay.
  destruct (currentTabId tab); [|simpl; lia].
  destruct (answer tab (sent w) frame) as [m|r]; [|simpl; lia].
  destruct (includes m missingReceiverMessage); [|simpl; lia].
  cbn [injections sent]. destruct (injectionFails tab (injections w));
    simpl; lia.
Qed.

(** X21. A message is tried at most twice and the content scripts are
    injected at most once for it: an answer, or a rejection for any
    reason other than a missing receiver, ends the sending after one
    try; two tries mean a missing receiver, a successful injection and
    a wait of 150 ms between them, and the second answer is final. *)
Theorem X21_send_retries_once {R} (tab : Tab R) frame w :
  let result := sendMessageToContentScript tab frame w in
  sent result.2 <= sent w + 2
  /\ injections result.2 <= injections w + 1
  /\ (forall tabId r, currentTabId tab = Some tabId ->
        answer tab (sent w) frame = Resolved r ->
        result = (Resolved r, (attempt tab frame w).2))
  /\ (forall tabId m, currentTabId tab = Some tabId ->
        answer tab (sent w) frame = Rejected m ->
        includes m missingReceiverMessage = false ->
        result = (Rejected m, (attempt tab frame w).2))
  /\ (sent result.2 = sent w + 2 ->
        exists m, answer tab (sent w) frame = Rejected m
          /\ includes m missingReceiverMessage = true
          /\ injectionFails tab (injections w) = false
          /\ result.1 = answer tab (sent w + 1) frame
          /\ log result.2
             = log w ++ [Sent frame; Injected; Waited 150; Sent frame]).
Proof.
  cbn zeta. destruct (send_bounds tab frame w) as (_ & B1 & B2).
  split; [exact B1|]. split; [exact B2|]. split; [|split].
  - intros tabId r T A. unfold sendMessageToContentScript, attempt.
    rewrite T, A. reflexivity.
  - intros tabId m T A I. unfold sendMessageToContentScript, attempt.
    rewrite T, A, I. reflexivity.
  - unfold sendMessageToContentScript, attempt, injectContentScripts, delay.
    destruct (currentTabId tab); [|simpl; lia].
    destruct (answer tab (sent w) frame) as [m|r]; [|simpl; lia].
    destruct (includes m missingReceiverMessage) eqn:I; [|simpl; lia].
    cbn [injections sent log].
    destruct (injectionFails tab (injections w)) eqn:F; [simpl; lia|].
    intros _. exists m. cbn [fst snd sent log].
    rewrite <- !app_assoc. auto.
Qed.

(** X22. The frames listed for a tab always include the top frame,
    whatever the browser's frame listing and tab look-ups do. *)
Theorem X22_frames_include_top listing tabUrl :
  existsb (fun f => (frameId f =? 0)%Z) (getAllFramesSafe listing tabUrl)
  = true.
Proof.
  unfold getAllFramesSafe. destruct listing as [frames|m].
  - destruct (existsb _ frames) eqn:E; [exact E|].
    destruct (tabUrl 0); [reflexivity|]. destruct (tabUrl 1); reflexivity.
  - destruct (tabUrl 0); reflexivity.
Qed.

Lemma tryFrames_bounds tab frames : forall w,
  sent w <= sent (tryFrames tab frames w).2
  /\ sent (tryFrames tab frames w).2 <= sent w + 2 * length frames.
Proof.
  induction frames as [|f frames IH]; intros w; simpl; [lia|].
  pose proof (send_bounds tab (Some (frameId f)) w) as (B0 & B1 & _).
  destruct (sendMessageToContentScript tab (Some (frameId f)) w)
    as [[m|res] w1]; simpl in *.
  - specialize (IH w1). lia.
  - destruct (succeeded res); simpl; [lia|]. specialize (IH w1). lia.
Qed.

Lemma tryFrames_succeeded tab frames : forall w res,
  (tryFrames tab frames w).1 = Some res -> succeeded (Some res) = true.
Proof.
  induction frames as [|f frames IH]; intros w res; simpl; [discriminate|].
  destruct (sendMessageToContentScript tab (Some (frameId f)) w)
    as [[m|r] w1]; [apply IH|].
  destruct (succeeded r) eqn:S; [|apply IH].
  simpl. intros ->. exact S.
Qed.

(** X23. The action goes to the other frames only when the first reply
    is missing or says that the target was not found: a success, or a
    failure of another kind, is handed back as it came and nothing more
    is sent. Whatever happens, at most two messages per frame and two
    more go out, a reply from another frame is handed back only if it
    reports success, and the function never resolves to an undefined
    reply. *)
Theorem X23_frames_only_when_not_found tab frames w :
  let result := executeActionOnPage tab frames w in
  (forall r w1,
      sendMessageToContentScript tab None w = (Resolved (Some r), w1) ->
      succeeded (Some r) = true \/ isElementNotFound r = false ->
      result = (Resolved (Some r), w1))
  /\ (forall m w1,
        sendMessageToContentScript tab None w = (Rejected m, w1) ->
        result = (Rejected m, w1))
  /\ sent result.2 <= sent w + 2 * (1 + length frames)
  /\ result.1 <> Resolved None
  /\ (forall r w1 res,
        sendMessageToContentScript tab None w = (Resolved r, w1) ->
        result.1 = Resolved (Some res) -> r <> Some res ->
        res = notFoundInAnyFrame \/ succeeded (Some res) = true).
Proof.
  cbn zeta. unfold executeActionOnPage.
  pose proof (send_bounds tab None w) as (B0 & B1 & _).
  destruct (sendMessageToContentScript tab None w) as [[m|response] w1]
    eqn:S; simpl in B0, B1.
  { split; [discriminate|]. split; [now intros ? ? [= <- <-]|].
    split; [simpl; lia|]. split; [discriminate|]. discriminate. }
  pose proof (tryFrames_bounds tab frames w1) as (T0 & T1).
  pose proof (tryFrames_succeeded tab frames w1) as TS.
  split.
  { intros r w' [= -> <-] [H|H].
    - rewrite H. reflexivity.
    - destruct (succeeded (Some r)); [reflexivity|]. rewrite H. reflexivity. }
  split; [discriminate|].
  destruct (succeeded response) eqn:Su.
  { simpl. split; [lia|]. split.
    - destruct response; [discriminate|discriminate].
    - intros r w' res [= <- <-] [= ->] C. congruence. }
  destruct response as [r|]; cbn [negb].
  - destruct (isElementNotFound r); cbn [negb].
    + destruct (tryFrames tab frames w1) as [[res|] w2]; simpl in *.
      * split; [lia|]. split; [discriminate|].
        intros r' w' res' [= <- <-] [= <-] _. right. now apply TS.
      * split; [lia|]. split; [discriminate|].
        intros r' w' res' [= <- <-] [= <-] C. congruence.
    + simpl. split; [lia|]. split; [discriminate|].
      intros r' w' res' [= <- <-] [= <-] C. congruence.
  - destruct (tryFrames tab frames w1) as [[res|] w2]; simpl in *.
    + split; [lia|]. split; [discriminate|].
      intros r' w' res' [= <- <-] [= <-] _. right. now apply TS.
    + split; [lia|]. split; [discriminate|].
      intros r' w' res' [= <- <-] [= <-] _. now left.
Qed.

End TransportFacts.

Section PlannerFacts.
Import Text Transport TransportSpec.
Local Open Scope list_scope.

(** X24. One call for the next action makes at most two requests and at
    most one capture in between; every request carries the same previous
    result; the second request exists only after a transient failure of
    the first and a usable fresh snapshot, which it carries; and when
    the call fails, it fails with the error of the first request. *)
Theorem X24_planner_retries_once doRequest recapture domData previousResult :
  let result := requestNextAction doRequest recapture domData previousResult in
  length (List.filter isRequest result.2) <= 2
  /\ length (List.filter isRecapture result.2) <= 1
  /\ (forall m, result.1 = Orchestrator.PlanThrows m ->
        doRequest 0 domData previousResult = Orchestrator.PlanThrows m)
  /\ (forall dom previous, In (Requested dom previous) result.2 ->
        previous = previousResult
        /\ (dom = domData
            \/ exists ok err, recapture
                 = Orchestrator.Captured ok (Some dom) err))
  /\ (length (List.filter isRequest result.2) = 2 ->
        exists err data e,
          doRequest 0 domData previousResult = Orchestrator.PlanThrows err
          /\ plannerTransient err = true
          /\ recapture = Orchestrator.Captured true (Some data) e
          /\ result.2 = [Requested domData previousResult; Paused 1500;
                         Recaptured; Requested data previousResult]).
Proof.
  cbn zeta. unfold requestNextAction.
  destruct (doRequest 0 domData previousResult) as [err|json] eqn:First.
  2:{ cbn [fst snd List.filter isRequest isRecapture length].
      refine (conj _ (conj _ (conj _ (conj _ _)))).
      - lia.
      - lia.
      - discriminate.
      - intros dom previous [[= <- <-]|[]]. auto.
      - intros C. discriminate C. }
  destruct (plannerTransient err) eqn:T; cbn [negb].
  2:{ cbn [fst snd List.filter isRequest isRecapture length].
      refine (conj _ (conj _ (conj _ (conj _ _)))).
      - lia.
      - lia.
      - now intros m [= <-].
      - intros dom previous [[= <- <-]|[]]. auto.
      - intros C. discriminate C. }
  assert (Fail3 :
    let result := (Orchestrator.PlanThrows err,
                   [Requested domData previousResult; Paused 1500;
                    Recaptured]) in
    length (List.filter isRequest result.2) <= 2
    /\ length (List.filter isRecapture result.2) <= 1
    /\ (forall m, result.1 = Orchestrator.PlanThrows m ->
          Orchestrator.PlanThrows err = Orchestrator.PlanThrows m)
    /\ (forall dom previous, In (Requested dom previous) result.2 ->
          previous = previousResult
          /\ (dom = domData
              \/ exists ok e, recapture
                   = Orchestrator.Captured ok (Some dom) e))
    /\ (length (List.filter isRequest result.2) = 2 ->
          exists err' data e,
            Orchestrator.PlanThrows err = Orchestrator.PlanThrows err'
            /\ plannerTransient err' = true
            /\ recapture = Orchestrator.Captured true (Some data) e
            /\ result.2 = [Requested domData previousResult; Paused 1500;
                           Recaptured; Requested data previousResult])).
  { cbn zeta. cbn [fst snd List.filter isRequest isRecapture length].
    refine (conj _ (conj _ (conj _ (conj _ _)))).
    - lia.
    - lia.
    - auto.
    - intros dom previous [[= <- <-]|[[=]|[[=]|[]]]]. auto.
    - intros C. discriminate C. }
  destruct recapture as [m| |[|] [data|] e]; try exact Fail3.
  cbn [fst snd List.filter isRequest isRecapture length].
  refine (conj _ (conj _ (conj _ (conj _ _)))).
  - lia.
  - lia.
  - intros m. destruct (doRequest 1 data previousResult);
      [now intros [= <-]|discriminate].
  - intros dom previous [[= <- <-]|[[=]|[[=]|[[= <- <-]|[]]]]]; eauto.
  - intros _. exists err, data, e. auto.
Qed.

End PlannerFacts.

Section MergeFacts.
Import Text Transport TransportSpec.
Local Open Scope list_scope.

Lemma tagged_elements r :
  map el (tagAll r) = Extractor.elements (resData r)
  /\ Forall (fun t => _frameId t = resFrameId r /\ _frameUrl t = resUrl r)
            (tagAll r).
Proof.
  unfold tagAll. split.
  - rewrite map_map. simpl. apply map_id.
  - apply Forall_forall. intros t Ht. apply list_elem_of_In in Ht.
    apply in_map_iff in Ht. destruct Ht as (e & <- & _). auto.
Qed.

Lemma merged_elements results :
  map el (flat_map tagAll results)
  = flat_map (fun r => Extractor.elements (resData r)) results.
Proof.
  induction results as [|r results IH]; simpl; [reflexivity|].
  rewrite map_app, IH, (proj1 (tagged_elements r)). reflexivity.
Qed.

Lemma captureFrames_from tab frames : forall w r,
  In r (captureFrames tab frames w).1 ->
  exists f, In f frames /\ resFrameId r = frameId f /\ resUrl r = frameUrl f.
Proof.
  induction frames as [|f frames IH]; intros w r; simpl; [tauto|].
  destruct (sendMessageToContentScript tab (Some (frameId f)) w)
    as [res w1].
  specialize (IH w1 r).
  destruct (captureFrames tab frames w1) as [results w2]. simpl in *.
  assert (K : In r results -> exists f0, (f = f0 \/ In f0 frames)
                /\ resFrameId r = frameId f0 /\ resUrl r = frameUrl f0).
  { intros H. destruct (IH H) as (f0 & A & B). exists f0. auto. }
  destruct res as [m|[c|]]; try exact K.
  destruct (capSuccess c); [|exact K].
  destruct (capData c) as [data|]; [|exact K].
  intros [<-|H]; [|exact (K H)]. exists f. auto.
Qed.

(** X25. A merged capture holds the elements of every frame that
    answered with a snapshot, frame after frame in the order of the
    frames, each tagged with the frame it came from; its element count
    and the total of the statistics are the number of these elements;
    its address and title are those of the top frame when that one
    answered. The capture is a single reply only for a tab of one frame
    or when no frame answered with a snapshot. *)
Theorem X25_merged_capture tab waitBeforeCapture frames now w :
  let results :=
    (captureFrames tab frames
       (if (0 <? waitBeforeCapture)%Z then delay waitBeforeCapture w
        else w)).1 in
  match (captureDOMFromPage tab waitBeforeCapture frames now w).1 with
  | Combined data total =>
      1 < length frames
      /\ map el (mergedElements data)
         = flat_map (fun r => Extractor.elements (resData r)) results
      /\ elementCount data = length (mergedElements data)
      /\ total = elementCount data
      /\ Forall (fun t => exists f, In f frames /\ _frameId t = frameId f
                                    /\ _frameUrl t = frameUrl f)
                (mergedElements data)
      /\ (forall r,
            List.find (fun r => (resFrameId r =? 0)%Z) results = Some r ->
            mergedUrl data = Extractor.url (resData r)
            /\ mergedTitle data = Extractor.snapTitle (resData r))
  | Single _ => length frames <= 1 \/ results = []
  end.
Proof.
  cbn zeta. unfold captureDOMFromPage.
  set (w0 := if (0 <? waitBeforeCapture)%Z then _ else w).
  destruct (Nat.leb_spec (length frames) 1) as [L|L].
  { destruct (sendMessageToContentScript tab None w0). now left. }
  pose proof (captureFrames_from tab frames w0) as From.
  destruct (captureFrames tab frames w0) as [results w1] eqn:C.
  cbn [fst] in From |- *.
  destruct results as [|first rest].
  { destruct (sendMessageToContentScript tab None w1). now right. }
  cbn [fst]. split; [exact L|].
  unfold merge. cbn [mergedElements elementCount mergedUrl mergedTitle].
  split; [apply merged_elements|]. split; [reflexivity|].
  split; [reflexivity|]. split.
  - apply Forall_forall. intros t Ht. apply list_elem_of_In in Ht.
    apply in_flat_map in Ht. destruct Ht as (r & Hr & Ht).
    destruct (From r Hr) as (f & Hf & I1 & I2). exists f.
    pose proof (proj2 (tagged_elements r)) as Tg.
    rewrite Forall_forall in Tg.
    destruct (Tg t (proj2 (list_elem_of_In _ _) Ht)) as [T1 T2].
    split; [exact Hf|]. split; congruence.
  - intros r ->. auto.
Qed.

(** On the checkout page both frames answer: the merged capture holds
    the button of the top frame and then the field of the payment
    frame. *)
Example checkout_capture :
  exists data,
    (captureDOMFromPage checkoutTab 0 checkoutFrames 99 idle).1
      = Combined data 2
    /\ map (fun t => (Extractor.uid (el t), _frameId t)) (mergedElements data)
       = [("elem_id_pay", 0%Z); ("elem_name_card", 5%Z)]
    /\ mergedUrl data = "https://shop.example/".
Proof. eexists. split; [reflexivity|]. split; reflexivity. Qed.

End MergeFacts.

Section HistoryFacts.
Import History.

Lemma runOp_bounded s op :
  length (stored s) <= 50 -> length (stored (runOp s op)) <= 50.
Proof.
  intros H. destruct op; simpl.
  - rewrite length_take. lia.
  - simpl. lia.
  - unfold loadHistory. destruct (stored s) eqn:E; simpl; rewrite ?E;
      exact H.
  - unfold onAlarm. destruct (Nat.ltb_spec 100 (length (stored s)));
      [simpl; rewrite length_take; lia|exact H].
Qed.

Lemma history_bounded ops :
  length (stored (foldl runOp installed ops)) <= 50.
Proof.
  induction ops as [|op ops IH] using rev_ind; [simpl; lia|].
  rewrite foldl_app. simpl. apply runOp_bounded, IH.
Qed.

(** X26. From installation on, whatever is added, cleared or reloaded,
    the stored history never holds more than 50 items, the most recent
    first; so the clean-up alarm of the service worker, which trims a
    history of more than 100 items, never changes anything. *)
Theorem X26_stored_history_capped ops item :
  let s := foldl runOp installed ops in
  length (stored s) <= 50
  /\ onAlarm s = s
  /\ stored (addToHistory item s) = firstn 50 (item :: actionHistory s).
Proof.
  cbn zeta. pose proof (history_bounded ops) as B.
  split; [exact B|]. split; [|reflexivity].
  unfold onAlarm.
  destruct (Nat.ltb_spec 100 (length (stored (foldl runOp installed ops))));
    [lia|reflexivity].
Qed.

End HistoryFacts.

Section MissingTarget.
Import Text Executor Actions ActionsSpec Transport.

Lemma toLowerCase_app a b :
  toLowerCase (a ++ b) = toLowerCase a ++ toLowerCase b.
Proof. induction a as [|c a IH]; simpl; [reflexivity|]. now rewrite IH. Qed.

Lemma includes_prefix hay needle :
  String.prefix needle hay = true -> includes hay needle = true.
Proof. intros H. destruct hay; cbn [includes]; rewrite H; reflexivity. Qed.

Lemma notFound_lower uid :
  includes (toLowerCase ("Element not found for UID " ++ uid))
           "element not found" = true.
Proof.
  rewrite toLowerCase_app. apply includes_prefix.
  apply prefix_app_l. reflexivity.
Qed.

(** X27. When no target element could be resolved and the page can
    still be captured, the failure that a click, hover, type, check,
    uncheck or submit action reports makes the side panel try the
    action in the other frames; the loop then takes the failure of a
    click, hover or type for transient and goes on to the next pass
    with the fresh snapshot after 150 ms, without counting an
    iteration, and ends the session on that of a check, uncheck or
    submit. *)
Theorem X27_missing_target_is_retried kind target_uid page snap v previous :
  capture page = Registry.Ok snap ->
  let reply :=
    (handleExecuteAction (Registry.Ok (withoutTarget kind target_uid))
                         page).1 in
  success reply = Some false
  /\ isElementNotFound reply = true
  /\ Orchestrator.isTransient reply = retried kind
  /\ forall w m,
       (Orchestrator.afterFailure v previous reply w m).1
       = (if retried kind
          then Orchestrator.NextPass
                 {| Orchestrator.currentDom := Some snap;
                    Orchestrator.previousResultForBackend := previous;
                    Orchestrator.iteration := Orchestrator.iteration v |}
          else Orchestrator.Break
                 (Orchestrator.failed
                    match kind with
                    | SubmitAction => "No form found to submit"
                    | _ => "Target is not a checkbox"
                    end))
       /\ Orchestrator.effects
            (Orchestrator.afterFailure v previous reply w m).2
          = (Orchestrator.effects m
             ++ (if retried kind then [Orchestrator.Delay 150] else []))%list.
Proof.
  intros C. cbn zeta.
  assert (R : (handleExecuteAction
                 (Registry.Ok (withoutTarget kind target_uid)) page).1
              = {| success := Some false;
                   error := resError (withoutTarget kind target_uid);
                   message := None;
                   navigated := hasNavigated page || false;
                   url := locationHref page; target_url := None;
                   targetUrl := None; errors := detectedErrors page;
                   successes := detectedSuccesses page;
                   new_dom := Some snap; navigationPending := false |}).
  { unfold handleExecuteAction. destruct kind; cbn; rewrite C; reflexivity. }
  rewrite R. clear R.
  assert (T : Orchestrator.isTransient
                {| success := Some false;
                   error := resError (withoutTarget kind target_uid);
                   message := None;
                   navigated := hasNavigated page || false;
                   url := locationHref page; target_url := None;
                   targetUrl := None; errors := detectedErrors page;
                   successes := detectedSuccesses page;
                   new_dom := Some snap; navigationPending := false |}
              = retried kind).
  { unfold Orchestrator.isTransient, Orchestrator.orString,
      Orchestrator.orDefault. cbn [error message].
    destruct kind; cbn [withoutTarget failure resError retried];
      try (vm_compute; reflexivity);
      cbn [truthy String.append];
      unfold Orchestrator.transientPatterns; cbn [existsb];
      rewrite notFound_lower; reflexivity. }
  split; [reflexivity|]. split.
  - unfold isElementNotFound, Orchestrator.orString, Orchestrator.orDefault.
    cbn [error message].
    destruct kind; cbn [withoutTarget failure resError];
      try (vm_compute; reflexivity);
      cbn [truthy String.append]; rewrite notFound_lower; reflexivity.
  - split; [exact T|]. intros w m. unfold Orchestrator.afterFailure.
    rewrite T. cbn [new_dom error message].
    pose proof (delay_grows 150 w m) as (G & _).
    destruct kind; cbn [retried withoutTarget failure resError];
      (split; [reflexivity|]);
      first [exact G | symmetry; apply app_nil_r].
Qed.

Lemma X27_missing_target_is_retried_witness :
  success (handleExecuteAction
             (Registry.Ok (withoutTarget ClickAction "elem_id_pay"))
             (emptyPage OrchestratorSpec.oneElement)).1 = Some false
  /\ isElementNotFound
       (handleExecuteAction
          (Registry.Ok (withoutTarget ClickAction "elem_id_pay"))
          (emptyPage OrchestratorSpec.oneElement)).1 = true
  /\ Orchestrator.isTransient
       (handleExecuteAction
          (Registry.Ok (withoutTarget ClickAction "elem_id_pay"))
          (emptyPage OrchestratorSpec.oneElement)).1 = retried ClickAction
  /\ forall w m,
       (Orchestrator.afterFailure OrchestratorSpec.fifthPass None
          (handleExecuteAction
             (Registry.Ok (withoutTarget ClickAction "elem_id_pay"))
             (emptyPage OrchestratorSpec.oneElement)).1 w m).1
       = (if retried ClickAction
          then Orchestrator.NextPass
                 {| Orchestrator.currentDom := Some OrchestratorSpec.oneElement;
                    Orchestrator.previousResultForBackend := None;
                    Orchestrator.iteration :=
                      Orchestrator.iteration OrchestratorSpec.fifthPass |}
          else Orchestrator.Break
                 (Orchestrator.failed "Target is not a checkbox"))
       /\ Orchestrator.effects
            (Orchestrator.afterFailure OrchestratorSpec.fifthPass None
               (handleExecuteAction
                  (Registry.Ok (withoutTarget ClickAction "elem_id_pay"))
                  (emptyPage OrchestratorSpec.oneElement)).1 w m).2
          = (Orchestrator.effects m
             ++ (if retried ClickAction then [Orchestrator.Delay 150]
                 else []))%list.
Proof.
  apply (X27_missing_target_is_retried ClickAction "elem_id_pay"
           (emptyPage OrchestratorSpec.oneElement)
           OrchestratorSpec.oneElement OrchestratorSpec.fifthPass None).
  reflexivity.
Defined.

End MissingTarget.

Section OptionFacts.
Import Text Registry Messages Options.

Lemma dropdownMatch_blank el :
  dropdownMatch EmptyString el = truthy (textOf (candSource el)).
Proof.
  unfold dropdownMatch. destruct (truthy (textOf (candSource el))); simpl;
    [|reflexivity].
  rewrite includes_empty. rewrite orb_true_r. reflexivity.
Qed.

Lemma autocompleteMatch_blank opt :
  autocompleteMatch EmptyString opt
  = shownOption opt && truthy (textOf (candSource opt)).
Proof.
  unfold autocompleteMatch. destruct (shownOption opt); simpl; [|reflexivity].
  destruct (truthy (textOf (candSource opt))); simpl; [|reflexivity].
  rewrite includes_empty. rewrite orb_true_r. reflexivity.
Qed.

Lemma find_ext_bool {A} (p q : A -> bool) l :
  (forall x, p x = q x) -> List.find p l = List.find q l.
Proof.
  intros E. induction l as [|x l IH]; simpl; [reflexivity|].
  rewrite E, IH. reflexivity.
Qed.

Lemma searchRoots_sound value roots : forall el,
  searchRoots value roots = Some el ->
  (exists root, In root roots /\ In el root)
  /\ dropdownMatch value el = true.
Proof.
  induction roots as [|root roots IH]; intros el; simpl; [discriminate|].
  unfold matchInRoot. destruct (List.find _ root) as [found|] eqn:F.
  - intros [= <-]. apply find_some in F. destruct F as [F1 F2].
    split; [exists root; auto|exact F2].
  - intros H. destruct (IH el H) as [(r & R1 & R2) M].
    split; [exists r; auto|exact M].
Qed.

Lemma searchRoots_blank roots :
  searchRoots EmptyString roots
  = RegistrySpec.firstSome
      (List.find (fun el => truthy (textOf (candSource el)))) roots.
Proof.
  induction roots as [|root roots IH]; simpl; [reflexivity|].
  unfold matchInRoot.
  rewrite (find_ext_bool _ _ root dropdownMatch_blank), IH. reflexivity.
Qed.

(** X28. The option that the custom-dropdown finder returns is a candidate
    of one of the roots searched, has a non-empty text and passes the
    test of the loop. When the trigger controls a popup that exists, the
    document at large is never searched. A request that is missing or
    blank picks the first candidate with a non-empty text. *)
Theorem X28_dropdown_option valueOrText popups documentOptions :
  let roots := match popups with
               | [] => [documentOptions]
               | _ :: _ => popups
               end in
  (forall el,
      findCustomDropdownOption valueOrText popups documentOptions = Some el ->
      (exists root, In root roots /\ In el root)
      /\ truthy (textOf (candSource el)) = true
      /\ dropdownMatch (requestedValue valueOrText) el = true)
  /\ (popups <> [] ->
      forall others,
        findCustomDropdownOption valueOrText popups others
        = findCustomDropdownOption valueOrText popups documentOptions)
  /\ (requestedValue valueOrText = EmptyString ->
      findCustomDropdownOption valueOrText popups documentOptions
      = RegistrySpec.firstSome
          (List.find (fun el => truthy (textOf (candSource el)))) roots).
Proof.
  cbn zeta. unfold findCustomDropdownOption. split; [|split].
  - intros el H. apply searchRoots_sound in H. destruct H as [R M].
    split; [exact R|]. split; [|exact M].
    unfold dropdownMatch in M.
    destruct (truthy (textOf (candSource el))); [reflexivity|discriminate].
  - intros N others. destruct popups; [congruence|reflexivity].
  - intros ->. apply searchRoots_blank.
Qed.

Lemma X28_dropdown_option_witness :
  findCustomDropdownOption None [sortMenu] pageItems
  = RegistrySpec.firstSome
      (List.find (fun el => truthy (textOf (candSource el)))) [sortMenu].
Proof.
  apply (X28_dropdown_option None [sortMenu] pageItems). reflexivity.
Defined.

Lemma searchSelectors_sound q value selectors : forall opt,
  searchSelectors q value selectors = Some opt ->
  (exists selector options,
      In selector selectors /\ q selector = Ok options /\ In opt options)
  /\ autocompleteMatch value opt = true.
Proof.
  induction selectors as [|s rest IH]; intros opt; simpl; [discriminate|].
  assert (K : searchSelectors q value rest = Some opt ->
              (exists selector options,
                  (s = selector \/ In selector rest)
                  /\ q selector = Ok options /\ In opt options)
              /\ autocompleteMatch value opt = true).
  { intros H. destruct (IH opt H) as [(s' & o' & A & B & C) M].
    split; [exists s', o'; auto|exact M]. }
  destruct (q s) as [options|m] eqn:Q; [|exact K].
  destruct (List.find _ options) as [found|] eqn:F; [|exact K].
  intros [= <-]. apply find_some in F. destruct F as [F1 F2].
  split; [exists s, options; auto|exact F2].
Qed.

(** X29. The option that the autocomplete finder returns was matched by
    one of its selectors, is displayed with a box of non-zero size, has
    a non-empty text and passes the test of the loop; for a request
    that is missing or blank that test is passed by every displayed
    option with a non-empty text. *)
Theorem X29_autocomplete_option q valueOrText :
  (forall opt,
      findAutocompleteOption q valueOrText = Some opt ->
      (exists selector options,
          In selector autocompleteSelectors /\ q selector = Ok options
          /\ In opt options)
      /\ shownOption opt = true
      /\ truthy (textOf (candSource opt)) = true
      /\ autocompleteMatch (requestedValue valueOrText) opt = true)
  /\ (requestedValue valueOrText = EmptyString ->
      forall opt,
        autocompleteMatch (requestedValue valueOrText) opt
        = shownOption opt && truthy (textOf (candSource opt))).
Proof.
  unfold findAutocompleteOption. split.
  - intros opt H. apply searchSelectors_sound in H. destruct H as [S M].
    split; [exact S|]. unfold autocompleteMatch in M.
    destruct (shownOption opt) eqn:Sh; [|discriminate]. simpl in M.
    destruct (truthy (textOf (candSource opt))) eqn:T; [|discriminate].
    split; [reflexivity|]. split; [reflexivity|].
    unfold autocompleteMatch. rewrite Sh, T. exact M.
  - intros -> opt. apply autocompleteMatch_blank.
Qed.

Lemma X29_autocomplete_option_witness :
  (exists selector options,
      In selector autocompleteSelectors
      /\ suggestionPage selector = Ok options
      /\ In (item 52 "Newark") options)
  /\ shownOption (item 52 "Newark") = true
  /\ truthy (textOf (candSource (item 52 "Newark"))) = true
  /\ autocompleteMatch (requestedValue (Some " newark ")) (item 52 "Newark")
     = true.
Proof.
  apply (proj1 (X29_autocomplete_option suggestionPage (Some " newark "))).
  reflexivity.
Defined.

End OptionFacts.

Section BatchFacts.
Import Text Registry Batching.
Local Open Scope list_scope.

Lemma slicesFrom_covers selectors batchSize : forall fuel i,
  0 < batchSize -> length selectors - i <= fuel ->
  exists slices,
    slicesFrom fuel selectors batchSize i = Some slices
    /\ concat slices = skipn i selectors
    /\ Forall (fun slice => 0 < length slice <= batchSize) slices.
Proof.
  intros fuel. induction fuel as [|fuel IH]; intros i B F.
  - simpl. destruct (Nat.ltb_spec i (length selectors)) as [L|L]; [lia|].
    exists []. split; [reflexivity|]. split; [|constructor].
    simpl. symmetry. apply skipn_all2. exact L.
  - cbn [slicesFrom].
    destruct (Nat.ltb_spec i (length selectors)) as [L|L].
    + destruct (IH (i + batchSize) B ltac:(lia)) as (rest & R1 & R2 & R3).
      rewrite R1. eexists. split; [reflexivity|]. split.
      * cbn [concat]. rewrite R2.
        rewrite Nat.add_comm, <- skipn_skipn. apply firstn_skipn.
      * constructor; [|exact R3].
        rewrite length_firstn, length_skipn. lia.
    + exists []. split; [reflexivity|]. split; [|constructor].
      simpl. symmetry. apply skipn_all2. exact L.
Qed.

Lemma slicesFrom_stuck selectors : forall fuel i,
  i < length selectors -> slicesFrom fuel selectors 0 i = None.
Proof.
  intros fuel. induction fuel as [|fuel IH]; intros i L; cbn [slicesFrom];
    destruct (Nat.ltb_spec i (length selectors)) as [L'|L']; try lia.
  - reflexivity.
  - rewrite Nat.add_0_r, (IH i L). reflexivity.
Qed.

Lemma queryBatch_keeps q slice sel :
  In sel slice ->
  match q (Extractor.join ", " slice) with
  | Ok n => queryBatch q slice = n
  | Throws _ => forall els, q sel = Ok els -> incl els (queryBatch q slice)
  end.
Proof.
  intros H. unfold queryBatch.
  destruct (q (Extractor.join ", " slice)) as [n|m]; [reflexivity|].
  intros els Q x Hx. apply in_flat_map. exists sel. split; [exact H|].
  rewrite Q. exact Hx.
Qed.

(** X30. With a batch size above zero the loop of the batched query ends
    after at most one round per selector; its slices, put end to end,
    are the selectors in their order, none of them empty or longer than
    the batch size; and no selector is lost: the matches of its slice
    are in the result, or, when the root rejects the slice as a whole,
    its own matches are whenever the root accepts it alone. With a
    batch size of zero and any selector at all the loop never ends. *)
Theorem X30_batches_cover q selectors batchSize :
  0 < batchSize ->
  (exists slices out,
      slicesFrom (length selectors) selectors batchSize 0 = Some slices
      /\ concat slices = selectors
      /\ Forall (fun slice => 0 < length slice <= batchSize) slices
      /\ queryAllBatched (length selectors) q selectors batchSize = Some out
      /\ forall sel, In sel selectors ->
           exists slice, In slice slices /\ In sel slice
             /\ match q (Extractor.join ", " slice) with
                | Ok n => incl n out
                | Throws _ => forall els, q sel = Ok els -> incl els out
                end)
  /\ (selectors <> [] ->
      forall fuel, queryAllBatched fuel q selectors 0 = None).
Proof.
  intros B. split.
  - destruct (slicesFrom_covers selectors batchSize (length selectors) 0 B
                ltac:(lia)) as (slices & S1 & S2 & S3).
    change (skipn 0 selectors) with selectors in S2.
    exists slices, (flat_map (queryBatch q) slices).
    split; [exact S1|]. split; [exact S2|]. split; [exact S3|]. split.
    + unfold queryAllBatched. rewrite S1. reflexivity.
    + intros sel Hsel. rewrite <- S2 in Hsel. apply in_concat in Hsel.
      destruct Hsel as (slice & H1 & H2). exists slice.
      split; [exact H1|]. split; [exact H2|].
      pose proof (queryBatch_keeps q slice sel H2) as K.
      destruct (q (Extractor.join ", " slice)) as [n|m].
      * intros x Hx. apply in_flat_map. exists slice.
        split; [exact H1|]. rewrite K. exact Hx.
      * intros els Q x Hx. apply in_flat_map. exists slice.
        split; [exact H1|]. exact (K els Q x Hx).
  - intros N fuel. unfold queryAllBatched.
    rewrite slicesFrom_stuck; [reflexivity|].
    destruct selectors; [congruence|simpl; lia].
Qed.

Lemma X30_batches_cover_witness :
  (exists slices out,
      slicesFrom 3 ["button"; "a:unknown"; "a[href]"] 2 0 = Some slices
      /\ concat slices = ["button"; "a:unknown"; "a[href]"]
      /\ Forall (fun slice => 0 < length slice <= 2) slices
      /\ queryAllBatched 3 pickyRoot ["button"; "a:unknown"; "a[href]"] 2
         = Some out
      /\ forall sel, In sel ["button"; "a:unknown"; "a[href]"] ->
           exists slice, In slice slices /\ In sel slice
             /\ match pickyRoot (Extractor.join ", " slice) with
                | Ok n => incl n out
                | Throws _ =>
                    forall els, pickyRoot sel = Ok els -> incl els out
                end)
  /\ (["button"; "a:unknown"; "a[href]"] <> [] ->
      forall fuel,
        queryAllBatched fuel pickyRoot ["button"; "a:unknown"; "a[href]"] 0
        = None).
Proof.
  apply (X30_batches_cover pickyRoot ["button"; "a:unknown"; "a[href]"] 2).
  lia.
Defined.

End BatchFacts.

